(** * Exception dispatch and unwind for i386 (base/ntos/rtl/i386/exdsptch.c)

    A shallow embedding of [RtlIsValidHandler], [RtlDispatchException] and
    [RtlUnwind].  Pointers and ULONG values are integers in [Z] with the
    32-bit wrap-around written out; structures are records; the memory the
    routines read through a typed pointer is a map from addresses to the
    structure stored there.  The handlers, the logging hooks and the other
    assembler helpers are external routines: they are functions on the
    machine state, bundled in the class [Externals].  A call that transfers
    control ([RtlRaiseException], [ZwContinue], [ZwRaiseException]) either
    does not come back or comes back, and the model follows the code in
    both cases. *)

From Stdlib Require Import ZArith List Bool Lia.
Import ListNotations.
Local Open Scope Z_scope.

(** ** Machine integers *)

(** A value converted to ULONG (32-bit, unsigned). *)
Definition ULONG (z : Z) : Z := z mod 2 ^ 32.

(** A value converted to LONG (32-bit, two's complement). *)
Definition LONG (z : Z) : Z := (z + 2 ^ 31) mod 2 ^ 32 - 2 ^ 31.

(** [LongToPtr(-1)] and [(ULONG)-1]. *)
Definition ALL_ONES : Z := ULONG (-1).

(** [sizeof(ULONG)] and [sizeof(PVOID)] on i386. *)
Definition sizeof_ULONG : Z := 4.
Definition sizeof_PVOID : Z := 4.

(** ** Constants of the kernel headers

    The file includes ntrtlp.h, which is not part of the sources at hand:
    the values of its constants are parameters of the model. *)
Class NtHeaders := {
  EXCEPTION_CHAIN_END : Z;
  sizeof_EXCEPTION_REGISTRATION_RECORD : Z;
  KERNEL_STACK_SIZE : Z;
  DISPATCH_LEVEL : Z;
  EXCEPTION_NONCONTINUABLE : Z;
  EXCEPTION_UNWINDING : Z;
  EXCEPTION_EXIT_UNWIND : Z;
  EXCEPTION_STACK_INVALID : Z;
  EXCEPTION_NESTED_CALL : Z;
  FLG_ENABLE_EXCEPTION_LOGGING : Z;
  STATUS_NONCONTINUABLE_EXCEPTION : Z;
  STATUS_INVALID_DISPOSITION : Z;
  STATUS_UNWIND : Z;
  STATUS_BAD_STACK : Z;
  STATUS_INVALID_UNWIND_TARGET : Z;
  CONTEXT_INTEGER : Z;
  CONTEXT_CONTROL : Z;
  CONTEXT_SEGMENTS : Z
}.

(** The values the i386 headers of the kernel give these constants; the
    examples below are run with them. *)
Definition i386_headers : NtHeaders := {|
  EXCEPTION_CHAIN_END := 0xFFFFFFFF;
  sizeof_EXCEPTION_REGISTRATION_RECORD := 8;
  KERNEL_STACK_SIZE := 12288;
  DISPATCH_LEVEL := 2;
  EXCEPTION_NONCONTINUABLE := 0x1;
  EXCEPTION_UNWINDING := 0x2;
  EXCEPTION_EXIT_UNWIND := 0x4;
  EXCEPTION_STACK_INVALID := 0x8;
  EXCEPTION_NESTED_CALL := 0x10;
  FLG_ENABLE_EXCEPTION_LOGGING := 0x00800000;
  STATUS_NONCONTINUABLE_EXCEPTION := 0xC0000025;
  STATUS_INVALID_DISPOSITION := 0xC0000026;
  STATUS_UNWIND := 0xC0000027;
  STATUS_BAD_STACK := 0xC0000028;
  STATUS_INVALID_UNWIND_TARGET := 0xC0000029;
  CONTEXT_INTEGER := 0x00010002;
  CONTEXT_CONTROL := 0x00010001;
  CONTEXT_SEGMENTS := 0x00010004
|}.

(** ** Structures *)

(** The verdict of a handler.  The switch statements name four enumerators;
    every other value takes their [default] branch. *)
Inductive EXCEPTION_DISPOSITION : Type :=
  | ExceptionContinueExecution
  | ExceptionContinueSearch
  | ExceptionNestedException
  | ExceptionCollidedUnwind
  | ExceptionOtherDisposition.

Record EXCEPTION_RECORD : Type := {
  ExceptionCode : Z;
  ExceptionFlags : Z;
  ExceptionRecord : Z;          (* pointer to the inner record *)
  ExceptionAddress : Z;
  NumberParameters : Z
}.

Record EXCEPTION_REGISTRATION_RECORD : Type := {
  Next : Z;
  Handler : Z
}.

Module DISPATCHER_CONTEXT.
Record t : Type := {
  RegistrationPointer : Z
}.
End DISPATCHER_CONTEXT.

(** The fields of CONTEXT the unwind writes; [Registers] stands for the
    rest of the captured machine state. *)
Record CONTEXT : Type := {
  ContextFlags : Z;
  Esp : Z;
  Eax : Z;
  Registers : Z -> Z
}.

Record KPRCB : Type := {
  DpcStack : Z;
  DpcRoutineActive : bool
}.

(** ** Machine state

    What the routines read from the machine: the exception records and the
    registration records by address, ULONG memory by address (the function
    tables live there), and the values the accessor routines return. *)
Record World : Type := {
  ExceptionRecords : Z -> EXCEPTION_RECORD;
  RegistrationRecords : Z -> EXCEPTION_REGISTRATION_RECORD;
  MemoryUlong : Z -> Z;
  NtGlobalFlag : Z;
  KeGetCurrentIrql : Z;
  KeGetCurrentPrcb : KPRCB;
  RtlpGetStackLimits : Z * Z;                (* LowLimit, HighLimit *)
  RtlpGetRegistrationHead : Z;
  RtlLookupFunctionTable : Z -> Z * Z * Z    (* FunctionTable, Base, Length *)
}.

(** [p->ExceptionFlags = v] for a pointer [p] to an exception record. *)
Definition set_ExceptionFlags (w : World) (p : Z) (v : Z) : World :=
  let r := ExceptionRecords w p in
  {| ExceptionRecords := fun a =>
       if a =? p
       then {| ExceptionCode := ExceptionCode r;
               ExceptionFlags := v;
               ExceptionRecord := ExceptionRecord r;
               ExceptionAddress := ExceptionAddress r;
               NumberParameters := NumberParameters r |}
       else ExceptionRecords w a;
     RegistrationRecords := RegistrationRecords w;
     MemoryUlong := MemoryUlong w;
     NtGlobalFlag := NtGlobalFlag w;
     KeGetCurrentIrql := KeGetCurrentIrql w;
     KeGetCurrentPrcb := KeGetCurrentPrcb w;
     RtlpGetStackLimits := RtlpGetStackLimits w;
     RtlpGetRegistrationHead := RtlpGetRegistrationHead w;
     RtlLookupFunctionTable := RtlLookupFunctionTable w |}.

(** [*p = r]. *)
Definition store_ExceptionRecord (w : World) (p : Z) (r : EXCEPTION_RECORD) : World :=
  {| ExceptionRecords := fun a => if a =? p then r else ExceptionRecords w a;
     RegistrationRecords := RegistrationRecords w;
     MemoryUlong := MemoryUlong w;
     NtGlobalFlag := NtGlobalFlag w;
     KeGetCurrentIrql := KeGetCurrentIrql w;
     KeGetCurrentPrcb := KeGetCurrentPrcb w;
     RtlpGetStackLimits := RtlpGetStackLimits w;
     RtlpGetRegistrationHead := RtlpGetRegistrationHead w;
     RtlLookupFunctionTable := RtlLookupFunctionTable w |}.

(** [p->ExceptionFlags]. *)
Definition get_ExceptionFlags (w : World) (p : Z) : Z :=
  ExceptionFlags (ExceptionRecords w p).

(** The C test [(flags & bit) != 0]. *)
Definition flag_set (flags bit : Z) : bool := negb (Z.land flags bit =? 0).

(** ** RtlIsValidHandler *)

(** [RtlInvalidHandlerDetected]: its body is a bare [return]. *)
Definition RtlInvalidHandlerDetected (Handler FunctionTable FunctionTableLength : Z) : unit := tt.

(** [FunctionTable[Middle]] for a PULONG. *)
Definition FunctionTable_at (w : World) (FunctionTable Middle : Z) : Z :=
  MemoryUlong w (ULONG (FunctionTable + sizeof_ULONG * Middle)).

(** The [while (High >= Low)] loop (lines 104-115).  [Handler] is the biased handler.  The
    result lists the indices [Middle] read from the table, in order, and the
    value returned; [None] when [fuel] iterations were not enough. *)
Fixpoint RtlIsValidHandler_loop (fuel : nat) (w : World)
    (FunctionTable Handler Low High : Z) : option (list Z * bool) :=
  match fuel with
  | O => None
  | S fuel' =>
      if High >=? Low then
        let Middle := Z.shiftr (LONG (Low + High)) 1 in
        let FunctionEntry := FunctionTable_at w FunctionTable Middle in
        if Handler <? FunctionEntry then
          option_map (fun r => (Middle :: fst r, snd r))
            (RtlIsValidHandler_loop fuel' w FunctionTable Handler Low (LONG (Middle - 1)))
        else if Handler >? FunctionEntry then
          option_map (fun r => (Middle :: fst r, snd r))
            (RtlIsValidHandler_loop fuel' w FunctionTable Handler (LONG (Middle + 1)) High)
        else
          Some ([Middle], true)
      else
        Some ([], false)
  end.

(** The routine (lines 77-124) with the table reads it made. *)
Definition RtlIsValidHandler_reads (fuel : nat) (w : World) (Handler : Z)
    : option (list Z * bool) :=
  let '(FunctionTable, Base, FunctionTableLength) := RtlLookupFunctionTable w Handler in
  if negb (FunctionTable =? 0) && negb (FunctionTableLength =? 0) then
    if (FunctionTable =? ALL_ONES) && (FunctionTableLength =? ALL_ONES) then
      let _ := RtlInvalidHandlerDetected (ULONG (Handler + Base)) ALL_ONES ALL_ONES in
      Some ([], false)
    else
      let Handler := ULONG (Handler - Base) in
      let Low := 0 in
      let High := LONG FunctionTableLength in
      match RtlIsValidHandler_loop fuel w FunctionTable Handler Low High with
      | Some (reads, true) => Some (reads, true)
      | Some (reads, false) =>
          let _ := RtlInvalidHandlerDetected (ULONG (Handler + Base))
                     FunctionTable FunctionTableLength in
          Some (reads, false)
      | None => None
      end
  else
    Some ([], true).

Definition RtlIsValidHandler (fuel : nat) (w : World) (Handler : Z) : option bool :=
  option_map snd (RtlIsValidHandler_reads fuel w Handler).

(** ** External routines

    The routines the file calls and does not define.  Each one runs code
    that may change the machine state, so each is a function of the state;
    a local whose address is passed ([&DispatcherContext], the context
    record of the unwind, the record raised) goes in and comes back by
    value.  The three routines that transfer control answer [None] when the
    call does not come back, and the state they leave when it does. *)
Class Externals := {
  RtlpExecuteHandlerForException :
    World -> forall (ExceptionRecord EstablisherFrame ContextRecord : Z)
      (DispatcherContext : DISPATCHER_CONTEXT.t) (ExceptionRoutine : Z),
      EXCEPTION_DISPOSITION * World * DISPATCHER_CONTEXT.t;
  RtlpExecuteHandlerForUnwind :
    World -> forall (ExceptionRecord EstablisherFrame : Z) (ContextRecord : CONTEXT)
      (DispatcherContext : DISPATCHER_CONTEXT.t) (ExceptionRoutine : Z),
      EXCEPTION_DISPOSITION * World * CONTEXT * DISPATCHER_CONTEXT.t;
  RtlpUnlinkHandler : World -> forall (UnlinkPointer : Z), World;
  RtlpLogExceptionHandler :
    World -> forall (ExceptionRecord ContextRecord ControlPc HandlerData Size : Z),
      Z * World;
  RtlpLogLastExceptionDisposition :
    World -> forall (LogIndex : Z) (Disposition : EXCEPTION_DISPOSITION), World;
  RtlpCaptureContext : World -> CONTEXT -> CONTEXT;
  RtlRaiseException :
    World -> forall (ExceptionRecord : EXCEPTION_RECORD), option (World * EXCEPTION_RECORD);
  ZwContinue :
    World -> forall (ContextRecord : CONTEXT) (TestAlert : bool), option (World * CONTEXT);
  ZwRaiseException :
    World -> forall (ExceptionRecord : Z) (ContextRecord : CONTEXT) (FirstChance : bool),
      option (World * CONTEXT)
}.

(** What a run of the dispatcher or of the unwind does that its caller can
    observe besides the state it leaves: the handlers it calls, the nodes it
    unlinks, each switch of the stack limits to the DPC stack, and the
    calls that transfer control, with their arguments. *)
Inductive Event : Type :=
  | ExecuteHandlerForException (EstablisherFrame ExceptionRoutine : Z)
  | ExecuteHandlerForUnwind (EstablisherFrame ExceptionRoutine : Z)
  | UnlinkHandler (PriorPointer : Z)
  | SwitchToDpcStack (LowLimit HighLimit : Z)
  | CallRtlRaiseException (ExceptionRecord : EXCEPTION_RECORD)
  | CallZwContinue (ContextRecord : CONTEXT) (TestAlert : bool)
  | CallZwRaiseException (ExceptionRecord : Z) (ContextRecord : CONTEXT) (FirstChance : bool).

(** The test both loops make on a frame (lines 193-199 and 532-538):
    outside the limits, or unaligned. *)
Definition frame_fails `{NtHeaders} (RegistrationPointer LowLimit HighLimit : Z) : bool :=
  let HighAddress := ULONG (RegistrationPointer + sizeof_EXCEPTION_REGISTRATION_RECORD) in
  (RegistrationPointer <? LowLimit)
  || (HighAddress >? HighLimit)
  || negb (Z.land RegistrationPointer 3 =? 0).

(** The test both loops make on a frame that failed (lines 206-216 and
    545-555): did the problem occur on the DPC stack. *)
Definition on_DpcStack `{NtHeaders} (w : World) (RegistrationPointer : Z) : bool :=
  let HighAddress := ULONG (RegistrationPointer + sizeof_EXCEPTION_REGISTRATION_RECORD) in
  let TestAddress := RegistrationPointer in
  if (Z.land TestAddress 3 =? 0) && (KeGetCurrentIrql w >=? DISPATCH_LEVEL) then
    let Prcb := KeGetCurrentPrcb w in
    let DpcStack := DpcStack Prcb in
    DpcRoutineActive Prcb
    && (HighAddress <=? DpcStack)
    && (TestAddress >=? ULONG (DpcStack - KERNEL_STACK_SIZE))
  else false.

(** The limits a switch to the DPC stack installs (lines 224-225 and
    563-564): [LowLimit], [HighLimit]. *)
Definition DpcStack_limits `{NtHeaders} (w : World) : Z * Z :=
  let DpcStack := DpcStack (KeGetCurrentPrcb w) in
  (ULONG (DpcStack - KERNEL_STACK_SIZE), DpcStack).

(** [ExceptionRecord->ExceptionFlags |= bits]. *)
Definition or_ExceptionFlags (w : World) (ExceptionRecord bits : Z) : World :=
  set_ExceptionFlags w ExceptionRecord
    (Z.lor (get_ExceptionFlags w ExceptionRecord) bits).

(** [ExceptionRecord->ExceptionFlags &= (~bits)]. *)
Definition clear_ExceptionFlags (w : World) (ExceptionRecord bits : Z) : World :=
  set_ExceptionFlags w ExceptionRecord
    (Z.land (get_ExceptionFlags w ExceptionRecord) (ULONG (Z.lnot bits))).

(** ** RtlDispatchException *)

Module Dispatch.

(** The locals of the routine that live across iterations. *)
Record Locals : Type := {
  RegistrationPointer : Z;
  NestedRegistration : Z;
  HighLimit : Z;
  LowLimit : Z;
  DispatcherContext : DISPATCHER_CONTEXT.t;
  ExceptionRecord1 : EXCEPTION_RECORD;
  Index : Z
}.

(** How the routine ends: by [return Completion], or inside a call of
    [RtlRaiseException] that does not come back (the last event of the run
    is that call). *)
Inductive Exit : Type :=
  | Return (Completion : bool)
  | NoReturn.

(** One pass through the loop: back to the loop test, or out. *)
Inductive Step : Type :=
  | Again (events : list Event) (w : World) (l : Locals)
  | Done (events : list Event) (w : World) (l : Locals) (e : Exit).

Definition step_events (s : Step) : list Event :=
  match s with Again evs _ _ => evs | Done evs _ _ _ => evs end.

Definition set_limits (l : Locals) (limits : Z * Z) : Locals :=
  {| RegistrationPointer := RegistrationPointer l;
     NestedRegistration := NestedRegistration l;
     HighLimit := snd limits;
     LowLimit := fst limits;
     DispatcherContext := DispatcherContext l;
     ExceptionRecord1 := ExceptionRecord1 l;
     Index := Index l |}.

Definition set_RegistrationPointer (l : Locals) (p : Z) : Locals :=
  {| RegistrationPointer := p;
     NestedRegistration := NestedRegistration l;
     HighLimit := HighLimit l;
     LowLimit := LowLimit l;
     DispatcherContext := DispatcherContext l;
     ExceptionRecord1 := ExceptionRecord1 l;
     Index := Index l |}.

Definition set_NestedRegistration (l : Locals) (p : Z) : Locals :=
  {| RegistrationPointer := RegistrationPointer l;
     NestedRegistration := p;
     HighLimit := HighLimit l;
     LowLimit := LowLimit l;
     DispatcherContext := DispatcherContext l;
     ExceptionRecord1 := ExceptionRecord1 l;
     Index := Index l |}.

Definition set_ExceptionRecord1 (l : Locals) (r : EXCEPTION_RECORD) : Locals :=
  {| RegistrationPointer := RegistrationPointer l;
     NestedRegistration := NestedRegistration l;
     HighLimit := HighLimit l;
     LowLimit := LowLimit l;
     DispatcherContext := DispatcherContext l;
     ExceptionRecord1 := r;
     Index := Index l |}.

Definition set_call (l : Locals) (dc : DISPATCHER_CONTEXT.t) (i : Z) : Locals :=
  {| RegistrationPointer := RegistrationPointer l;
     NestedRegistration := NestedRegistration l;
     HighLimit := HighLimit l;
     LowLimit := LowLimit l;
     DispatcherContext := dc;
     ExceptionRecord1 := ExceptionRecord1 l;
     Index := i |}.

Section Routine.
Context {headers : NtHeaders} {externals : Externals}.

(** The local [ExceptionRecord1] after the four assignments that precede
    a raise; its other fields keep what the local held. *)
Definition fresh_record (l : Locals) (Code ExceptionRecord : Z) : EXCEPTION_RECORD :=
  {| ExceptionCode := Code;
     ExceptionFlags := EXCEPTION_NONCONTINUABLE;
     ExceptionRecord := ExceptionRecord;
     ExceptionAddress := ExceptionAddress (ExceptionRecord1 l);
     NumberParameters := 0 |}.

(** The four assignments to [ExceptionRecord1] and the call of
    [RtlRaiseException] on it (lines 298-303 and 341-345); [back] is the
    code that runs if the call comes back. *)
Definition raise (events : list Event) (w : World) (l : Locals)
    (Code ExceptionRecord : Z) (back : list Event -> World -> Locals -> Step) : Step :=
  let r := fresh_record l Code ExceptionRecord in
  let events := events ++ [CallRtlRaiseException r] in
  match RtlRaiseException w r with
  | None => Done events w (set_ExceptionRecord1 l r) NoReturn
  | Some (w, r) => back events w (set_ExceptionRecord1 l r)
  end.

(** The call of the handler of the frame, between the two logging hooks
    (lines 248-268): the routine called, its disposition, and the state and
    the locals the call leaves. *)
Definition call_handler (ExceptionRecord ContextRecord : Z) (w : World) (l : Locals)
    : Z * EXCEPTION_DISPOSITION * World * Locals :=
  let reg := RegistrationPointer l in
  let '(Index, w) :=
    if flag_set (NtGlobalFlag w) FLG_ENABLE_EXCEPTION_LOGGING
    then RtlpLogExceptionHandler w ExceptionRecord ContextRecord 0 reg (4 * sizeof_ULONG)
    else (Index l, w) in
  let routine := Handler (RegistrationRecords w reg) in
  let '(Disposition, w, DispatcherContext) :=
    RtlpExecuteHandlerForException w ExceptionRecord reg ContextRecord
      (DispatcherContext l) routine in
  let w :=
    if flag_set (NtGlobalFlag w) FLG_ENABLE_EXCEPTION_LOGGING
    then RtlpLogLastExceptionDisposition w Index Disposition
    else w in
  (routine, Disposition, w, set_call l DispatcherContext Index).

(** [if (NestedRegistration == RegistrationPointer)] (lines 277-280): the
    frame just examined ends the nested context. *)
Definition leave_nested (ExceptionRecord : Z) (w : World) (l : Locals) : World * Locals :=
  if NestedRegistration l =? RegistrationPointer l
  then (clear_ExceptionFlags w ExceptionRecord EXCEPTION_NESTED_CALL,
        set_NestedRegistration l 0)
  else (w, l).

(** [RegistrationPointer = RegistrationPointer->Next], at the end of the
    loop body (line 354). *)
Definition advance (events : list Event) (w : World) (l : Locals) : Step :=
  Again events w
    (set_RegistrationPointer l (Next (RegistrationRecords w (RegistrationPointer l)))).

(** [case ExceptionContinueSearch] (lines 315-319). *)
Definition continue_search (ExceptionRecord : Z) (events : list Event) (w : World)
    (l : Locals) : Step :=
  if flag_set (get_ExceptionFlags w ExceptionRecord) EXCEPTION_STACK_INVALID
  then Done events w l (Return false)
  else advance events w l.

(** [switch (Disposition)] and what follows it in the loop body (lines
    286-354).  The first case has no [break] after its raise: if the call
    comes back, control falls through into the second case.  The default
    case goes on to the next frame if its raise comes back. *)
Definition dispose (ExceptionRecord : Z) (events : list Event) (w : World) (l : Locals)
    (Disposition : EXCEPTION_DISPOSITION) : Step :=
  match Disposition with
  | ExceptionContinueExecution =>
      if flag_set (get_ExceptionFlags w ExceptionRecord) EXCEPTION_NONCONTINUABLE
      then raise events w l STATUS_NONCONTINUABLE_EXCEPTION ExceptionRecord
             (continue_search ExceptionRecord)
      else Done events w l (Return true)
  | ExceptionContinueSearch => continue_search ExceptionRecord events w l
  | ExceptionNestedException =>
      let w := or_ExceptionFlags w ExceptionRecord EXCEPTION_NESTED_CALL in
      let l :=
        if DISPATCHER_CONTEXT.RegistrationPointer (DispatcherContext l)
           >? NestedRegistration l
        then set_NestedRegistration l
               (DISPATCHER_CONTEXT.RegistrationPointer (DispatcherContext l))
        else l in
      advance events w l
  | _ => raise events w l STATUS_INVALID_DISPOSITION ExceptionRecord advance
  end.

(** The body of [while (RegistrationPointer != EXCEPTION_CHAIN_END)]
    (lines 184-355), with the loop test in front; when the test fails, the
    [return Completion] after the loop.  [fuel] bounds the search of
    [RtlIsValidHandler]; [None] when it was not enough. *)
Definition iteration (fuel : nat) (ExceptionRecord ContextRecord : Z)
    (w : World) (l : Locals) : option Step :=
  let reg := RegistrationPointer l in
  if reg =? EXCEPTION_CHAIN_END then
    Some (Done [] w l (Return false))
  else if frame_fails reg (LowLimit l) (HighLimit l) then
    if on_DpcStack w reg then
      let limits := DpcStack_limits w in
      Some (Again [SwitchToDpcStack (fst limits) (snd limits)] w (set_limits l limits))
    else
      Some (Done [] (or_ExceptionFlags w ExceptionRecord EXCEPTION_STACK_INVALID) l
              (Return false))
  else
    match RtlIsValidHandler fuel w (Handler (RegistrationRecords w reg)) with
    | None => None
    | Some false =>
        Some (Done [] (or_ExceptionFlags w ExceptionRecord EXCEPTION_STACK_INVALID) l
                (Return false))
    | Some true =>
        let '(routine, Disposition, w, l) :=
          call_handler ExceptionRecord ContextRecord w l in
        let '(w, l) := leave_nested ExceptionRecord w l in
        Some (dispose ExceptionRecord [ExecuteHandlerForException reg routine] w l
                Disposition)
    end.

(** A run of the loop: the events so far in order, the state and the
    locals reached, and the exit taken, if one was. *)
Record Run : Type := {
  events : list Event;
  world : World;
  locals : Locals;
  exit : option Exit
}.

(** The loop, for at most [n] passes. *)
Fixpoint loop (n fuel : nat) (ExceptionRecord ContextRecord : Z)
    (w : World) (l : Locals) : Run :=
  match n with
  | O => {| events := []; world := w; locals := l; exit := None |}
  | S n' =>
      match iteration fuel ExceptionRecord ContextRecord w l with
      | None => {| events := []; world := w; locals := l; exit := None |}
      | Some (Done evs w' l' e) =>
          {| events := evs; world := w'; locals := l'; exit := Some e |}
      | Some (Again evs w' l') =>
          let r := loop n' fuel ExceptionRecord ContextRecord w' l' in
          {| events := evs ++ events r; world := world r;
             locals := locals r; exit := exit r |}
      end
  end.

(** The locals at the first loop test (lines 173-182).  [stack] is what
    the uninitialised locals hold at entry. *)
Definition entry (w : World) (stack : Locals) : Locals :=
  {| RegistrationPointer := RtlpGetRegistrationHead w;
     NestedRegistration := 0;
     HighLimit := snd (RtlpGetStackLimits w);
     LowLimit := fst (RtlpGetStackLimits w);
     DispatcherContext := DispatcherContext stack;
     ExceptionRecord1 := ExceptionRecord1 stack;
     Index := Index stack |}.

End Routine.
End Dispatch.

(** [RtlDispatchException (ExceptionRecord, ContextRecord)] run in the state
    [w], with [fuel] bounding both the passes through the loop and each
    search of a function table.  The run has no exit when [fuel] was not
    enough. *)
Definition RtlDispatchException `{NtHeaders} `{Externals} (fuel : nat)
    (ExceptionRecord ContextRecord : Z) (w : World) (stack : Dispatch.Locals)
    : Dispatch.Run :=
  Dispatch.loop fuel fuel ExceptionRecord ContextRecord w (Dispatch.entry w stack).

(** ** RtlUnwind *)

Module Unwind.

(** The locals of the routine that live across iterations. *)
Record Locals : Type := {
  ContextRecord1 : CONTEXT;
  DispatcherContext : DISPATCHER_CONTEXT.t;
  RegistrationPointer : Z;
  HighLimit : Z;
  LowLimit : Z;
  ExceptionRecord2 : EXCEPTION_RECORD
}.

(** How the routine ends: by the [return] of its last line, or inside a
    call of [ZwContinue], [ZwRaiseException] or [RtlRaiseException] that
    does not come back (the last event of the run is that call). *)
Inductive Exit : Type :=
  | Return
  | NoReturn.

Inductive Step : Type :=
  | Again (events : list Event) (w : World) (l : Locals)
  | Done (events : list Event) (w : World) (l : Locals) (e : Exit).

Definition step_events (s : Step) : list Event :=
  match s with Again evs _ _ => evs | Done evs _ _ _ => evs end.

Definition set_limits (l : Locals) (limits : Z * Z) : Locals :=
  {| ContextRecord1 := ContextRecord1 l;
     DispatcherContext := DispatcherContext l;
     RegistrationPointer := RegistrationPointer l;
     HighLimit := snd limits;
     LowLimit := fst limits;
     ExceptionRecord2 := ExceptionRecord2 l |}.

Definition set_RegistrationPointer (l : Locals) (p : Z) : Locals :=
  {| ContextRecord1 := ContextRecord1 l;
     DispatcherContext := DispatcherContext l;
     RegistrationPointer := p;
     HighLimit := HighLimit l;
     LowLimit := LowLimit l;
     ExceptionRecord2 := ExceptionRecord2 l |}.

Definition set_ExceptionRecord2 (l : Locals) (r : EXCEPTION_RECORD) : Locals :=
  {| ContextRecord1 := ContextRecord1 l;
     DispatcherContext := DispatcherContext l;
     RegistrationPointer := RegistrationPointer l;
     HighLimit := HighLimit l;
     LowLimit := LowLimit l;
     ExceptionRecord2 := r |}.

Definition set_call (l : Locals) (c : CONTEXT) (dc : DISPATCHER_CONTEXT.t) : Locals :=
  {| ContextRecord1 := c;
     DispatcherContext := dc;
     RegistrationPointer := RegistrationPointer l;
     HighLimit := HighLimit l;
     LowLimit := LowLimit l;
     ExceptionRecord2 := ExceptionRecord2 l |}.

Section Routine.
Context {headers : NtHeaders} {externals : Externals}.

(** The local [ExceptionRecord2] after the four assignments that precede
    a raise; its other fields keep what the local held. *)
Definition fresh_record (l : Locals) (Code ExceptionRecord : Z) : EXCEPTION_RECORD :=
  {| ExceptionCode := Code;
     ExceptionFlags := EXCEPTION_NONCONTINUABLE;
     ExceptionRecord := ExceptionRecord;
     ExceptionAddress := ExceptionAddress (ExceptionRecord2 l);
     NumberParameters := 0 |}.

(** The four assignments to [ExceptionRecord2] and the call of
    [RtlRaiseException] on it (lines 517-521, 569-573 and 626-630); [back]
    is the code that runs if the call comes back. *)
Definition raise (events : list Event) (w : World) (l : Locals)
    (Code ExceptionRecord : Z) (back : list Event -> World -> Locals -> Step) : Step :=
  let r := fresh_record l Code ExceptionRecord in
  let events := events ++ [CallRtlRaiseException r] in
  match RtlRaiseException w r with
  | None => Done events w (set_ExceptionRecord2 l r) NoReturn
  | Some (w, r) => back events w (set_ExceptionRecord2 l r)
  end.

(** [ZwContinue(ContextRecord, FALSE)] (lines 508 and 664); [back] is the
    code that runs if the call comes back. *)
Definition continue (events : list Event) (w : World) (l : Locals)
    (back : list Event -> World -> Locals -> Step) : Step :=
  let events := events ++ [CallZwContinue (ContextRecord1 l) false] in
  match ZwContinue w (ContextRecord1 l) false with
  | None => Done events w l NoReturn
  | Some (w, c) => back events w (set_call l c (DispatcherContext l))
  end.

(** The call of the handler of the frame (lines 583-588): the routine
    called, its disposition, and the state and the locals the call leaves. *)
Definition call_handler (ExceptionRecord : Z) (w : World) (l : Locals)
    : Z * EXCEPTION_DISPOSITION * World * Locals :=
  let reg := RegistrationPointer l in
  let routine := Handler (RegistrationRecords w reg) in
  let '(Disposition, w, ContextRecord1, DispatcherContext) :=
    RtlpExecuteHandlerForUnwind w ExceptionRecord reg (ContextRecord1 l)
      (DispatcherContext l) routine in
  (routine, Disposition, w, set_call l ContextRecord1 DispatcherContext).

(** The step to the next registration record, after the switch (lines
    638-645): [PriorPointer] is saved, the pointer moves to its [Next], and
    [PriorPointer] is unlinked. *)
Definition next_record (events : list Event) (w : World) (l : Locals) : Step :=
  let PriorPointer := RegistrationPointer l in
  let l := set_RegistrationPointer l (Next (RegistrationRecords w PriorPointer)) in
  let w := RtlpUnlinkHandler w PriorPointer in
  Again (events ++ [UnlinkHandler PriorPointer]) w l.

(** [switch (Disposition)] and what follows it in the loop body (lines
    594-645).  The default case goes on to the next record if its raise
    comes back. *)
Definition dispose (ExceptionRecord : Z) (events : list Event) (w : World) (l : Locals)
    (Disposition : EXCEPTION_DISPOSITION) : Step :=
  match Disposition with
  | ExceptionContinueSearch => next_record events w l
  | ExceptionCollidedUnwind =>
      let l := set_RegistrationPointer l
                 (DISPATCHER_CONTEXT.RegistrationPointer (DispatcherContext l)) in
      next_record events w l
  | _ => raise events w l STATUS_INVALID_DISPOSITION ExceptionRecord next_record
  end.

(** The stack test on the frame and what depends on it (lines 532-652).
    If the raise of STATUS_BAD_STACK comes back, the loop test is next,
    with the registration pointer where it was. *)
Definition examine_frame (ExceptionRecord : Z) (events : list Event) (w : World)
    (l : Locals) : Step :=
  let reg := RegistrationPointer l in
  if frame_fails reg (LowLimit l) (HighLimit l) then
    if on_DpcStack w reg then
      let limits := DpcStack_limits w in
      Again (events ++ [SwitchToDpcStack (fst limits) (snd limits)]) w (set_limits l limits)
    else
      raise events w l STATUS_BAD_STACK ExceptionRecord Again
  else
    let '(routine, Disposition, w, l) := call_handler ExceptionRecord w l in
    dispose ExceptionRecord (events ++ [ExecuteHandlerForUnwind reg routine]) w l
      Disposition.

(** The code after the loop (lines 655-678). *)
Definition after_loop (TargetFrame ExceptionRecord : Z) (w : World) (l : Locals) : Step :=
  let returns events w l := Done events w l Return in
  if TargetFrame =? EXCEPTION_CHAIN_END then
    continue [] w l returns
  else
    let events := [CallZwRaiseException ExceptionRecord (ContextRecord1 l) false] in
    match ZwRaiseException w ExceptionRecord (ContextRecord1 l) false with
    | None => Done events w l NoReturn
    | Some (w, c) => returns events w (set_call l c (DispatcherContext l))
    end.

(** The body of [while (RegistrationPointer != EXCEPTION_CHAIN_END)]
    (lines 499-653) with the loop test in front; when the test fails, the
    code after the loop.  The two target tests come first (lines 507-522);
    if the call either of them makes comes back, the stack test on the frame
    is next. *)
Definition iteration (TargetFrame ExceptionRecord : Z) (w : World) (l : Locals) : Step :=
  let reg := RegistrationPointer l in
  if reg =? EXCEPTION_CHAIN_END then
    after_loop TargetFrame ExceptionRecord w l
  else if reg =? TargetFrame then
    continue [] w l (examine_frame ExceptionRecord)
  else if negb (TargetFrame =? 0) && (TargetFrame <? reg) then
    raise [] w l STATUS_INVALID_UNWIND_TARGET ExceptionRecord
      (examine_frame ExceptionRecord)
  else
    examine_frame ExceptionRecord [] w l.

Record Run : Type := {
  events : list Event;
  world : World;
  locals : Locals;
  exit : option Exit
}.

(** The loop and the code after it, for at most [n] passes. *)
Fixpoint loop (n : nat) (TargetFrame ExceptionRecord : Z)
    (w : World) (l : Locals) : Run :=
  match n with
  | O => {| events := []; world := w; locals := l; exit := None |}
  | S n' =>
      match iteration TargetFrame ExceptionRecord w l with
      | Done evs w' l' e =>
          {| events := evs; world := w'; locals := l'; exit := Some e |}
      | Again evs w' l' =>
          let r := loop n' TargetFrame ExceptionRecord w' l' in
          {| events := evs ++ events r; world := world r;
             locals := locals r; exit := exit r |}
      end
  end.

(** What the activation of the routine holds at entry: the address of its
    local [ExceptionRecord1], the value of [_ReturnAddress()], and the
    contents of the uninitialised locals. *)
Record Activation : Type := {
  ExceptionRecord1_address : Z;
  ReturnAddress : Z;
  stack : Locals
}.

(** The parameter [ExceptionRecord] after the first statement (lines
    449-450): a local record is built when none was supplied. *)
Definition working_record (ExceptionRecord : Z) (a : Activation) : Z :=
  if ExceptionRecord =? 0 then ExceptionRecord1_address a else ExceptionRecord.

(** The state before the loop (lines 449-470): the local exception
    record is stored when none was supplied, and the unwind flags are set. *)
Definition setup_world (TargetFrame ExceptionRecord : Z) (w : World) (a : Activation)
    : World :=
  let w :=
    if ExceptionRecord =? 0 then
      store_ExceptionRecord w (ExceptionRecord1_address a)
        {| ExceptionCode := STATUS_UNWIND;
           ExceptionFlags := 0;
           ExceptionRecord := 0;
           ExceptionAddress := ReturnAddress a;
           NumberParameters := 0 |}
    else w in
  let ExceptionRecord := working_record ExceptionRecord a in
  if negb (TargetFrame =? 0) then
    or_ExceptionFlags w ExceptionRecord EXCEPTION_UNWINDING
  else
    or_ExceptionFlags w ExceptionRecord (Z.lor EXCEPTION_UNWINDING EXCEPTION_EXIT_UNWIND).

(** The context record before the loop (lines 477-489): captured, then
    adjusted to pop the four arguments, with the return value in [Eax]. *)
Definition adjusted_context (TargetFrame ExceptionRecord ReturnValue : Z)
    (w : World) (a : Activation) : CONTEXT :=
  let c := ContextRecord1 (stack a) in
  let c := {| ContextFlags := Z.lor (Z.lor CONTEXT_INTEGER CONTEXT_CONTROL) CONTEXT_SEGMENTS;
              Esp := Esp c; Eax := Eax c; Registers := Registers c |} in
  let c := RtlpCaptureContext (setup_world TargetFrame ExceptionRecord w a) c in
  {| ContextFlags := ContextFlags c;
     Esp := ULONG (Esp c + (sizeof_PVOID + sizeof_PVOID + sizeof_PVOID + sizeof_PVOID));
     Eax := ReturnValue;
     Registers := Registers c |}.

(** The locals at the first loop test (lines 441 and 477-498). *)
Definition entry (TargetFrame ExceptionRecord ReturnValue : Z)
    (w : World) (a : Activation) : Locals :=
  {| ContextRecord1 := adjusted_context TargetFrame ExceptionRecord ReturnValue w a;
     DispatcherContext := DispatcherContext (stack a);
     RegistrationPointer :=
       RtlpGetRegistrationHead (setup_world TargetFrame ExceptionRecord w a);
     HighLimit := snd (RtlpGetStackLimits w);
     LowLimit := fst (RtlpGetStackLimits w);
     ExceptionRecord2 := ExceptionRecord2 (stack a) |}.

End Routine.
End Unwind.

(** [RtlUnwind (TargetFrame, TargetIp, ExceptionRecord, ReturnValue)] run
    in the state [w] for at most [fuel] passes through the loop.  The body
    never reads [TargetIp]. *)
Definition RtlUnwind `{NtHeaders} `{Externals} (fuel : nat)
    (TargetFrame TargetIp ExceptionRecord ReturnValue : Z)
    (w : World) (a : Unwind.Activation) : Unwind.Run :=
  Unwind.loop fuel TargetFrame (Unwind.working_record ExceptionRecord a)
    (Unwind.setup_world TargetFrame ExceptionRecord w a)
    (Unwind.entry TargetFrame ExceptionRecord ReturnValue w a).

(** ** Sample collaborators and states for the examples *)

(** What a sample handler does when called: the disposition it returns,
    the registration pointer it writes to the dispatcher context (if it
    writes one), and the bits it ORs into the exception flags. *)
Record Verdict : Type := {
  disposition : EXCEPTION_DISPOSITION;
  names : option Z;
  raises : Z
}.

Definition set_RegistrationHead (w : World) (p : Z) : World :=
  {| ExceptionRecords := ExceptionRecords w;
     RegistrationRecords := RegistrationRecords w;
     MemoryUlong := MemoryUlong w;
     NtGlobalFlag := NtGlobalFlag w;
     KeGetCurrentIrql := KeGetCurrentIrql w;
     KeGetCurrentPrcb := KeGetCurrentPrcb w;
     RtlpGetStackLimits := RtlpGetStackLimits w;
     RtlpGetRegistrationHead := p;
     RtlLookupFunctionTable := RtlLookupFunctionTable w |}.

(** Handlers that follow a script indexed by the routine's address; the
    logging hooks do nothing, unlinking a node makes its successor the
    head of the chain, the capture leaves the context as it is, and the
    calls that transfer control do not come back. *)
Definition scripted (script : Z -> Verdict) : Externals := {|
  RtlpExecuteHandlerForException w ExceptionRecord EstablisherFrame ContextRecord
      DispatcherContext ExceptionRoutine :=
    let v := script ExceptionRoutine in
    (disposition v,
     or_ExceptionFlags w ExceptionRecord (raises v),
     match names v with
     | Some p => {| DISPATCHER_CONTEXT.RegistrationPointer := p |}
     | None => DispatcherContext
     end);
  RtlpExecuteHandlerForUnwind w ExceptionRecord EstablisherFrame ContextRecord
      DispatcherContext ExceptionRoutine :=
    let v := script ExceptionRoutine in
    (disposition v,
     or_ExceptionFlags w ExceptionRecord (raises v),
     ContextRecord,
     match names v with
     | Some p => {| DISPATCHER_CONTEXT.RegistrationPointer := p |}
     | None => DispatcherContext
     end);
  RtlpUnlinkHandler w UnlinkPointer :=
    set_RegistrationHead w (Next (RegistrationRecords w UnlinkPointer));
  RtlpLogExceptionHandler w _ _ _ _ _ := (0, w);
  RtlpLogLastExceptionDisposition w _ _ := w;
  RtlpCaptureContext w c := c;
  RtlRaiseException _ _ := None;
  ZwContinue _ _ _ := None;
  ZwRaiseException _ _ _ _ := None
|}.

(** The same collaborators, with the calls that transfer control coming
    back at once and leaving the state, the record and the context as they
    found them. *)
Definition returning (script : Z -> Verdict) : Externals := {|
  RtlpExecuteHandlerForException := @RtlpExecuteHandlerForException (scripted script);
  RtlpExecuteHandlerForUnwind := @RtlpExecuteHandlerForUnwind (scripted script);
  RtlpUnlinkHandler := @RtlpUnlinkHandler (scripted script);
  RtlpLogExceptionHandler := @RtlpLogExceptionHandler (scripted script);
  RtlpLogLastExceptionDisposition := @RtlpLogLastExceptionDisposition (scripted script);
  RtlpCaptureContext := @RtlpCaptureContext (scripted script);
  RtlRaiseException w r := Some (w, r);
  ZwContinue w c _ := Some (w, c);
  ZwRaiseException w _ c _ := Some (w, c)
|}.

(** [*p = r] for a pointer [p] to a registration record. *)
Definition store_RegistrationRecord (w : World) (p : Z)
    (r : EXCEPTION_REGISTRATION_RECORD) : World := {|
  ExceptionRecords := ExceptionRecords w;
  RegistrationRecords := fun a => if a =? p then r else RegistrationRecords w a;
  MemoryUlong := MemoryUlong w;
  NtGlobalFlag := NtGlobalFlag w;
  KeGetCurrentIrql := KeGetCurrentIrql w;
  KeGetCurrentPrcb := KeGetCurrentPrcb w;
  RtlpGetStackLimits := RtlpGetStackLimits w;
  RtlpGetRegistrationHead := RtlpGetRegistrationHead w;
  RtlLookupFunctionTable := RtlLookupFunctionTable w
|}.

(** The scripted collaborators, with a trampoline that writes a
    registration record of its own, at 0x2F00 on the stack, before it calls
    the handler: the node links to the frame and names the routine at
    0x400500. *)
Definition trampoline (script : Z -> Verdict) : Externals := {|
  RtlpExecuteHandlerForException w ExceptionRecord EstablisherFrame ContextRecord
      DispatcherContext ExceptionRoutine :=
    @RtlpExecuteHandlerForException (scripted script)
      (store_RegistrationRecord w 0x2F00
         {| Next := EstablisherFrame; Handler := 0x400500 |})
      ExceptionRecord EstablisherFrame ContextRecord DispatcherContext ExceptionRoutine;
  RtlpExecuteHandlerForUnwind := @RtlpExecuteHandlerForUnwind (scripted script);
  RtlpUnlinkHandler := @RtlpUnlinkHandler (scripted script);
  RtlpLogExceptionHandler := @RtlpLogExceptionHandler (scripted script);
  RtlpLogLastExceptionDisposition := @RtlpLogLastExceptionDisposition (scripted script);
  RtlpCaptureContext := @RtlpCaptureContext (scripted script);
  RtlRaiseException := @RtlRaiseException (scripted script);
  ZwContinue := @ZwContinue (scripted script);
  ZwRaiseException := @ZwRaiseException (scripted script)
|}.

(** The registration record at [a] in a chain given as a list of
    (address, next, handler). *)
Fixpoint node_at (chain : list (Z * Z * Z)) (a : Z) : EXCEPTION_REGISTRATION_RECORD :=
  match chain with
  | [] => {| Next := 0; Handler := 0 |}
  | (p, next, handler) :: rest =>
      if a =? p then {| Next := next; Handler := handler |} else node_at rest a
  end.

(** A state with one exception record (at every address) whose flags are
    [flags], the chain [chain] starting at [head], the stack limits
    [limits], and no function table registered for any handler. *)
Definition sample_world (head : Z) (chain : list (Z * Z * Z)) (flags : Z)
    (limits : Z * Z) (irql : Z) (prcb : KPRCB) : World := {|
  ExceptionRecords := fun _ =>
    {| ExceptionCode := 0xC0000005; ExceptionFlags := flags; ExceptionRecord := 0;
       ExceptionAddress := 0x401000; NumberParameters := 0 |};
  RegistrationRecords := node_at chain;
  MemoryUlong := fun _ => 0;
  NtGlobalFlag := 0;
  KeGetCurrentIrql := irql;
  KeGetCurrentPrcb := prcb;
  RtlpGetStackLimits := limits;
  RtlpGetRegistrationHead := head;
  RtlLookupFunctionTable := fun _ => (0, 0, 0)
|}.

(** The same state with a function table registered for every handler:
    [table] stored at [FunctionTable] and followed in memory by [beyond],
    for an image at [Base]; the registered length is [length table]. *)
Definition with_table (w : World) (FunctionTable Base : Z) (table beyond : list Z)
    : World := {|
  ExceptionRecords := ExceptionRecords w;
  RegistrationRecords := RegistrationRecords w;
  MemoryUlong := fun a =>
    if (FunctionTable <=? a) && (a <? FunctionTable + 4 * Z.of_nat (length (table ++ beyond)))
    then nth (Z.to_nat ((a - FunctionTable) / 4)) (table ++ beyond) 0
    else MemoryUlong w a;
  NtGlobalFlag := NtGlobalFlag w;
  KeGetCurrentIrql := KeGetCurrentIrql w;
  KeGetCurrentPrcb := KeGetCurrentPrcb w;
  RtlpGetStackLimits := RtlpGetStackLimits w;
  RtlpGetRegistrationHead := RtlpGetRegistrationHead w;
  RtlLookupFunctionTable := fun _ => (FunctionTable, Base, Z.of_nat (length table))
|}.

Definition no_prcb : KPRCB := {| DpcStack := 0; DpcRoutineActive := false |}.

Definition sample_record : EXCEPTION_RECORD :=
  {| ExceptionCode := 0; ExceptionFlags := 0; ExceptionRecord := 0;
     ExceptionAddress := 0; NumberParameters := 0 |}.

Definition sample_context : CONTEXT :=
  {| ContextFlags := 0; Esp := 0x0000F000; Eax := 0; Registers := fun _ => 0 |}.

(** What the uninitialised locals hold in the examples. *)
Definition sample_stack : Dispatch.Locals := {|
  Dispatch.RegistrationPointer := 0;
  Dispatch.NestedRegistration := 0;
  Dispatch.HighLimit := 0;
  Dispatch.LowLimit := 0;
  Dispatch.DispatcherContext := {| DISPATCHER_CONTEXT.RegistrationPointer := 0 |};
  Dispatch.ExceptionRecord1 := sample_record;
  Dispatch.Index := 0
|}.

Definition sample_activation : Unwind.Activation := {|
  Unwind.ExceptionRecord1_address := 0x0000EF00;
  Unwind.ReturnAddress := 0x00402000;
  Unwind.stack := {|
    Unwind.ContextRecord1 := sample_context;
    Unwind.DispatcherContext := {| DISPATCHER_CONTEXT.RegistrationPointer := 0 |};
    Unwind.RegistrationPointer := 0;
    Unwind.HighLimit := 0;
    Unwind.LowLimit := 0;
    Unwind.ExceptionRecord2 := sample_record |}
|}.

Definition search := {| disposition := ExceptionContinueSearch; names := None; raises := 0 |}.
Definition resume := {| disposition := ExceptionContinueExecution; names := None; raises := 0 |}.

(** ** Counting the switches to the DPC stack *)

Definition is_switch (e : Event) : bool :=
  match e with SwitchToDpcStack _ _ => true | _ => false end.

(** The number of switches to the DPC stack among the events of a run. *)
Definition switches (evs : list Event) : nat := length (filter is_switch evs).

(** The external routines leave the [DpcStack] field of the processor
    block as it is, also those that raise or continue, if they come back:
    the field is the top of the processor's DPC stack, set when the
    processor is initialised. *)
Definition keeps_DpcStack (X : Externals) : Prop :=
  (forall w r f c dc h,
     DpcStack (KeGetCurrentPrcb (snd (fst (RtlpExecuteHandlerForException w r f c dc h))))
     = DpcStack (KeGetCurrentPrcb w))
  /\ (forall w r f c dc h,
        DpcStack (KeGetCurrentPrcb (snd (fst (fst (RtlpExecuteHandlerForUnwind w r f c dc h)))))
        = DpcStack (KeGetCurrentPrcb w))
  /\ (forall w p,
        DpcStack (KeGetCurrentPrcb (RtlpUnlinkHandler w p)) = DpcStack (KeGetCurrentPrcb w))
  /\ (forall w r c pc d n,
        DpcStack (KeGetCurrentPrcb (snd (RtlpLogExceptionHandler w r c pc d n)))
        = DpcStack (KeGetCurrentPrcb w))
  /\ (forall w i d,
        DpcStack (KeGetCurrentPrcb (RtlpLogLastExceptionDisposition w i d))
        = DpcStack (KeGetCurrentPrcb w))
  /\ (forall w r w' r',
        RtlRaiseException w r = Some (w', r') ->
        DpcStack (KeGetCurrentPrcb w') = DpcStack (KeGetCurrentPrcb w))
  /\ (forall w c b w' c',
        ZwContinue w c b = Some (w', c') ->
        DpcStack (KeGetCurrentPrcb w') = DpcStack (KeGetCurrentPrcb w))
  /\ (forall w p c b w' c',
        ZwRaiseException w p c b = Some (w', c') ->
        DpcStack (KeGetCurrentPrcb w') = DpcStack (KeGetCurrentPrcb w)).

(** The frame at [f] lies within [limits], as both loops test it: its
    address is not below the low limit, and the address past it, as a ULONG,
    is not above the high limit. *)
Definition in_limits `{NtHeaders} (f : Z) (limits : Z * Z) : Prop :=
  fst limits <= f
  /\ ULONG (f + sizeof_EXCEPTION_REGISTRATION_RECORD) <= snd limits.

(** The frame at [f] is [k] links away from the end of the chain. *)
Fixpoint links_to_end `{NtHeaders} (records : Z -> EXCEPTION_REGISTRATION_RECORD)
    (k : nat) (f : Z) : Prop :=
  match k with
  | O => f = EXCEPTION_CHAIN_END
  | S k' => f <> EXCEPTION_CHAIN_END /\ links_to_end records k' (Next (records f))
  end.

(** The frames of the chain from [f], for [k] links. *)
Fixpoint chain_frames (records : Z -> EXCEPTION_REGISTRATION_RECORD) (k : nat) (f : Z)
    : list Z :=
  match k with
  | O => []
  | S k' => f :: chain_frames records k' (Next (records f))
  end.

(** The frames whose handlers a run called, in the order of the calls. *)
Fixpoint called_frames (evs : list Event) : list Z :=
  match evs with
  | [] => []
  | ExecuteHandlerForException f _ :: rest => f :: called_frames rest
  | ExecuteHandlerForUnwind f _ :: rest => f :: called_frames rest
  | _ :: rest => called_frames rest
  end.

(** The states [w'] and [w] hold the same registration records at the
    addresses [frames]. *)
Definition agree_on (frames : list Z) (w' w : World) : Prop :=
  forall a, In a frames -> RegistrationRecords w' a = RegistrationRecords w a.

(** Each routine the dispatcher calls takes a state [w] to a state [w']
    with [R w' w]. *)
Definition dispatch_routines_keep (X : Externals) (R : World -> World -> Prop) : Prop :=
  (forall w r f c dc h, R (snd (fst (RtlpExecuteHandlerForException w r f c dc h))) w)
  /\ (forall w r c pc d n, R (snd (RtlpLogExceptionHandler w r c pc d n)) w)
  /\ (forall w i d, R (RtlpLogLastExceptionDisposition w i d) w)
  /\ (forall w r w' r', RtlRaiseException w r = Some (w', r') -> R w' w).

(** The routines the dispatcher calls do not write the registration
    records at the addresses [frames]; they may write any other. *)
Definition keeps_frames (X : Externals) (frames : list Z) : Prop :=
  dispatch_routines_keep X (agree_on frames).

(** Every function table registered has a length the search can deal
    with: less than 2^30, or with the top bit set. *)
Definition tables_are_searchable (w : World) : Prop :=
  forall h,
    let n := snd (RtlLookupFunctionTable w h) in
    0 <= n < 2 ^ 30 \/ 2 ^ 31 <= n < 2 ^ 32.

(** The routines the dispatcher calls leave every registered function
    table searchable, if they all were. *)
Definition keeps_searchable (X : Externals) : Prop :=
  dispatch_routines_keep X
    (fun w' w => tables_are_searchable w -> tables_are_searchable w').

(** The limits of a run of the dispatcher are those of the DPC stack. *)
Definition dispatch_switched `{NtHeaders} (w : World) (l : Dispatch.Locals) : Prop :=
  (Dispatch.LowLimit l, Dispatch.HighLimit l) = DpcStack_limits w.

(** The limits of a run of the unwind are those of the DPC stack. *)
Definition unwind_switched `{NtHeaders} (w : World) (l : Unwind.Locals) : Prop :=
  (Unwind.LowLimit l, Unwind.HighLimit l) = DpcStack_limits w.

(** The step [s] of the unwind keeps the events [evs] in front of its own. *)
Definition extends (evs : list Event) (s : Unwind.Step) : Prop :=
  exists tail, Unwind.step_events s = evs ++ tail.

(** The system calls of the unwind transfer control and do not come back. *)
Definition system_calls_do_not_return (X : Externals) : Prop :=
  (forall w c b, ZwContinue w c b = None)
  /\ (forall w p c b, ZwRaiseException w p c b = None).

(** ** The function table as the validator sees it *)

(** [h] is one of the [n] entries of the table at [FunctionTable]. *)
Definition entry_of (w : World) (FunctionTable n h : Z) : Prop :=
  exists i, 0 <= i < n /\ FunctionTable_at w FunctionTable i = h.

(** The [n] entries of the table at [FunctionTable] are sorted ascending. *)
Definition ascending (w : World) (FunctionTable n : Z) : Prop :=
  forall i j, 0 <= i -> i <= j -> j < n ->
    FunctionTable_at w FunctionTable i <= FunctionTable_at w FunctionTable j.

(** [h] is greater than every entry of the table. *)
Definition above_table (w : World) (FunctionTable n h : Z) : Prop :=
  forall i, 0 <= i < n -> FunctionTable_at w FunctionTable i < h.

(** ** Sample states *)

(** The chain head lies below the stack limits. *)
Definition bad_head_world : World :=
  sample_world 0x1000 [(0x1000, 0xFFFFFFFF, 0x401000)] 0 (0x2000, 0x10000) 0 no_prcb.

(** A chain of one frame inside the stack limits, its handler at 0x401000,
    and an exception record whose flags are [flags]. *)
Definition one_handler_world (flags : Z) : World :=
  sample_world 0x3000 [(0x3000, 0xFFFFFFFF, 0x401000)] flags (0x2000, 0x10000) 0 no_prcb.

(** Two frames H1 and H2. *)
Definition two_handlers_world : World :=
  sample_world 0x3000 [(0x3000, 0x3010, 0x401000); (0x3010, 0xFFFFFFFF, 0x402000)]
    0 (0x2000, 0x10000) 0 no_prcb.

(** Two frames H1 and H2 and an exception record that is not
    continuable. *)
Definition two_handlers_noncontinuable_world : World :=
  sample_world 0x3000 [(0x3000, 0x3010, 0x401000); (0x3010, 0xFFFFFFFF, 0x402000)]
    0x1 (0x2000, 0x10000) 0 no_prcb.

(** The handler of H1 continues execution, the other handlers continue the
    search. *)
Definition resume_then_search (routine : Z) : Verdict :=
  if routine =? 0x401000 then resume else search.

(** Three frames H1, H2 and H3. *)
Definition three_handlers_world : World :=
  sample_world 0x3000
    [(0x3000, 0x3010, 0x401000); (0x3010, 0x3020, 0x402000); (0x3020, 0xFFFFFFFF, 0x403000)]
    0 (0x2000, 0x10000) 0 no_prcb.

(** The handler of H1 returns ExceptionNestedException and names H3, the
    handler of H2 continues the search, the handler of H3 continues
    execution. *)
Definition nested_script (routine : Z) : Verdict :=
  if routine =? 0x401000
  then {| disposition := ExceptionNestedException; names := Some 0x3020; raises := 0 |}
  else if routine =? 0x402000 then search else resume.

(** The handler of H1 returns ExceptionCollidedUnwind and names H2, the
    other handlers continue the search. *)
Definition collided_script (routine : Z) : Verdict :=
  if routine =? 0x401000
  then {| disposition := ExceptionCollidedUnwind; names := Some 0x3010; raises := 0 |}
  else search.

(** The handler of H1 continues the search, the other handlers continue
    execution. *)
Definition search_then_resume (routine : Z) : Verdict :=
  if routine =? 0x401000 then search else resume.

(** The head of the chain is unaligned and below the stack limits. *)
Definition unaligned_head_world : World :=
  sample_world 0x1001 [(0x1001, 0xFFFFFFFF, 0x401000)] 0 (0x2000, 0x10000) 0 no_prcb.

(** A chain that is empty. *)
Definition empty_chain_world : World :=
  sample_world 0xFFFFFFFF [] 0 (0x2000, 0x10000) 0 no_prcb.

(** The one-frame chain with a function table registered for the image of
    its handler: the table holds the single entry 0x2000, and the handler,
    biased by the image base 0x400000, is 0x1000. *)
Definition unregistered_handler_world : World :=
  with_table (one_handler_world 0) 0x7000 0x400000 [0x2000] [].

(** A table of one entry, 0x1000, registered for the image at 0x400000,
    and followed in memory by a ULONG that holds 0x2000. *)
Definition past_table_world : World :=
  with_table (one_handler_world 0) 0x7000 0x400000 [0x1000] [0x2000].

(** The same table followed by a ULONG that holds 0. *)
Definition past_table_world_zero : World :=
  with_table (one_handler_world 0) 0x7000 0x400000 [0x1000] [0].

(** The state [w] with the answer of [RtlLookupFunctionTable] replaced by
    the table at [FunctionTable] of length [Length] for the image at [Base],
    for every handler. *)
Definition with_lookup (w : World) (FunctionTable Base Length : Z) : World := {|
  ExceptionRecords := ExceptionRecords w;
  RegistrationRecords := RegistrationRecords w;
  MemoryUlong := MemoryUlong w;
  NtGlobalFlag := NtGlobalFlag w;
  KeGetCurrentIrql := KeGetCurrentIrql w;
  KeGetCurrentPrcb := KeGetCurrentPrcb w;
  RtlpGetStackLimits := RtlpGetStackLimits w;
  RtlpGetRegistrationHead := RtlpGetRegistrationHead w;
  RtlLookupFunctionTable := fun _ => (FunctionTable, Base, Length)
|}.

(** The answer of [RtlLookupFunctionTable] for an image that should have
    no handlers. *)
Definition no_handlers_world : World :=
  with_lookup (one_handler_world 0) 0xFFFFFFFF 0x400000 0xFFFFFFFF.

(** The table [0x1000] at 0x7000, registered with a length whose top bit is
    set. *)
Definition signed_length_world : World :=
  with_lookup past_table_world 0x7000 0x400000 0x80000001.

(** A table of three entries sorted ascending, registered for the image
    at 0x400000. *)
Definition three_entries_world : World :=
  with_table (one_handler_world 0) 0x7000 0x400000 [0x1000; 0x2000; 0x3000] [].

(** A DPC routine is active at DISPATCH_LEVEL; the head of the chain lies
    on the DPC stack, whose top is 0x80004000, and its successor lies on
    the thread's stack, between the limits the run starts with. *)
Definition dpc_world : World :=
  sample_world 0x80003000
    [(0x80003000, 0x3000, 0x401000); (0x3000, 0xFFFFFFFF, 0x402000)]
    0 (0x2000, 0x10000) 2 {| DpcStack := 0x80004000; DpcRoutineActive := true |}.

(** A DPC routine is active at DISPATCH_LEVEL and the run starts with the
    limits of the thread's stack; the head of the chain lies within
    KERNEL_STACK_SIZE below the top of the DPC stack and is not 4-byte
    aligned. *)
Definition unaligned_head_dpc_world : World :=
  sample_world 0x80003002 [(0x80003002, 0xFFFFFFFF, 0x401000)]
    0 (0x2000, 0x10000) 2 {| DpcStack := 0x80004000; DpcRoutineActive := true |}.

(** A handler that ORs the bit 0x40 into the exception flags and continues
    the search. *)
Definition marking : Verdict :=
  {| disposition := ExceptionContinueSearch; names := None; raises := 0x40 |}.

(** * Properties *)

(** ** Flags *)

Lemma get_set_ExceptionFlags (w : World) (p v : Z) :
  get_ExceptionFlags (set_ExceptionFlags w p v) p = v.
Proof.
  unfold get_ExceptionFlags, set_ExceptionFlags; simpl.
  now rewrite Z.eqb_refl.
Qed.

Lemma land_lor_same (f b : Z) : Z.land (Z.lor f b) b = b.
Proof.
  apply Z.bits_inj'; intros n Hn.
  rewrite Z.land_spec, Z.lor_spec.
  destruct (Z.testbit f n), (Z.testbit b n); reflexivity.
Qed.

Lemma flag_set_lor (f b : Z) : b <> 0 -> flag_set (Z.lor f b) b = true.
Proof.
  intros Hb; unfold flag_set.
  rewrite land_lor_same.
  apply Z.eqb_neq in Hb; now rewrite Hb.
Qed.

Lemma testbit_ULONG (z n : Z) :
  0 <= n -> Z.testbit (ULONG z) n = (n <? 32) && Z.testbit z n.
Proof.
  intros Hn; unfold ULONG.
  destruct (Z.ltb_spec n 32).
  - now rewrite Z.mod_pow2_bits_low by lia.
  - now rewrite Z.mod_pow2_bits_high by lia.
Qed.

Lemma land_clear_same (f b : Z) : Z.land (Z.land f (ULONG (Z.lnot b))) b = 0.
Proof.
  apply Z.bits_inj'; intros n Hn.
  rewrite !Z.land_spec, testbit_ULONG, Z.lnot_spec, Z.bits_0 by assumption.
  destruct (Z.testbit f n), (Z.testbit b n), (n <? 32); reflexivity.
Qed.

Lemma flag_set_clear (f b : Z) : flag_set (Z.land f (ULONG (Z.lnot b))) b = false.
Proof.
  unfold flag_set; now rewrite land_clear_same.
Qed.

(** Clearing one flag leaves a flag with no bit in common as it was,
    when that flag fits a ULONG. *)
Lemma flag_set_clear_other (f b c : Z) :
  0 <= c < 2 ^ 32 -> Z.land b c = 0 ->
  flag_set (Z.land f (ULONG (Z.lnot b))) c = flag_set f c.
Proof.
  intros Hc Hbc; unfold flag_set; f_equal; f_equal.
  apply Z.bits_inj'; intros n Hn.
  rewrite !Z.land_spec, testbit_ULONG, Z.lnot_spec by assumption.
  assert (Hb : Z.testbit b n && Z.testbit c n = false).
  { rewrite <- Z.land_spec, Hbc; apply Z.bits_0. }
  destruct (Z.ltb_spec n 32) as [Hlt | Hge].
  - destruct (Z.testbit f n), (Z.testbit b n), (Z.testbit c n);
      simpl in *; congruence.
  - assert (Z.testbit c n = false) as ->; [ | now rewrite !andb_false_r ].
    destruct (Z.eq_dec c 0) as [-> | Hnz]; [ apply Z.bits_0 | ].
    apply Z.bits_above_log2; [ lia | ].
    apply Z.log2_lt_pow2; [ lia | ].
    apply Z.lt_le_trans with (2 ^ 32); [ lia | apply Z.pow_le_mono_r; lia ].
Qed.

(** ** The dispatcher *)

Ltac case_flag :=
  match goal with
  | |- context [if flag_set ?f ?b then _ else _] => destruct (flag_set f b) eqn:?
  end.

Ltac case_raise :=
  match goal with
  | |- context [RtlRaiseException ?w ?r] =>
      destruct (RtlRaiseException w r) as [[? ?] | ] eqn:?
  end.

Section DispatchProperties.
Context {headers : NtHeaders} {externals : Externals}.
Variables (fuel : nat) (record context : Z).

Lemma call_handler_locals (w : World) (l : Dispatch.Locals) :
  let l' := snd (Dispatch.call_handler record context w l) in
  Dispatch.RegistrationPointer l' = Dispatch.RegistrationPointer l
  /\ Dispatch.NestedRegistration l' = Dispatch.NestedRegistration l
  /\ Dispatch.LowLimit l' = Dispatch.LowLimit l
  /\ Dispatch.HighLimit l' = Dispatch.HighLimit l.
Proof.
  unfold Dispatch.call_handler.
  destruct (if flag_set _ _ then _ else _) as [i w1].
  destruct (RtlpExecuteHandlerForException _ _ _ _ _ _) as [[d w2] dc].
  simpl; auto.
Qed.

Lemma leave_nested_locals (w : World) (l : Dispatch.Locals) :
  let l' := snd (Dispatch.leave_nested record w l) in
  Dispatch.RegistrationPointer l' = Dispatch.RegistrationPointer l
  /\ Dispatch.LowLimit l' = Dispatch.LowLimit l
  /\ Dispatch.HighLimit l' = Dispatch.HighLimit l
  /\ Dispatch.DispatcherContext l' = Dispatch.DispatcherContext l.
Proof.
  unfold Dispatch.leave_nested.
  destruct (_ =? _); simpl; auto.
Qed.

(** The switch leaves the loop with [Completion] false only with the
    stack-invalid flag set. *)
Lemma dispose_return_false (evs : list Event) (w : World) (l : Dispatch.Locals)
    (d : EXCEPTION_DISPOSITION) (evs' : list Event) (w' : World) (l' : Dispatch.Locals) :
  Dispatch.dispose record evs w l d = Dispatch.Done evs' w' l' (Dispatch.Return false) ->
  flag_set (get_ExceptionFlags w' record) EXCEPTION_STACK_INVALID = true.
Proof.
  unfold Dispatch.dispose, Dispatch.raise, Dispatch.continue_search, Dispatch.advance.
  destruct d; repeat first [ case_raise | case_flag ]; try discriminate;
    intros [= <- <- <-]; assumption.
Qed.

(** When the switch goes on to the next frame, the registration pointer
    moves to the [Next] field of the frame, and the limits stay. *)
Lemma dispose_again (evs : list Event) (w : World) (l : Dispatch.Locals)
    (d : EXCEPTION_DISPOSITION) (evs' : list Event) (w' : World) (l' : Dispatch.Locals) :
  Dispatch.dispose record evs w l d = Dispatch.Again evs' w' l' ->
  Dispatch.RegistrationPointer l'
    = Next (RegistrationRecords w' (Dispatch.RegistrationPointer l))
  /\ Dispatch.LowLimit l' = Dispatch.LowLimit l
  /\ Dispatch.HighLimit l' = Dispatch.HighLimit l.
Proof.
  unfold Dispatch.dispose, Dispatch.raise, Dispatch.continue_search, Dispatch.advance.
  destruct d; repeat first [ case_raise | case_flag ]; try discriminate;
    try (intros [= <- <- <-]; simpl; auto).
  destruct (_ >? _); auto.
Qed.

(** A pass that leaves the loop with [Completion] false leaves the
    stack-invalid flag set or stands at the end of the chain. *)
Lemma iteration_return_false (w : World) (l : Dispatch.Locals)
    (evs : list Event) (w' : World) (l' : Dispatch.Locals) :
  EXCEPTION_STACK_INVALID <> 0 ->
  Dispatch.iteration fuel record context w l
    = Some (Dispatch.Done evs w' l' (Dispatch.Return false)) ->
  flag_set (get_ExceptionFlags w' record) EXCEPTION_STACK_INVALID = true
  \/ Dispatch.RegistrationPointer l' = EXCEPTION_CHAIN_END.
Proof.
  intros Hbit; unfold Dispatch.iteration.
  destruct (Z.eqb_spec (Dispatch.RegistrationPointer l) EXCEPTION_CHAIN_END) as [Hend | Hreg].
  { intros [= <- <- <-]; now right. }
  destruct (frame_fails _ _ _).
  { destruct (on_DpcStack _ _); [ discriminate | ].
    intros [= <- <- <-]; left.
    unfold or_ExceptionFlags; rewrite get_set_ExceptionFlags.
    now apply flag_set_lor. }
  destruct (RtlIsValidHandler _ _ _) as [[ | ] | ]; [ | | discriminate ].
  - destruct (Dispatch.call_handler _ _ _ _) as [[[routine d] w1] l1].
    destruct (Dispatch.leave_nested _ _ _) as [w2 l2].
    intros [= Hd]; left; eapply dispose_return_false; eauto.
  - intros [= <- <- <-]; left.
    unfold or_ExceptionFlags; rewrite get_set_ExceptionFlags.
    now apply flag_set_lor.
Qed.

(** A pass that goes back to the loop test either switched the limits to
    the DPC stack and kept the registration pointer, or moved the pointer
    to the [Next] field of the frame it examined. *)
Lemma iteration_again_next (w : World) (l : Dispatch.Locals)
    (evs : list Event) (w' : World) (l' : Dispatch.Locals) :
  Dispatch.iteration fuel record context w l = Some (Dispatch.Again evs w' l') ->
  Dispatch.RegistrationPointer l' = Dispatch.RegistrationPointer l
  \/ Dispatch.RegistrationPointer l'
     = Next (RegistrationRecords w' (Dispatch.RegistrationPointer l)).
Proof.
  unfold Dispatch.iteration.
  destruct (_ =? EXCEPTION_CHAIN_END); [ discriminate | ].
  destruct (frame_fails _ _ _).
  { destruct (on_DpcStack _ _); [ | discriminate ].
    intros [= <- <- <-]; now left. }
  destruct (RtlIsValidHandler _ _ _) as [[ | ] | ]; try discriminate.
  pose proof (call_handler_locals w l) as Hc.
  destruct (Dispatch.call_handler _ _ _ _) as [[[routine d] w1] l1].
  pose proof (leave_nested_locals w1 l1) as Hn.
  destruct (Dispatch.leave_nested _ _ _) as [w2 l2].
  simpl in Hc, Hn.
  destruct Hc as (Hc & _), Hn as (Hn & _).
  intros [= Hd]; right.
  apply dispose_again in Hd as (Hd & _); congruence.
Qed.

Lemma loop_return_false (n : nat) (w : World) (l : Dispatch.Locals) :
  EXCEPTION_STACK_INVALID <> 0 ->
  Dispatch.exit (Dispatch.loop n fuel record context w l)
    = Some (Dispatch.Return false) ->
  flag_set (get_ExceptionFlags
              (Dispatch.world (Dispatch.loop n fuel record context w l)) record)
    EXCEPTION_STACK_INVALID = true
  \/ Dispatch.RegistrationPointer
       (Dispatch.locals (Dispatch.loop n fuel record context w l))
     = EXCEPTION_CHAIN_END.
Proof.
  intros Hbit; revert w l.
  induction n as [ | n IH]; intros w l; simpl; [ discriminate | ].
  destruct (Dispatch.iteration fuel record context w l) as [[evs w' l' | evs w' l' e] | ] eqn:Hit;
    simpl; [ apply IH | | discriminate ].
  intros [= ->].
  eapply iteration_return_false; eauto.
Qed.

(** The pass over a frame that passes the stack test and whose handler
    passes the validator: the handler is called, then the nested context is
    left if the frame ends it, then the disposition is dispatched. *)
Lemma iteration_calls_handler (w : World) (l : Dispatch.Locals)
    (routine : Z) (d : EXCEPTION_DISPOSITION) (w1 : World) (l1 : Dispatch.Locals) :
  Dispatch.RegistrationPointer l <> EXCEPTION_CHAIN_END ->
  frame_fails (Dispatch.RegistrationPointer l) (Dispatch.LowLimit l) (Dispatch.HighLimit l)
    = false ->
  RtlIsValidHandler fuel w (Handler (RegistrationRecords w (Dispatch.RegistrationPointer l)))
    = Some true ->
  Dispatch.call_handler record context w l = (routine, d, w1, l1) ->
  Dispatch.iteration fuel record context w l
  = Some (Dispatch.dispose record
            [ExecuteHandlerForException (Dispatch.RegistrationPointer l) routine]
            (fst (Dispatch.leave_nested record w1 l1))
            (snd (Dispatch.leave_nested record w1 l1)) d).
Proof.
  intros Hreg Hframe Hvalid Hcall; unfold Dispatch.iteration.
  apply Z.eqb_neq in Hreg; rewrite Hreg, Hframe, Hvalid, Hcall.
  now destruct (Dispatch.leave_nested record w1 l1).
Qed.

Lemma leave_nested_flags_other (w : World) (l : Dispatch.Locals) (bit : Z) :
  0 <= bit < 2 ^ 32 -> Z.land EXCEPTION_NESTED_CALL bit = 0 ->
  flag_set (get_ExceptionFlags (fst (Dispatch.leave_nested record w l)) record) bit
  = flag_set (get_ExceptionFlags w record) bit.
Proof.
  intros Hbit Hdisj; unfold Dispatch.leave_nested.
  destruct (_ =? _); simpl; [ | reflexivity ].
  unfold clear_ExceptionFlags; rewrite get_set_ExceptionFlags.
  now apply flag_set_clear_other.
Qed.

(** A pass that leaves the loop ends the run with the events of the pass. *)
Lemma loop_done (n : nat) (w : World) (l : Dispatch.Locals)
    (evs : list Event) (w' : World) (l' : Dispatch.Locals) (e : Dispatch.Exit) :
  Dispatch.iteration fuel record context w l = Some (Dispatch.Done evs w' l' e) ->
  Dispatch.loop (S n) fuel record context w l
  = {| Dispatch.events := evs; Dispatch.world := w'; Dispatch.locals := l';
       Dispatch.exit := Some e |}.
Proof.
  intros Hit; simpl; now rewrite Hit.
Qed.

End DispatchProperties.

(** C1: whenever RtlDispatchException returns false, the stack-invalid flag
    is set in the exception record's flags at the return, or the
    registration pointer stands at EXCEPTION_CHAIN_END; and the pointer
    only ever moves from a frame to that frame's [Next] link (a pass that
    switches to the DPC stack keeps it), so the end of the chain is reached
    through next links. *)
Theorem C1_false_return_flag_or_chain_end
    (headers : NtHeaders) (externals : Externals)
    (fuel : nat) (record context : Z) (w : World) (stack : Dispatch.Locals) :
  EXCEPTION_STACK_INVALID <> 0 ->
  (Dispatch.exit (RtlDispatchException fuel record context w stack)
     = Some (Dispatch.Return false) ->
   flag_set (get_ExceptionFlags
               (Dispatch.world (RtlDispatchException fuel record context w stack)) record)
     EXCEPTION_STACK_INVALID = true
   \/ Dispatch.RegistrationPointer
        (Dispatch.locals (RtlDispatchException fuel record context w stack))
      = EXCEPTION_CHAIN_END)
  /\ (forall w0 l0 evs w1 l1,
        Dispatch.iteration fuel record context w0 l0 = Some (Dispatch.Again evs w1 l1) ->
        Dispatch.RegistrationPointer l1 = Dispatch.RegistrationPointer l0
        \/ Dispatch.RegistrationPointer l1
           = Next (RegistrationRecords w1 (Dispatch.RegistrationPointer l0))).
Proof.
  intros Hbit; split.
  - unfold RtlDispatchException; now apply loop_return_false.
  - intros w0 l0 evs w1 l1; apply iteration_again_next.
Qed.

Lemma C1_witness :
  let r := @RtlDispatchException i386_headers (scripted (fun _ => resume)) 5
             0x5000 0x6000 bad_head_world sample_stack in
  Dispatch.events r = []
  /\ Dispatch.exit r = Some (Dispatch.Return false)
  /\ (flag_set (get_ExceptionFlags (Dispatch.world r) 0x5000) 0x8 = true
      \/ Dispatch.RegistrationPointer (Dispatch.locals r) = 0xFFFFFFFF).
Proof.
  split; [ reflexivity | split; [ reflexivity | ] ].
  apply (C1_false_return_flag_or_chain_end i386_headers (scripted (fun _ => resume)) 5
           0x5000 0x6000 bad_head_world sample_stack);
    [ discriminate | reflexivity ].
Defined.

(** C6: a handler called by the dispatcher returns ExceptionContinueExecution.
    If the noncontinuable flag is set in the exception record when the call
    comes back, the dispatcher calls RtlRaiseException on a fresh record
    with code STATUS_NONCONTINUABLE_EXCEPTION, flags EXCEPTION_NONCONTINUABLE,
    no parameters and the current record as its inner record, and the run
    ends in that call when it does not come back; if the flag is clear, the
    run ends there with the return of true, this handler being the last one
    called. *)
Theorem C6_continue_execution
    (headers : NtHeaders) (externals : Externals)
    (n fuel : nat) (record context : Z) (w : World) (l : Dispatch.Locals)
    (routine : Z) (w1 : World) (l1 : Dispatch.Locals) :
  0 <= EXCEPTION_NONCONTINUABLE < 2 ^ 32 ->
  Z.land EXCEPTION_NESTED_CALL EXCEPTION_NONCONTINUABLE = 0 ->
  Dispatch.RegistrationPointer l <> EXCEPTION_CHAIN_END ->
  frame_fails (Dispatch.RegistrationPointer l) (Dispatch.LowLimit l) (Dispatch.HighLimit l)
    = false ->
  RtlIsValidHandler fuel w (Handler (RegistrationRecords w (Dispatch.RegistrationPointer l)))
    = Some true ->
  Dispatch.call_handler record context w l
    = (routine, ExceptionContinueExecution, w1, l1) ->
  let called := ExecuteHandlerForException (Dispatch.RegistrationPointer l) routine in
  let w2 := fst (Dispatch.leave_nested record w1 l1) in
  let l2 := snd (Dispatch.leave_nested record w1 l1) in
  let fresh := {| ExceptionCode := STATUS_NONCONTINUABLE_EXCEPTION;
                  ExceptionFlags := EXCEPTION_NONCONTINUABLE;
                  ExceptionRecord := record;
                  ExceptionAddress := ExceptionAddress (Dispatch.ExceptionRecord1 l);
                  NumberParameters := 0 |} in
  (flag_set (get_ExceptionFlags w1 record) EXCEPTION_NONCONTINUABLE = true ->
   option_map (fun s => firstn 2 (Dispatch.step_events s))
     (Dispatch.iteration fuel record context w l)
   = Some [called; CallRtlRaiseException fresh]
   /\ (RtlRaiseException w2 fresh = None ->
       Dispatch.loop (S n) fuel record context w l
       = {| Dispatch.events := [called; CallRtlRaiseException fresh];
            Dispatch.world := w2;
            Dispatch.locals := Dispatch.set_ExceptionRecord1 l2 fresh;
            Dispatch.exit := Some Dispatch.NoReturn |}))
  /\ (flag_set (get_ExceptionFlags w1 record) EXCEPTION_NONCONTINUABLE = false ->
      Dispatch.loop (S n) fuel record context w l
      = {| Dispatch.events := [called]; Dispatch.world := w2; Dispatch.locals := l2;
           Dispatch.exit := Some (Dispatch.Return true) |}).
Proof.
  intros Hrange Hdisj Hreg Hframe Hvalid Hcall called w2 l2 fresh.
  pose proof (iteration_calls_handler fuel record context w l routine _ w1 l1
                Hreg Hframe Hvalid Hcall) as Hit.
  pose proof (leave_nested_flags_other record w1 l1 _ Hrange Hdisj) as Hflag.
  fold w2 l2 called in Hit; fold w2 in Hflag.
  assert (Hl2 : Dispatch.ExceptionRecord1 l2 = Dispatch.ExceptionRecord1 l).
  { subst l2. unfold Dispatch.leave_nested.
    assert (Dispatch.ExceptionRecord1 l1 = Dispatch.ExceptionRecord1 l) as <-.
    { revert Hcall; unfold Dispatch.call_handler.
      destruct (if flag_set _ _ then _ else _) as [i wa].
      destruct (RtlpExecuteHandlerForException _ _ _ _ _ _) as [[d wb] dc].
      intros [= _ _ _ <-]. reflexivity. }
    destruct (_ =? _); reflexivity. }
  unfold Dispatch.dispose, Dispatch.raise, Dispatch.fresh_record in Hit.
  rewrite Hflag, Hl2 in Hit; fold fresh in Hit.
  split; intros Hset; rewrite Hset in Hit.
  - split.
    + rewrite Hit; simpl.
      destruct (RtlRaiseException w2 fresh) as [[w3 r3] | ]; [ | reflexivity ].
      unfold Dispatch.continue_search, Dispatch.advance.
      destruct (flag_set (get_ExceptionFlags w3 record) EXCEPTION_STACK_INVALID);
        reflexivity.
    + intros Hgone; rewrite Hgone in Hit.
      now apply loop_done.
  - now apply loop_done.
Qed.

Lemma C6_witness :
  let r := @RtlDispatchException i386_headers (scripted (fun _ => resume)) 5
             0x5000 0x6000 (one_handler_world 0x1) sample_stack in
  Dispatch.events r
  = [ExecuteHandlerForException 0x3000 0x401000;
     CallRtlRaiseException
       {| ExceptionCode := 0xC0000025; ExceptionFlags := 0x1;
          ExceptionRecord := 0x5000; ExceptionAddress := 0;
          NumberParameters := 0 |}]
  /\ Dispatch.exit r = Some Dispatch.NoReturn.
Proof.
  edestruct (C6_continue_execution i386_headers (scripted (fun _ => resume)) 4 5
               0x5000 0x6000 (one_handler_world 0x1)
               (@Dispatch.entry (one_handler_world 0x1) sample_stack) 0x401000)
    as [Hraise _].
  - simpl; lia.
  - reflexivity.
  - discriminate.
  - reflexivity.
  - reflexivity.
  - reflexivity.
  - destruct (Hraise eq_refl) as [_ Hgone].
    specialize (Hgone eq_refl).
    split; [ exact (f_equal Dispatch.events Hgone) | exact (f_equal Dispatch.exit Hgone) ].
Defined.

(** C5: in the dispatcher, the nested-call flag is cleared and the tracked
    nested registration reset right after the call of the handler whose
    frame is the tracked registration, before the disposition is
    dispatched; for any other frame both are left as the call left them.
    A NestedException disposition sets the nested-call flag, and replaces
    the tracked registration by the pointer the handler supplied only when
    that pointer is strictly greater than the tracked one. *)
Theorem C5_nested_registration_tracking
    (headers : NtHeaders) (externals : Externals)
    (fuel : nat) (record context : Z) (w : World) (l : Dispatch.Locals)
    (routine : Z) (d : EXCEPTION_DISPOSITION) (w1 : World) (l1 : Dispatch.Locals) :
  EXCEPTION_NESTED_CALL <> 0 ->
  Dispatch.RegistrationPointer l <> EXCEPTION_CHAIN_END ->
  frame_fails (Dispatch.RegistrationPointer l) (Dispatch.LowLimit l) (Dispatch.HighLimit l)
    = false ->
  RtlIsValidHandler fuel w (Handler (RegistrationRecords w (Dispatch.RegistrationPointer l)))
    = Some true ->
  Dispatch.call_handler record context w l = (routine, d, w1, l1) ->
  let called := [ExecuteHandlerForException (Dispatch.RegistrationPointer l) routine] in
  let w2 := fst (Dispatch.leave_nested record w1 l1) in
  let l2 := snd (Dispatch.leave_nested record w1 l1) in
  let w3 := or_ExceptionFlags w2 record EXCEPTION_NESTED_CALL in
  let named := DISPATCHER_CONTEXT.RegistrationPointer (Dispatch.DispatcherContext l2) in
  let tracked := if named >? Dispatch.NestedRegistration l2
                 then named else Dispatch.NestedRegistration l2 in
  Dispatch.iteration fuel record context w l
    = Some (Dispatch.dispose record called w2 l2 d)
  /\ (Dispatch.NestedRegistration l = Dispatch.RegistrationPointer l ->
      flag_set (get_ExceptionFlags w2 record) EXCEPTION_NESTED_CALL = false
      /\ Dispatch.NestedRegistration l2 = 0)
  /\ (Dispatch.NestedRegistration l <> Dispatch.RegistrationPointer l ->
      w2 = w1 /\ l2 = l1 /\ Dispatch.NestedRegistration l2 = Dispatch.NestedRegistration l)
  /\ Dispatch.dispose record called w2 l2 ExceptionNestedException
     = Dispatch.Again called w3
         (Dispatch.set_RegistrationPointer (Dispatch.set_NestedRegistration l2 tracked)
            (Next (RegistrationRecords w3 (Dispatch.RegistrationPointer l))))
  /\ flag_set (get_ExceptionFlags w3 record) EXCEPTION_NESTED_CALL = true
  /\ (Dispatch.NestedRegistration l2 < named -> tracked = named)
  /\ (named <= Dispatch.NestedRegistration l2 -> tracked = Dispatch.NestedRegistration l2).
Proof.
  intros Hbit Hreg Hframe Hvalid Hcall called w2 l2 w3 named tracked.
  pose proof (call_handler_locals record context w l) as Hc.
  rewrite Hcall in Hc; simpl in Hc; destruct Hc as (Hc1 & Hc2 & _).
  pose proof (leave_nested_locals record w1 l1) as Hn.
  simpl in Hn; fold l2 in Hn; destruct Hn as (Hn1 & _).
  split; [ now apply iteration_calls_handler | ].
  split; [ | split ].
  - intros Heq; subst w2 l2; unfold Dispatch.leave_nested.
    rewrite Hc1, Hc2, Heq, Z.eqb_refl; simpl.
    unfold clear_ExceptionFlags; rewrite get_set_ExceptionFlags.
    split; [ apply flag_set_clear | reflexivity ].
  - intros Hneq; subst w2 l2; unfold Dispatch.leave_nested.
    rewrite Hc1, Hc2.
    apply Z.eqb_neq in Hneq; rewrite Hneq; simpl; auto.
  - split; [ | split; [ | split ] ].
    + unfold Dispatch.dispose, Dispatch.advance.
      fold named w3; subst tracked.
      rewrite <- Hc1, <- Hn1.
      destruct (named >? Dispatch.NestedRegistration l2); [ reflexivity | ].
      now destruct l2.
    + subst w3; unfold or_ExceptionFlags; rewrite get_set_ExceptionFlags.
      now apply flag_set_lor.
    + intros Hlt; subst tracked.
      destruct (Z.gtb_spec named (Dispatch.NestedRegistration l2)); [ reflexivity | lia ].
    + intros Hle; subst tracked.
      destruct (Z.gtb_spec named (Dispatch.NestedRegistration l2)); [ lia | reflexivity ].
Qed.

Lemma C5_witness :
  let after k := @Dispatch.loop i386_headers (scripted nested_script) k 5 0x5000 0x6000
                   three_handlers_world
                   (@Dispatch.entry three_handlers_world sample_stack) in
  let nested_call r := flag_set (get_ExceptionFlags (Dispatch.world r) 0x5000) 0x10 in
  (nested_call (after 1%nat) = true
   /\ Dispatch.NestedRegistration (Dispatch.locals (after 1%nat)) = 0x3020)
  /\ (nested_call (after 2%nat) = true
      /\ Dispatch.NestedRegistration (Dispatch.locals (after 2%nat)) = 0x3020)
  /\ nested_call (after 3%nat) = false
  /\ Dispatch.NestedRegistration (Dispatch.locals (after 3%nat)) = 0
  /\ Dispatch.events (after 3%nat)
     = [ExecuteHandlerForException 0x3000 0x401000;
        ExecuteHandlerForException 0x3010 0x402000;
        ExecuteHandlerForException 0x3020 0x403000]
  /\ Dispatch.exit (after 3%nat) = Some (Dispatch.Return true).
Proof.
  intros after nested_call.
  split; [ | repeat split; reflexivity ].
  edestruct (C5_nested_registration_tracking i386_headers (scripted nested_script) 5
               0x5000 0x6000 three_handlers_world
               (@Dispatch.entry three_handlers_world sample_stack)
               0x401000 ExceptionNestedException)
    as (_ & _ & _ & _ & Hset & Hnamed & _).
  - discriminate.
  - discriminate.
  - reflexivity.
  - reflexivity.
  - reflexivity.
  - split; [ exact Hset | reflexivity ].
Defined.

(** ** The unwind *)

Section UnwindProperties.
Context {headers : NtHeaders} {externals : Externals}.
Variables (target record : Z).

Lemma unwind_call_handler_locals (w : World) (l : Unwind.Locals) :
  let l' := snd (Unwind.call_handler record w l) in
  Unwind.RegistrationPointer l' = Unwind.RegistrationPointer l
  /\ Unwind.LowLimit l' = Unwind.LowLimit l
  /\ Unwind.HighLimit l' = Unwind.HighLimit l
  /\ Unwind.ExceptionRecord2 l' = Unwind.ExceptionRecord2 l.
Proof.
  unfold Unwind.call_handler.
  destruct (RtlpExecuteHandlerForUnwind _ _ _ _ _ _) as [[[d w1] c] dc].
  simpl; auto.
Qed.

Lemma unwind_call_handler_routine (w : World) (l : Unwind.Locals) :
  fst (fst (fst (Unwind.call_handler record w l)))
  = Handler (RegistrationRecords w (Unwind.RegistrationPointer l)).
Proof.
  unfold Unwind.call_handler.
  now destruct (RtlpExecuteHandlerForUnwind _ _ _ _ _ _) as [[[d w1] c] dc].
Qed.

Lemma raise_extends (evs : list Event) (w : World) (l : Unwind.Locals) (Code : Z)
    (back : list Event -> World -> Unwind.Locals -> Unwind.Step) :
  (forall evs' w' l', extends evs' (back evs' w' l')) ->
  extends (evs ++ [CallRtlRaiseException (Unwind.fresh_record l Code record)])
    (Unwind.raise evs w l Code record back).
Proof.
  intros Hback; unfold Unwind.raise.
  destruct (RtlRaiseException _ _) as [[w' r'] | ]; [ apply Hback | ].
  exists []; simpl; now rewrite app_nil_r.
Qed.

Lemma continue_extends (evs : list Event) (w : World) (l : Unwind.Locals)
    (back : list Event -> World -> Unwind.Locals -> Unwind.Step) :
  (forall evs' w' l', extends evs' (back evs' w' l')) ->
  extends (evs ++ [CallZwContinue (Unwind.ContextRecord1 l) false])
    (Unwind.continue evs w l back).
Proof.
  intros Hback; unfold Unwind.continue.
  destruct (ZwContinue _ _ _) as [[w' c'] | ]; [ apply Hback | ].
  exists []; simpl; now rewrite app_nil_r.
Qed.

Lemma extends_more (evs more : list Event) (s : Unwind.Step) :
  extends (evs ++ more) s -> extends evs s.
Proof.
  intros (tail & Htail); exists (more ++ tail).
  now rewrite Htail, app_assoc.
Qed.

Lemma next_record_extends (evs : list Event) (w : World) (l : Unwind.Locals) :
  extends evs (Unwind.next_record evs w l).
Proof.
  now exists [UnlinkHandler (Unwind.RegistrationPointer l)].
Qed.

Lemma dispose_extends (evs : list Event) (w : World) (l : Unwind.Locals)
    (d : EXCEPTION_DISPOSITION) :
  extends evs (Unwind.dispose record evs w l d).
Proof.
  unfold Unwind.dispose.
  destruct d; try apply next_record_extends;
    eapply extends_more, raise_extends; intros; apply next_record_extends.
Qed.

Lemma examine_frame_extends (evs : list Event) (w : World) (l : Unwind.Locals) :
  extends evs (Unwind.examine_frame record evs w l).
Proof.
  unfold Unwind.examine_frame.
  destruct (frame_fails _ _ _).
  - destruct (on_DpcStack _ _).
    + now eexists.
    + eapply extends_more, raise_extends.
      intros evs' w' l'; exists []; simpl; now rewrite app_nil_r.
  - destruct (Unwind.call_handler record w l) as [[[routine d] w1] l1].
    eapply extends_more, dispose_extends.
Qed.

(** The pass over a frame that passes the stack test: its handler is
    called and the disposition dispatched. *)
Lemma examine_frame_calls_handler (evs : list Event) (w : World) (l : Unwind.Locals)
    (routine : Z) (d : EXCEPTION_DISPOSITION) (w1 : World) (l1 : Unwind.Locals) :
  frame_fails (Unwind.RegistrationPointer l) (Unwind.LowLimit l) (Unwind.HighLimit l)
    = false ->
  Unwind.call_handler record w l = (routine, d, w1, l1) ->
  Unwind.examine_frame record evs w l
  = Unwind.dispose record
      (evs ++ [ExecuteHandlerForUnwind (Unwind.RegistrationPointer l) routine]) w1 l1 d.
Proof.
  intros Hframe Hcall; unfold Unwind.examine_frame.
  now rewrite Hframe, Hcall.
Qed.

(** A frame that is not the target and does not lie above the target goes
    straight to the stack test. *)
Lemma unwind_iteration_examines (w : World) (l : Unwind.Locals) :
  Unwind.RegistrationPointer l <> EXCEPTION_CHAIN_END ->
  Unwind.RegistrationPointer l <> target ->
  (target = 0 \/ Unwind.RegistrationPointer l <= target) ->
  Unwind.iteration target record w l = Unwind.examine_frame record [] w l.
Proof.
  intros Hreg Htarget Hbelow; unfold Unwind.iteration.
  apply Z.eqb_neq in Hreg, Htarget; rewrite Hreg, Htarget.
  assert (negb (target =? 0) && (target <? Unwind.RegistrationPointer l) = false) as ->;
    [ | reflexivity ].
  destruct Hbelow as [-> | Hle]; [ reflexivity | ].
  apply andb_false_iff; right; now apply Z.ltb_ge.
Qed.

Lemma unwind_iteration_calls_handler (w : World) (l : Unwind.Locals)
    (routine : Z) (d : EXCEPTION_DISPOSITION) (w1 : World) (l1 : Unwind.Locals) :
  Unwind.RegistrationPointer l <> EXCEPTION_CHAIN_END ->
  Unwind.RegistrationPointer l <> target ->
  (target = 0 \/ Unwind.RegistrationPointer l <= target) ->
  frame_fails (Unwind.RegistrationPointer l) (Unwind.LowLimit l) (Unwind.HighLimit l)
    = false ->
  Unwind.call_handler record w l = (routine, d, w1, l1) ->
  Unwind.iteration target record w l
  = Unwind.dispose record [ExecuteHandlerForUnwind (Unwind.RegistrationPointer l) routine]
      w1 l1 d.
Proof.
  intros Hreg Htarget Hbelow Hframe Hcall.
  rewrite unwind_iteration_examines by assumption.
  now rewrite (examine_frame_calls_handler [] w l routine d w1 l1).
Qed.

Lemma unwind_loop_done (n : nat) (w : World) (l : Unwind.Locals)
    (evs : list Event) (w' : World) (l' : Unwind.Locals) (e : Unwind.Exit) :
  Unwind.iteration target record w l = Unwind.Done evs w' l' e ->
  Unwind.loop (S n) target record w l
  = {| Unwind.events := evs; Unwind.world := w'; Unwind.locals := l';
       Unwind.exit := Some e |}.
Proof.
  intros Hit; simpl; now rewrite Hit.
Qed.

(** The first event of a pass is the first event of any run that makes it. *)
Lemma unwind_loop_first_event (n : nat) (w : World) (l : Unwind.Locals) (e : Event) :
  hd_error (Unwind.step_events (Unwind.iteration target record w l)) = Some e ->
  hd_error (Unwind.events (Unwind.loop (S n) target record w l)) = Some e.
Proof.
  simpl.
  destruct (Unwind.iteration target record w l) as [evs w' l' | evs w' l' x]; simpl;
    [ | auto ].
  destruct evs; [ discriminate | auto ].
Qed.

(** The frame examined, a pass leaves the loop only inside a raise that
    does not come back, with the registration pointer where it was. *)
Lemma examine_frame_done (evs : list Event) (w : World) (l : Unwind.Locals)
    (evs' : list Event) (w' : World) (l' : Unwind.Locals) (e : Unwind.Exit) :
  Unwind.examine_frame record evs w l = Unwind.Done evs' w' l' e ->
  e = Unwind.NoReturn
  /\ Unwind.RegistrationPointer l' = Unwind.RegistrationPointer l.
Proof.
  unfold Unwind.examine_frame.
  destruct (frame_fails _ _ _).
  { destruct (on_DpcStack _ _); [ discriminate | ].
    unfold Unwind.raise; case_raise; [ discriminate | ].
    now intros [= <- <- <- <-]. }
  pose proof (unwind_call_handler_locals w l) as Hc.
  destruct (Unwind.call_handler record w l) as [[[routine d] w1] l1].
  simpl in Hc; destruct Hc as (Hc & _).
  unfold Unwind.dispose, Unwind.raise, Unwind.next_record.
  destruct d; try discriminate; case_raise; try discriminate;
    now intros [= <- <- <- <-].
Qed.

(** A pass that leaves the loop with the registration pointer at the end
    of the chain is the code after the loop: its only event is the system
    call. *)
Lemma unwind_iteration_done_at_end (w : World) (l : Unwind.Locals)
    (evs : list Event) (w' : World) (l' : Unwind.Locals) (e : Unwind.Exit) :
  Unwind.iteration target record w l = Unwind.Done evs w' l' e ->
  Unwind.RegistrationPointer l' = EXCEPTION_CHAIN_END ->
  evs = [if target =? EXCEPTION_CHAIN_END
         then CallZwContinue (Unwind.ContextRecord1 l) false
         else CallZwRaiseException record (Unwind.ContextRecord1 l) false].
Proof.
  unfold Unwind.iteration.
  destruct (Z.eqb_spec (Unwind.RegistrationPointer l) EXCEPTION_CHAIN_END) as [Hend | Hreg].
  { unfold Unwind.after_loop, Unwind.continue.
    destruct (target =? EXCEPTION_CHAIN_END).
    - destruct (ZwContinue _ _ _) as [[w1 c1] | ]; now intros [= <- _ _ _].
    - destruct (ZwRaiseException _ _ _ _) as [[w1 c1] | ]; now intros [= <- _ _ _]. }
  intros Hit Hend; exfalso; revert Hit.
  destruct (_ =? target).
  { unfold Unwind.continue.
    destruct (ZwContinue _ _ _) as [[w1 c1] | ].
    - intros Hit; apply examine_frame_done in Hit as (_ & Hsame).
      simpl in Hsame; congruence.
    - intros [= _ _ <- _]; contradiction. }
  destruct (negb _ && _).
  { unfold Unwind.raise; case_raise.
    - intros Hit; apply examine_frame_done in Hit as (_ & Hsame).
      simpl in Hsame; congruence.
    - intros [= _ _ <- _]; contradiction. }
  intros Hit; apply examine_frame_done in Hit as (_ & Hsame); congruence.
Qed.

(** A run that ends with the chain exhausted ends with the system call. *)
Lemma unwind_loop_exhausted (n : nat) (w : World) (l : Unwind.Locals) (e : Unwind.Exit) :
  Unwind.exit (Unwind.loop n target record w l) = Some e ->
  Unwind.RegistrationPointer (Unwind.locals (Unwind.loop n target record w l))
    = EXCEPTION_CHAIN_END ->
  exists before c,
    Unwind.events (Unwind.loop n target record w l)
    = before ++ [if target =? EXCEPTION_CHAIN_END
                 then CallZwContinue c false
                 else CallZwRaiseException record c false].
Proof.
  revert w l; induction n as [ | n IH]; intros w l; simpl; [ discriminate | ].
  destruct (Unwind.iteration target record w l) as [evs w' l' | evs w' l' e'] eqn:Hit;
    simpl.
  - intros Hexit Hend.
    destruct (IH w' l' Hexit Hend) as (before & c & ->).
    exists (evs ++ before), c; now rewrite app_assoc.
  - intros _ Hend.
    exists [], (Unwind.ContextRecord1 l).
    rewrite (unwind_iteration_done_at_end w l evs w' l' e' Hit Hend).
    now destruct (target =? EXCEPTION_CHAIN_END).
Qed.

(** When the system calls do not come back, no run ends by the [return]
    of the last line. *)
Lemma unwind_loop_no_return (n : nat) (w : World) (l : Unwind.Locals) (e : Unwind.Exit) :
  system_calls_do_not_return externals ->
  Unwind.exit (Unwind.loop n target record w l) = Some e ->
  e = Unwind.NoReturn.
Proof.
  intros (Hcontinue & Hraise).
  revert w l; induction n as [ | n IH]; intros w l; simpl; [ discriminate | ].
  destruct (Unwind.iteration target record w l) as [evs w' l' | evs w' l' e'] eqn:Hit;
    simpl; [ apply IH | ].
  intros [= <-]; revert Hit; unfold Unwind.iteration.
  destruct (_ =? EXCEPTION_CHAIN_END).
  { unfold Unwind.after_loop, Unwind.continue.
    rewrite Hcontinue, Hraise.
    destruct (target =? EXCEPTION_CHAIN_END); now intros [= _ _ _ <-]. }
  destruct (_ =? target).
  { unfold Unwind.continue; rewrite Hcontinue; now intros [= _ _ _ <-]. }
  destruct (negb _ && _).
  { unfold Unwind.raise; case_raise.
    - intros Hit; now apply examine_frame_done in Hit.
    - now intros [= _ _ _ <-]. }
  intros Hit; now apply examine_frame_done in Hit.
Qed.

End UnwindProperties.

Lemma setup_world_head `{NtHeaders} (TargetFrame ExceptionRecord : Z) (w : World)
    (a : Unwind.Activation) :
  RtlpGetRegistrationHead (Unwind.setup_world TargetFrame ExceptionRecord w a)
  = RtlpGetRegistrationHead w.
Proof.
  unfold Unwind.setup_world.
  destruct (ExceptionRecord =? 0), (negb (TargetFrame =? 0)); reflexivity.
Qed.

(** C3: on every pass of the unwind loop the target tests come first,
    whatever the stack limits and the alignment of the frame.  If the
    registration pointer equals the target frame, the first thing the pass
    does is call ZwContinue on the context record, not alertable; the call
    not coming back, the run ends there with no handler called in that
    pass.  Otherwise, if a target frame was supplied and lies strictly below
    the registration pointer, the first thing the pass does is raise a
    record with code STATUS_INVALID_UNWIND_TARGET, flags
    EXCEPTION_NONCONTINUABLE, no parameters and the working exception record
    as inner record.  When the head of the chain is the target, the context
    continued is the adjusted context of the setup. *)
Theorem C3_target_tests_come_first
    (headers : NtHeaders) (externals : Externals)
    (n : nat) (target record : Z) (w : World) (l : Unwind.Locals) :
  Unwind.RegistrationPointer l <> EXCEPTION_CHAIN_END ->
  let resume := CallZwContinue (Unwind.ContextRecord1 l) false in
  let fresh := {| ExceptionCode := STATUS_INVALID_UNWIND_TARGET;
                  ExceptionFlags := EXCEPTION_NONCONTINUABLE;
                  ExceptionRecord := record;
                  ExceptionAddress := ExceptionAddress (Unwind.ExceptionRecord2 l);
                  NumberParameters := 0 |} in
  (Unwind.RegistrationPointer l = target ->
   hd_error (Unwind.step_events (Unwind.iteration target record w l)) = Some resume
   /\ (ZwContinue w (Unwind.ContextRecord1 l) false = None ->
       Unwind.loop (S n) target record w l
       = {| Unwind.events := [resume]; Unwind.world := w; Unwind.locals := l;
            Unwind.exit := Some Unwind.NoReturn |}))
  /\ (Unwind.RegistrationPointer l <> target ->
      target <> 0 -> target < Unwind.RegistrationPointer l ->
      hd_error (Unwind.step_events (Unwind.iteration target record w l))
      = Some (CallRtlRaiseException fresh)
      /\ (RtlRaiseException w fresh = None ->
          Unwind.loop (S n) target record w l
          = {| Unwind.events := [CallRtlRaiseException fresh]; Unwind.world := w;
               Unwind.locals := Unwind.set_ExceptionRecord2 l fresh;
               Unwind.exit := Some Unwind.NoReturn |}))
  /\ (forall ip record0 value a,
        RtlpGetRegistrationHead w <> EXCEPTION_CHAIN_END ->
        RtlpGetRegistrationHead w = target ->
        hd_error (Unwind.events (RtlUnwind (S n) target ip record0 value w a))
        = Some (CallZwContinue
                  (Unwind.adjusted_context target record0 value w a) false)).
Proof.
  intros Hreg resume fresh.
  assert (Hat_target : forall r0 w0 l0,
            Unwind.RegistrationPointer l0 <> EXCEPTION_CHAIN_END ->
            Unwind.RegistrationPointer l0 = target ->
            Unwind.iteration target r0 w0 l0
            = Unwind.continue [] w0 l0 (Unwind.examine_frame r0)).
  { intros r0 w0 l0 Hreg0 Heq; unfold Unwind.iteration.
    apply Z.eqb_neq in Hreg0; apply Z.eqb_eq in Heq; now rewrite Hreg0, Heq. }
  assert (Hfirst : forall r0 w0 l0,
            hd_error (Unwind.step_events
                        (Unwind.continue [] w0 l0 (Unwind.examine_frame r0)))
            = Some (CallZwContinue (Unwind.ContextRecord1 l0) false)).
  { intros r0 w0 l0.
    destruct (continue_extends [] w0 l0 (Unwind.examine_frame r0)
                (examine_frame_extends r0)) as (tail & ->).
    reflexivity. }
  split; [ | split ].
  - intros Heq; rewrite (Hat_target record w l Hreg Heq); split; [ apply Hfirst | ].
    intros Hgone; apply unwind_loop_done.
    rewrite (Hat_target record w l Hreg Heq); unfold Unwind.continue; now rewrite Hgone.
  - intros Hneq Hsupplied Hbelow.
    assert (Hit : Unwind.iteration target record w l
                  = Unwind.raise [] w l STATUS_INVALID_UNWIND_TARGET record
                      (Unwind.examine_frame record)).
    { unfold Unwind.iteration.
      apply Z.eqb_neq in Hreg, Hneq, Hsupplied; apply Z.ltb_lt in Hbelow.
      now rewrite Hreg, Hneq, Hsupplied, Hbelow. }
    split.
    + rewrite Hit.
      destruct (raise_extends record [] w l STATUS_INVALID_UNWIND_TARGET
                  (Unwind.examine_frame record) (examine_frame_extends record))
        as (tail & ->).
      reflexivity.
    + intros Hgone; apply unwind_loop_done.
      rewrite Hit; unfold Unwind.raise, Unwind.fresh_record; fold fresh.
      now rewrite Hgone.
  - intros ip record0 value a Hhead Htarget.
    unfold RtlUnwind; apply unwind_loop_first_event.
    rewrite Hat_target.
    + rewrite Hfirst; reflexivity.
    + simpl; now rewrite setup_world_head.
    + simpl; now rewrite setup_world_head.
Qed.

(** C9: when the loop test of the unwind fails, the registration pointer
    being EXCEPTION_CHAIN_END, the only thing left is a system call: ZwContinue
    on the context record, not alertable, if the target frame is
    EXCEPTION_CHAIN_END, and otherwise ZwRaiseException on the working
    exception record and the context record, FirstChance false.  Every run
    of RtlUnwind that ends with the chain exhausted ends with that call.  The
    system calls not coming back, the run ends inside the call: no run of
    RtlUnwind ends by the [return] of its last line. *)
Theorem C9_chain_exhausted
    (headers : NtHeaders) (externals : Externals)
    (n : nat) (target record : Z) (w : World) (l : Unwind.Locals) :
  Unwind.RegistrationPointer l = EXCEPTION_CHAIN_END ->
  let resume := CallZwContinue (Unwind.ContextRecord1 l) false in
  let reraise := CallZwRaiseException record (Unwind.ContextRecord1 l) false in
  (target = EXCEPTION_CHAIN_END ->
   Unwind.step_events (Unwind.iteration target record w l) = [resume]
   /\ (ZwContinue w (Unwind.ContextRecord1 l) false = None ->
       Unwind.loop (S n) target record w l
       = {| Unwind.events := [resume]; Unwind.world := w; Unwind.locals := l;
            Unwind.exit := Some Unwind.NoReturn |}))
  /\ (target <> EXCEPTION_CHAIN_END ->
      Unwind.step_events (Unwind.iteration target record w l) = [reraise]
      /\ (ZwRaiseException w record (Unwind.ContextRecord1 l) false = None ->
          Unwind.loop (S n) target record w l
          = {| Unwind.events := [reraise]; Unwind.world := w; Unwind.locals := l;
               Unwind.exit := Some Unwind.NoReturn |}))
  /\ (forall fuel ip record0 value w0 a e,
        Unwind.exit (RtlUnwind fuel target ip record0 value w0 a) = Some e ->
        Unwind.RegistrationPointer
          (Unwind.locals (RtlUnwind fuel target ip record0 value w0 a))
          = EXCEPTION_CHAIN_END ->
        exists before c,
          Unwind.events (RtlUnwind fuel target ip record0 value w0 a)
          = before ++ [if target =? EXCEPTION_CHAIN_END
                       then CallZwContinue c false
                       else CallZwRaiseException (Unwind.working_record record0 a) c
                              false])
  /\ (system_calls_do_not_return externals ->
      forall fuel ip record0 value w0 a e,
        Unwind.exit (RtlUnwind fuel target ip record0 value w0 a) = Some e ->
        e = Unwind.NoReturn).
Proof.
  intros Hend resume reraise; apply Z.eqb_eq in Hend.
  split; [ | split; [ | split ] ].
  - intros Htarget; apply Z.eqb_eq in Htarget.
    assert (Hit : Unwind.iteration target record w l
                  = Unwind.continue [] w l (fun evs w l => Unwind.Done evs w l Unwind.Return)).
    { unfold Unwind.iteration, Unwind.after_loop; now rewrite Hend, Htarget. }
    rewrite Hit; unfold Unwind.continue; split.
    + now destruct (ZwContinue _ _ _) as [[w1 c1] | ].
    + intros Hgone; apply unwind_loop_done.
      rewrite Hit; unfold Unwind.continue; now rewrite Hgone.
  - intros Htarget; apply Z.eqb_neq in Htarget.
    assert (Hit : Unwind.iteration target record w l
                  = match ZwRaiseException w record (Unwind.ContextRecord1 l) false with
                    | None => Unwind.Done [reraise] w l Unwind.NoReturn
                    | Some (w1, c) =>
                        Unwind.Done [reraise] w1
                          (Unwind.set_call l c (Unwind.DispatcherContext l)) Unwind.Return
                    end).
    { unfold Unwind.iteration, Unwind.after_loop; now rewrite Hend, Htarget. }
    rewrite Hit; split.
    + now destruct (ZwRaiseException _ _ _ _) as [[w1 c1] | ].
    + intros Hgone; apply unwind_loop_done.
      rewrite Hit; now rewrite Hgone.
  - intros fuel ip record0 value w0 a e; unfold RtlUnwind.
    apply unwind_loop_exhausted.
  - intros Hsystem fuel ip record0 value w0 a e; unfold RtlUnwind.
    now apply unwind_loop_no_return.
Qed.

(** C4: in the unwind, when the handler of a frame returns
    ExceptionCollidedUnwind, the registration pointer is replaced by the
    pointer in the dispatcher context; that node is the one saved as
    PriorPointer, the pointer moves to its [Next] link, and it is the one
    unlinked: the frame whose handler was called is not unlinked unless it
    is that node.  When the handler returns ExceptionContinueSearch, the
    frame itself is saved, the pointer moves to its [Next] link, and the
    frame is unlinked.  [Next] is read before the node is unlinked. *)
Theorem C4_collided_unwind_unlinks_replacement
    (headers : NtHeaders) (externals : Externals)
    (target record : Z) (w : World) (l : Unwind.Locals)
    (routine : Z) (d : EXCEPTION_DISPOSITION) (w1 : World) (l1 : Unwind.Locals) :
  Unwind.RegistrationPointer l <> EXCEPTION_CHAIN_END ->
  Unwind.RegistrationPointer l <> target ->
  (target = 0 \/ Unwind.RegistrationPointer l <= target) ->
  frame_fails (Unwind.RegistrationPointer l) (Unwind.LowLimit l) (Unwind.HighLimit l)
    = false ->
  Unwind.call_handler record w l = (routine, d, w1, l1) ->
  let frame := Unwind.RegistrationPointer l in
  let called := ExecuteHandlerForUnwind frame routine in
  let replacement :=
    DISPATCHER_CONTEXT.RegistrationPointer (Unwind.DispatcherContext l1) in
  (d = ExceptionCollidedUnwind ->
   Unwind.iteration target record w l
   = Unwind.Again [called; UnlinkHandler replacement]
       (RtlpUnlinkHandler w1 replacement)
       (Unwind.set_RegistrationPointer l1 (Next (RegistrationRecords w1 replacement)))
   /\ (replacement <> frame ->
       ~ In (UnlinkHandler frame) (Unwind.step_events (Unwind.iteration target record w l))))
  /\ (d = ExceptionContinueSearch ->
      Unwind.iteration target record w l
      = Unwind.Again [called; UnlinkHandler frame]
          (RtlpUnlinkHandler w1 frame)
          (Unwind.set_RegistrationPointer l1 (Next (RegistrationRecords w1 frame)))).
Proof.
  intros Hreg Htarget Hbelow Hframe Hcall frame called replacement.
  pose proof (unwind_iteration_calls_handler target record w l routine d w1 l1
                Hreg Htarget Hbelow Hframe Hcall) as Hit.
  pose proof (unwind_call_handler_locals record w l) as Hc.
  rewrite Hcall in Hc; simpl in Hc; destruct Hc as (Hc & _).
  split; intros ->; rewrite Hit;
    unfold Unwind.dispose, Unwind.next_record; simpl.
  - split; [ reflexivity | ].
    intros Hneq [Hin | [Hin | []]]; [ discriminate | ].
    injection Hin as Hin; contradiction.
  - now rewrite Hc.
Qed.

(** C10: the unwind calls no validator.  For every frame that reaches the
    stack test of the unwind loop and passes it, whatever RtlIsValidHandler
    would answer for its handler, the pass calls
    RtlpExecuteHandlerForUnwind on the frame with the [Handler] field of its
    registration record: that call is the first thing the pass does, the
    state, the context and the dispatcher context the pass goes on with are
    those the call left, and the disposition the call returned is the one
    the switch dispatches (if it is ExceptionContinueSearch, the frame is
    unlinked in the state the handler left).  The dispatcher, for a frame
    that passes its stack test and whose handler RtlIsValidHandler reports
    invalid, calls nothing, sets the stack-invalid flag and returns false. *)
Theorem C10_unwind_does_not_validate
    (headers : NtHeaders) (externals : Externals)
    (n fuel : nat) (target record context : Z) (w : World)
    (lu : Unwind.Locals) (ld : Dispatch.Locals) :
  EXCEPTION_STACK_INVALID <> 0 ->
  (Unwind.RegistrationPointer lu <> EXCEPTION_CHAIN_END ->
   Unwind.RegistrationPointer lu <> target ->
   (target = 0 \/ Unwind.RegistrationPointer lu <= target) ->
   frame_fails (Unwind.RegistrationPointer lu) (Unwind.LowLimit lu) (Unwind.HighLimit lu)
     = false ->
   let frame := Unwind.RegistrationPointer lu in
   let routine := Handler (RegistrationRecords w frame) in
   let answer := RtlpExecuteHandlerForUnwind w record frame (Unwind.ContextRecord1 lu)
                   (Unwind.DispatcherContext lu) routine in
   let d := fst (fst (fst answer)) in
   let w1 := snd (fst (fst answer)) in
   let l1 := Unwind.set_call lu (snd (fst answer)) (snd answer) in
   let called := ExecuteHandlerForUnwind frame routine in
   hd_error (Unwind.step_events (Unwind.iteration target record w lu)) = Some called
   /\ Unwind.iteration target record w lu = Unwind.dispose record [called] w1 l1 d
   /\ (d = ExceptionContinueSearch ->
       Unwind.iteration target record w lu
       = Unwind.Again [called; UnlinkHandler frame] (RtlpUnlinkHandler w1 frame)
           (Unwind.set_RegistrationPointer l1 (Next (RegistrationRecords w1 frame)))))
  /\ (Dispatch.RegistrationPointer ld <> EXCEPTION_CHAIN_END ->
      frame_fails (Dispatch.RegistrationPointer ld) (Dispatch.LowLimit ld)
        (Dispatch.HighLimit ld) = false ->
      RtlIsValidHandler fuel w
        (Handler (RegistrationRecords w (Dispatch.RegistrationPointer ld))) = Some false ->
      Dispatch.loop (S n) fuel record context w ld
      = {| Dispatch.events := [];
           Dispatch.world := or_ExceptionFlags w record EXCEPTION_STACK_INVALID;
           Dispatch.locals := ld;
           Dispatch.exit := Some (Dispatch.Return false) |}
      /\ flag_set (get_ExceptionFlags
                     (or_ExceptionFlags w record EXCEPTION_STACK_INVALID) record)
           EXCEPTION_STACK_INVALID = true).
Proof.
  intros Hbit; split.
  - intros Hreg Htarget Hbelow Hframe frame routine answer d w1 l1 called.
    assert (Hcall : Unwind.call_handler record w lu = (routine, d, w1, l1)).
    { unfold Unwind.call_handler; fold frame routine answer.
      subst d w1 l1; now destruct answer as [[[d0 w0] c0] dc0]. }
    pose proof (unwind_iteration_calls_handler target record w lu routine d w1 l1
                  Hreg Htarget Hbelow Hframe Hcall) as Hit.
    fold frame called in Hit.
    split; [ | split; [ exact Hit | ] ].
    + rewrite Hit.
      destruct (dispose_extends record [called] w1 l1 d) as (tail & ->).
      reflexivity.
    + intros Hd; rewrite Hit, Hd.
      unfold Unwind.dispose, Unwind.next_record; reflexivity.
  - intros Hreg Hframe Hinvalid; split.
    + apply loop_done; unfold Dispatch.iteration.
      apply Z.eqb_neq in Hreg; now rewrite Hreg, Hframe, Hinvalid.
    + unfold or_ExceptionFlags; rewrite get_set_ExceptionFlags.
      now apply flag_set_lor.
Qed.

Lemma scripted_system_calls (script : Z -> Verdict) :
  system_calls_do_not_return (scripted script).
Proof.
  split; reflexivity.
Qed.

Lemma C3_witness :
  let X := scripted (fun _ => search) in
  let at_target := @RtlUnwind i386_headers X 5 0x1001 0 0 77 unaligned_head_world
                     sample_activation in
  let below := @RtlUnwind i386_headers X 5 0x2FF0 0 0 77 two_handlers_world
                 sample_activation in
  (hd_error (Unwind.events at_target)
   = Some (CallZwContinue
             {| ContextFlags := 0x00010007; Esp := 0x0000F010; Eax := 77;
                Registers := fun _ => 0 |} false)
   /\ Unwind.events at_target
      = [CallZwContinue
           {| ContextFlags := 0x00010007; Esp := 0x0000F010; Eax := 77;
              Registers := fun _ => 0 |} false]
   /\ Unwind.exit at_target = Some Unwind.NoReturn)
  /\ Unwind.events below
     = [CallRtlRaiseException
          {| ExceptionCode := 0xC0000029; ExceptionFlags := 0x1;
             ExceptionRecord := 0x0000EF00; ExceptionAddress := 0;
             NumberParameters := 0 |}]
  /\ Unwind.exit below = Some Unwind.NoReturn.
Proof.
  intros X at_target below; split; [ split; [ | split; reflexivity ] | ].
  - apply (C3_target_tests_come_first i386_headers X 4 0x1001 0
             unaligned_head_world (Unwind.stack sample_activation));
      [ discriminate | discriminate | reflexivity ].
  - pose proof (proj2 (proj1 (proj2
                 (C3_target_tests_come_first i386_headers X 4 0x2FF0
                    (Unwind.working_record 0 sample_activation)
                    (@Unwind.setup_world i386_headers 0x2FF0 0 two_handlers_world
                       sample_activation)
                    (@Unwind.entry i386_headers X 0x2FF0 0 77 two_handlers_world
                       sample_activation) ltac:(discriminate)))
                 ltac:(discriminate) ltac:(discriminate) eq_refl) eq_refl) as Hrun.
    split; [ exact (f_equal Unwind.events Hrun) | exact (f_equal Unwind.exit Hrun) ].
Defined.

Lemma C9_witness :
  let X := scripted (fun _ => search) in
  let unwind_all := @RtlUnwind i386_headers X 5 0xFFFFFFFF 0 0 77 empty_chain_world
                      sample_activation in
  let exit_unwind := @RtlUnwind i386_headers X 5 0 0 0 77 two_handlers_world
                       sample_activation in
  (Unwind.events unwind_all
   = [CallZwContinue
        {| ContextFlags := 0x00010007; Esp := 0x0000F010; Eax := 77;
           Registers := fun _ => 0 |} false]
   /\ Unwind.exit unwind_all = Some Unwind.NoReturn)
  /\ Unwind.events exit_unwind
     = [ExecuteHandlerForUnwind 0x3000 0x401000; UnlinkHandler 0x3000;
        ExecuteHandlerForUnwind 0x3010 0x402000; UnlinkHandler 0x3010;
        CallZwRaiseException 0x0000EF00
          {| ContextFlags := 0x00010007; Esp := 0x0000F010; Eax := 77;
             Registers := fun _ => 0 |} false]
  /\ Unwind.exit exit_unwind = Some Unwind.NoReturn.
Proof.
  intros X unwind_all exit_unwind.
  assert (Hend : Unwind.RegistrationPointer
                   (@Unwind.entry i386_headers X 0xFFFFFFFF 0 77 empty_chain_world
                      sample_activation) = @EXCEPTION_CHAIN_END i386_headers)
    by reflexivity.
  pose proof (C9_chain_exhausted i386_headers X 4 0xFFFFFFFF
                (Unwind.working_record 0 sample_activation)
                (@Unwind.setup_world i386_headers 0xFFFFFFFF 0 empty_chain_world
                   sample_activation)
                (@Unwind.entry i386_headers X 0xFFFFFFFF 0 77 empty_chain_world
                   sample_activation) Hend) as (Hall & _).
  split.
  - destruct (Hall eq_refl) as (_ & Hrun).
    specialize (Hrun eq_refl).
    split; [ exact (f_equal Unwind.events Hrun) | exact (f_equal Unwind.exit Hrun) ].
  - split; reflexivity.
Defined.

Lemma C4_witness :
  let X := scripted collided_script in
  let r := @RtlUnwind i386_headers X 5 0 0 0 77 three_handlers_world sample_activation in
  Unwind.step_events
    (@Unwind.iteration i386_headers X 0 (Unwind.working_record 0 sample_activation)
       (@Unwind.setup_world i386_headers 0 0 three_handlers_world sample_activation)
       (@Unwind.entry i386_headers X 0 0 77 three_handlers_world sample_activation))
  = [ExecuteHandlerForUnwind 0x3000 0x401000; UnlinkHandler 0x3010]
  /\ Unwind.events r
     = [ExecuteHandlerForUnwind 0x3000 0x401000; UnlinkHandler 0x3010;
        ExecuteHandlerForUnwind 0x3020 0x403000; UnlinkHandler 0x3020;
        CallZwRaiseException 0x0000EF00
          {| ContextFlags := 0x00010007; Esp := 0x0000F010; Eax := 77;
             Registers := fun _ => 0 |} false]
  /\ RtlpGetRegistrationHead (Unwind.world r) = 0xFFFFFFFF.
Proof.
  intros X r.
  split; [ | split; reflexivity ].
  edestruct (C4_collided_unwind_unlinks_replacement i386_headers X 0
               (Unwind.working_record 0 sample_activation)
               (@Unwind.setup_world i386_headers 0 0 three_handlers_world sample_activation)
               (@Unwind.entry i386_headers X 0 0 77 three_handlers_world sample_activation)
               0x401000 ExceptionCollidedUnwind)
    as [Hcollided _].
  - discriminate.
  - discriminate.
  - now left.
  - reflexivity.
  - reflexivity.
  - destruct (Hcollided eq_refl) as [Hstep _].
    exact (f_equal Unwind.step_events Hstep).
Defined.

Lemma C10_witness :
  let X := scripted (fun _ => marking) in
  let w := @Unwind.setup_world i386_headers 0 0 unregistered_handler_world
             sample_activation in
  let d := @RtlDispatchException i386_headers X 5 0x5000 0x6000 unregistered_handler_world
             sample_stack in
  RtlIsValidHandler 5 unregistered_handler_world 0x401000 = Some false
  /\ (exists w' l',
        @Unwind.iteration i386_headers X 0 (Unwind.working_record 0 sample_activation) w
          (@Unwind.entry i386_headers X 0 0 77 unregistered_handler_world
             sample_activation)
        = Unwind.Again [ExecuteHandlerForUnwind 0x3000 0x401000; UnlinkHandler 0x3000] w' l'
        /\ flag_set (get_ExceptionFlags w 0x0000EF00) 0x40 = false
        /\ flag_set (get_ExceptionFlags w' 0x0000EF00) 0x40 = true)
  /\ Dispatch.events d = []
  /\ Dispatch.exit d = Some (Dispatch.Return false)
  /\ flag_set (get_ExceptionFlags (Dispatch.world d) 0x5000) 0x40 = false.
Proof.
  intros X w d.
  split; [ reflexivity | ].
  destruct (C10_unwind_does_not_validate i386_headers X 4 5 0
              (Unwind.working_record 0 sample_activation) 0x6000 w
              (@Unwind.entry i386_headers X 0 0 77 unregistered_handler_world
                 sample_activation)
              (@Dispatch.entry unregistered_handler_world sample_stack))
    as [Hunwind _]; [ discriminate | ].
  split; [ | repeat split ].
  destruct Hunwind as (_ & _ & Hsearch);
    [ discriminate | discriminate | now left | reflexivity | ].
  eexists; eexists; split; [ apply Hsearch; reflexivity | ].
  split; reflexivity.
Defined.

(** ** The switch to the DPC stack *)

Lemma switches_app (a b : list Event) : switches (a ++ b) = (switches a + switches b)%nat.
Proof.
  unfold switches; now rewrite filter_app, length_app.
Qed.

(** With the limits of the DPC stack installed, a frame that fails the
    stack test is not found on the DPC stack. *)
Lemma no_second_switch `{NtHeaders} (w : World) (reg : Z) :
  frame_fails reg (fst (DpcStack_limits w)) (snd (DpcStack_limits w)) = true ->
  on_DpcStack w reg = false.
Proof.
  unfold frame_fails, on_DpcStack, DpcStack_limits; simpl.
  set (HighAddress := ULONG (reg + sizeof_EXCEPTION_REGISTRATION_RECORD)).
  set (Top := DpcStack (KeGetCurrentPrcb w)).
  set (Low := ULONG (Top - KERNEL_STACK_SIZE)).
  intros Hfails.
  destruct (Z.land reg 3 =? 0); [ | reflexivity ].
  destruct (KeGetCurrentIrql w >=? DISPATCH_LEVEL); [ | reflexivity ].
  destruct (DpcRoutineActive (KeGetCurrentPrcb w)); [ | reflexivity ].
  simpl in *.
  destruct (Z.ltb_spec reg Low), (Z.gtb_spec HighAddress Top),
    (Z.leb_spec HighAddress Top), (Z.geb_spec reg Low);
    simpl in *; try reflexivity; try discriminate; lia.
Qed.

Lemma DpcStack_limits_eq `{NtHeaders} (w w' : World) :
  DpcStack (KeGetCurrentPrcb w') = DpcStack (KeGetCurrentPrcb w) ->
  DpcStack_limits w' = DpcStack_limits w.
Proof.
  unfold DpcStack_limits; now intros ->.
Qed.

Section DispatchSwitch.
Context {headers : NtHeaders} {externals : Externals}.
Variables (fuel : nat) (record context : Z).
Hypothesis Hkeeps : keeps_DpcStack externals.

Lemma dispatch_call_handler_DpcStack (w : World) (l : Dispatch.Locals) :
  DpcStack (KeGetCurrentPrcb (snd (fst (Dispatch.call_handler record context w l))))
  = DpcStack (KeGetCurrentPrcb w).
Proof.
  destruct Hkeeps as (Hexc & _ & _ & Hlog & Hlast & _).
  unfold Dispatch.call_handler.
  destruct (flag_set (NtGlobalFlag w) FLG_ENABLE_EXCEPTION_LOGGING).
  - specialize (Hlog w record context 0 (Dispatch.RegistrationPointer l) (4 * sizeof_ULONG)).
    destruct (RtlpLogExceptionHandler _ _ _ _ _ _) as [i w0]; simpl in Hlog.
    specialize (Hexc w0 record (Dispatch.RegistrationPointer l) context
                  (Dispatch.DispatcherContext l)
                  (Handler (RegistrationRecords w0 (Dispatch.RegistrationPointer l)))).
    destruct (RtlpExecuteHandlerForException _ _ _ _ _ _) as [[d w1] dc]; simpl in Hexc.
    destruct (flag_set _ _); simpl; [ rewrite Hlast | ]; congruence.
  - specialize (Hexc w record (Dispatch.RegistrationPointer l) context
                  (Dispatch.DispatcherContext l)
                  (Handler (RegistrationRecords w (Dispatch.RegistrationPointer l)))).
    destruct (RtlpExecuteHandlerForException _ _ _ _ _ _) as [[d w1] dc]; simpl in Hexc.
    destruct (flag_set _ _); simpl; [ rewrite Hlast | ]; congruence.
Qed.

Lemma dispatch_leave_nested_DpcStack (w : World) (l : Dispatch.Locals) :
  KeGetCurrentPrcb (fst (Dispatch.leave_nested record w l)) = KeGetCurrentPrcb w.
Proof.
  unfold Dispatch.leave_nested; now destruct (_ =? _).
Qed.

(** The switch on the disposition adds no switch to the DPC stack. *)
Lemma dispatch_dispose_switches (evs : list Event) (w : World) (l : Dispatch.Locals)
    (d : EXCEPTION_DISPOSITION) :
  switches (Dispatch.step_events (Dispatch.dispose record evs w l d)) = switches evs.
Proof.
  unfold Dispatch.dispose, Dispatch.raise, Dispatch.continue_search, Dispatch.advance.
  destruct d; repeat first [ case_raise | case_flag ]; simpl;
    rewrite ?switches_app; simpl; auto.
Qed.

(** When it goes on to the next frame, it keeps the limits and leaves the
    DPC stack of the processor block where it was. *)
Lemma dispatch_dispose_again (evs : list Event) (w : World) (l : Dispatch.Locals)
    (d : EXCEPTION_DISPOSITION) (evs' : list Event) (w' : World) (l' : Dispatch.Locals) :
  Dispatch.dispose record evs w l d = Dispatch.Again evs' w' l' ->
  DpcStack (KeGetCurrentPrcb w') = DpcStack (KeGetCurrentPrcb w)
  /\ Dispatch.LowLimit l' = Dispatch.LowLimit l
  /\ Dispatch.HighLimit l' = Dispatch.HighLimit l.
Proof.
  destruct Hkeeps as (_ & _ & _ & _ & _ & Hraise & _).
  unfold Dispatch.dispose, Dispatch.raise, Dispatch.continue_search, Dispatch.advance.
  destruct d; repeat first [ case_raise | case_flag ]; try discriminate;
    intros [= <- <- <-];
    repeat match goal with
           | H : RtlRaiseException _ _ = Some _ |- _ => apply Hraise in H
           end;
    simpl; auto.
  destruct (_ >? _); auto.
Qed.

(** A pass back to the loop test keeps the limits unless it is a switch,
    installs the limits of the DPC stack if it is one, and leaves the DPC
    stack of the processor block where it was. *)
Lemma dispatch_iteration_again (w : World) (l : Dispatch.Locals)
    (evs : list Event) (w' : World) (l' : Dispatch.Locals) :
  Dispatch.iteration fuel record context w l = Some (Dispatch.Again evs w' l') ->
  DpcStack (KeGetCurrentPrcb w') = DpcStack (KeGetCurrentPrcb w)
  /\ ((switches evs = 0%nat
       /\ Dispatch.LowLimit l' = Dispatch.LowLimit l
       /\ Dispatch.HighLimit l' = Dispatch.HighLimit l)
      \/ (switches evs = 1%nat
          /\ frame_fails (Dispatch.RegistrationPointer l) (Dispatch.LowLimit l)
               (Dispatch.HighLimit l) = true
          /\ on_DpcStack w (Dispatch.RegistrationPointer l) = true
          /\ dispatch_switched w' l')).
Proof.
  unfold Dispatch.iteration.
  destruct (_ =? EXCEPTION_CHAIN_END); [ discriminate | ].
  destruct (frame_fails _ _ _) eqn:Hfails.
  { destruct (on_DpcStack _ _) eqn:Hon; [ | discriminate ].
    intros [= <- <- <-]; split; [ reflexivity | right ].
    repeat split; now destruct (DpcStack_limits w). }
  destruct (RtlIsValidHandler _ _ _) as [[ | ] | ]; try discriminate.
  pose proof (call_handler_locals record context w l) as Hc.
  pose proof (dispatch_call_handler_DpcStack w l) as Hd.
  destruct (Dispatch.call_handler _ _ _ _) as [[[routine d] w1] l1].
  pose proof (leave_nested_locals record w1 l1) as Hn.
  pose proof (dispatch_leave_nested_DpcStack w1 l1) as Hp.
  destruct (Dispatch.leave_nested _ _ _) as [w2 l2].
  simpl in Hc, Hd, Hn, Hp.
  destruct Hc as (_ & _ & Hc1 & Hc2), Hn as (_ & Hn1 & Hn2 & _).
  intros [= Hstep].
  pose proof (dispatch_dispose_switches
                [ExecuteHandlerForException (Dispatch.RegistrationPointer l) routine]
                w2 l2 d) as Hcount.
  rewrite Hstep in Hcount; simpl in Hcount.
  apply dispatch_dispose_again in Hstep as (Hw & Hlow & Hhigh).
  split; [ congruence | left ].
  split; [ exact Hcount | split; congruence ].
Qed.

(** A pass out of the loop is no switch. *)
Lemma dispatch_iteration_done (w : World) (l : Dispatch.Locals)
    (evs : list Event) (w' : World) (l' : Dispatch.Locals) (e : Dispatch.Exit) :
  Dispatch.iteration fuel record context w l = Some (Dispatch.Done evs w' l' e) ->
  switches evs = 0%nat.
Proof.
  unfold Dispatch.iteration.
  destruct (_ =? EXCEPTION_CHAIN_END); [ now intros [= <- _ _ _] | ].
  destruct (frame_fails _ _ _).
  { destruct (on_DpcStack _ _); [ discriminate | now intros [= <- _ _ _] ]. }
  destruct (RtlIsValidHandler _ _ _) as [[ | ] | ];
    [ | now intros [= <- _ _ _] | discriminate ].
  destruct (Dispatch.call_handler _ _ _ _) as [[[routine d] w1] l1].
  destruct (Dispatch.leave_nested _ _ _) as [w2 l2].
  intros [= Hstep].
  pose proof (dispatch_dispose_switches
                [ExecuteHandlerForException (Dispatch.RegistrationPointer l) routine]
                w2 l2 d) as Hcount.
  now rewrite Hstep in Hcount.
Qed.

(** Once the limits are those of the DPC stack, the run never switches. *)
Lemma dispatch_loop_switched (n : nat) (w : World) (l : Dispatch.Locals) :
  dispatch_switched w l ->
  switches (Dispatch.events (Dispatch.loop n fuel record context w l)) = 0%nat.
Proof.
  revert w l; induction n as [ | n IH]; intros w l Hsw; simpl; [ reflexivity | ].
  destruct (Dispatch.iteration fuel record context w l) as [[evs w' l' | evs w' l' e] | ] eqn:Hit;
    simpl; [ | eapply dispatch_iteration_done; eauto | reflexivity ].
  rewrite switches_app.
  destruct (dispatch_iteration_again w l evs w' l' Hit)
    as (Hd & [(Hev & Hlow & Hhigh) | (_ & Hfails & Hon & _)]).
  - rewrite Hev, IH; [ reflexivity | ].
    unfold dispatch_switched in *.
    rewrite Hlow, Hhigh, Hsw; symmetry; now apply DpcStack_limits_eq.
  - unfold dispatch_switched in Hsw.
    injection Hsw as Hlow Hhigh; rewrite Hlow, Hhigh in Hfails.
    apply no_second_switch in Hfails; congruence.
Qed.

(** A run switches to the DPC stack at most once. *)
Lemma dispatch_loop_switches (n : nat) (w : World) (l : Dispatch.Locals) :
  (switches (Dispatch.events (Dispatch.loop n fuel record context w l)) <= 1)%nat.
Proof.
  revert w l; induction n as [ | n IH]; intros w l; simpl; [ auto | ].
  destruct (Dispatch.iteration fuel record context w l) as [[evs w' l' | evs w' l' e] | ] eqn:Hit;
    simpl; [ | erewrite dispatch_iteration_done; eauto | auto ].
  rewrite switches_app.
  destruct (dispatch_iteration_again w l evs w' l' Hit)
    as (Hd & [(Hev & _) | (Hev & _ & _ & Hsw)]); rewrite Hev.
  - apply IH.
  - rewrite dispatch_loop_switched by assumption; auto.
Qed.

End DispatchSwitch.

Section UnwindSwitch.
Context {headers : NtHeaders} {externals : Externals}.
Variables (target record : Z).
Hypothesis Hkeeps : keeps_DpcStack externals.

Lemma unwind_call_handler_DpcStack (w : World) (l : Unwind.Locals) :
  DpcStack (KeGetCurrentPrcb (snd (fst (Unwind.call_handler record w l))))
  = DpcStack (KeGetCurrentPrcb w).
Proof.
  destruct Hkeeps as (_ & Hunw & _).
  unfold Unwind.call_handler.
  specialize (Hunw w record (Unwind.RegistrationPointer l) (Unwind.ContextRecord1 l)
                (Unwind.DispatcherContext l)
                (Handler (RegistrationRecords w (Unwind.RegistrationPointer l)))).
  now destruct (RtlpExecuteHandlerForUnwind _ _ _ _ _ _) as [[[d w1] c] dc].
Qed.

(** The stack test on a frame and what depends on it: a step back to the
    loop test keeps the limits unless it is a switch, installs the limits
    of the DPC stack if it is one, and leaves the DPC stack of the processor
    block where it was. *)
Lemma examine_frame_again (front : list Event) (w : World) (l : Unwind.Locals)
    (evs : list Event) (w' : World) (l' : Unwind.Locals) :
  Unwind.examine_frame record front w l = Unwind.Again evs w' l' ->
  DpcStack (KeGetCurrentPrcb w') = DpcStack (KeGetCurrentPrcb w)
  /\ ((switches evs = switches front
       /\ Unwind.LowLimit l' = Unwind.LowLimit l
       /\ Unwind.HighLimit l' = Unwind.HighLimit l)
      \/ (switches evs = S (switches front)
          /\ frame_fails (Unwind.RegistrationPointer l) (Unwind.LowLimit l)
               (Unwind.HighLimit l) = true
          /\ on_DpcStack w (Unwind.RegistrationPointer l) = true
          /\ unwind_switched w' l')).
Proof.
  destruct Hkeeps as (_ & _ & Hunlink & _ & _ & Hraise & _).
  unfold Unwind.examine_frame.
  destruct (frame_fails _ _ _) eqn:Hfails.
  { destruct (on_DpcStack _ _) eqn:Hon.
    - intros [= <- <- <-]; split; [ reflexivity | right ].
      rewrite switches_app; simpl; rewrite Nat.add_1_r.
      repeat split; now destruct (DpcStack_limits w).
    - unfold Unwind.raise; case_raise; [ | discriminate ].
      intros [= <- <- <-]; split; [ eapply Hraise; eassumption | left ].
      rewrite switches_app; simpl; rewrite Nat.add_0_r; auto. }
  pose proof (unwind_call_handler_locals record w l) as Hc.
  pose proof (unwind_call_handler_DpcStack w l) as Hd.
  destruct (Unwind.call_handler _ _ _) as [[[routine d] w1] l1].
  simpl in Hc, Hd; destruct Hc as (_ & Hc1 & Hc2 & _).
  unfold Unwind.dispose, Unwind.raise, Unwind.next_record.
  destruct d; try case_raise; try discriminate;
    intros [= <- <- <-];
    repeat match goal with
           | H : RtlRaiseException _ _ = Some _ |- _ => apply Hraise in H
           end;
    (split; [ rewrite Hunlink; congruence | left ]);
    rewrite ?switches_app; simpl; rewrite ?Nat.add_0_r; auto.
Qed.

(** A step out of the loop is no switch. *)
Lemma examine_frame_done_switches (front : list Event) (w : World) (l : Unwind.Locals)
    (evs : list Event) (w' : World) (l' : Unwind.Locals) (e : Unwind.Exit) :
  Unwind.examine_frame record front w l = Unwind.Done evs w' l' e ->
  switches evs = switches front.
Proof.
  unfold Unwind.examine_frame.
  destruct (frame_fails _ _ _).
  { destruct (on_DpcStack _ _); [ discriminate | ].
    unfold Unwind.raise; case_raise; [ discriminate | ].
    intros [= <- _ _ _]; rewrite switches_app; simpl; auto. }
  destruct (Unwind.call_handler _ _ _) as [[[routine d] w1] l1].
  unfold Unwind.dispose, Unwind.raise, Unwind.next_record.
  destruct d; try case_raise; try discriminate;
    intros [= <- _ _ _]; rewrite ?switches_app; simpl; rewrite ?Nat.add_0_r; auto.
Qed.

(** A pass back to the loop test: as above, the frame being tested in the
    state [w0] that a call of the target tests left, if one came back. *)
Lemma unwind_iteration_again (w : World) (l : Unwind.Locals)
    (evs : list Event) (w' : World) (l' : Unwind.Locals) :
  Unwind.iteration target record w l = Unwind.Again evs w' l' ->
  DpcStack (KeGetCurrentPrcb w') = DpcStack (KeGetCurrentPrcb w)
  /\ ((switches evs = 0%nat
       /\ Unwind.LowLimit l' = Unwind.LowLimit l
       /\ Unwind.HighLimit l' = Unwind.HighLimit l)
      \/ (switches evs = 1%nat
          /\ frame_fails (Unwind.RegistrationPointer l) (Unwind.LowLimit l)
               (Unwind.HighLimit l) = true
          /\ (exists w0,
                DpcStack (KeGetCurrentPrcb w0) = DpcStack (KeGetCurrentPrcb w)
                /\ on_DpcStack w0 (Unwind.RegistrationPointer l) = true)
          /\ unwind_switched w' l')).
Proof.
  destruct Hkeeps as (_ & _ & _ & _ & _ & Hraise & Hcontinue & _).
  assert (Hfrom : forall front w0 l0,
            switches front = 0%nat ->
            DpcStack (KeGetCurrentPrcb w0) = DpcStack (KeGetCurrentPrcb w) ->
            Unwind.RegistrationPointer l0 = Unwind.RegistrationPointer l ->
            Unwind.LowLimit l0 = Unwind.LowLimit l ->
            Unwind.HighLimit l0 = Unwind.HighLimit l ->
            Unwind.examine_frame record front w0 l0 = Unwind.Again evs w' l' ->
            DpcStack (KeGetCurrentPrcb w') = DpcStack (KeGetCurrentPrcb w)
            /\ ((switches evs = 0%nat
                 /\ Unwind.LowLimit l' = Unwind.LowLimit l
                 /\ Unwind.HighLimit l' = Unwind.HighLimit l)
                \/ (switches evs = 1%nat
                    /\ frame_fails (Unwind.RegistrationPointer l) (Unwind.LowLimit l)
                         (Unwind.HighLimit l) = true
                    /\ (exists w1,
                          DpcStack (KeGetCurrentPrcb w1) = DpcStack (KeGetCurrentPrcb w)
                          /\ on_DpcStack w1 (Unwind.RegistrationPointer l) = true)
                    /\ unwind_switched w' l'))).
  { intros front w0 l0 Hfront Hw0 Hreg Hlow Hhigh Hstep.
    apply examine_frame_again in Hstep
      as (Hw' & [(Hev & Hl & Hh) | (Hev & Hfails & Hon & Hsw)]).
    - split; [ congruence | left ]; repeat split; congruence.
    - split; [ congruence | right ].
      rewrite Hreg, Hlow, Hhigh in Hfails; rewrite Hreg in Hon.
      repeat split; [ congruence | assumption | now exists w0 | assumption ]. }
  unfold Unwind.iteration.
  destruct (_ =? EXCEPTION_CHAIN_END).
  { unfold Unwind.after_loop, Unwind.continue.
    destruct (_ =? _);
      [ destruct (ZwContinue _ _ _) as [[w1 c1] | ]
      | destruct (ZwRaiseException _ _ _ _) as [[w1 c1] | ] ]; discriminate. }
  destruct (_ =? target).
  { unfold Unwind.continue.
    destruct (ZwContinue _ _ _) as [[w1 c1] | ] eqn:Hcall; [ | discriminate ].
    apply Hfrom; try reflexivity.
    eapply Hcontinue; eassumption. }
  destruct (negb _ && _).
  { unfold Unwind.raise; case_raise; [ | discriminate ].
    apply Hfrom; try reflexivity.
    eapply Hraise; eassumption. }
  apply Hfrom; reflexivity.
Qed.

Lemma unwind_iteration_done (w : World) (l : Unwind.Locals)
    (evs : list Event) (w' : World) (l' : Unwind.Locals) (e : Unwind.Exit) :
  Unwind.iteration target record w l = Unwind.Done evs w' l' e ->
  switches evs = 0%nat.
Proof.
  unfold Unwind.iteration.
  destruct (_ =? EXCEPTION_CHAIN_END).
  { unfold Unwind.after_loop, Unwind.continue.
    destruct (_ =? _);
      [ destruct (ZwContinue _ _ _) as [[w1 c1] | ]
      | destruct (ZwRaiseException _ _ _ _) as [[w1 c1] | ] ];
      now intros [= <- _ _ _]. }
  destruct (_ =? target).
  { unfold Unwind.continue.
    destruct (ZwContinue _ _ _) as [[w1 c1] | ]; [ | now intros [= <- _ _ _] ].
    intros Hstep; now apply examine_frame_done_switches in Hstep. }
  destruct (negb _ && _).
  { unfold Unwind.raise; case_raise; [ | now intros [= <- _ _ _] ].
    intros Hstep; now apply examine_frame_done_switches in Hstep. }
  intros Hstep; now apply examine_frame_done_switches in Hstep.
Qed.

Lemma unwind_loop_switched (n : nat) (w : World) (l : Unwind.Locals) :
  unwind_switched w l ->
  switches (Unwind.events (Unwind.loop n target record w l)) = 0%nat.
Proof.
  revert w l; induction n as [ | n IH]; intros w l Hsw; simpl; [ reflexivity | ].
  destruct (Unwind.iteration target record w l) as [evs w' l' | evs w' l' e] eqn:Hit;
    simpl; [ | eapply unwind_iteration_done; eauto ].
  rewrite switches_app.
  destruct (unwind_iteration_again w l evs w' l' Hit)
    as (Hd & [(Hev & Hlow & Hhigh) | (_ & Hfails & (w0 & Hw0 & Hon) & _)]).
  - rewrite Hev, IH; [ reflexivity | ].
    unfold unwind_switched in *.
    rewrite Hlow, Hhigh, Hsw; symmetry; now apply DpcStack_limits_eq.
  - unfold unwind_switched in Hsw.
    rewrite <- (DpcStack_limits_eq w w0 Hw0) in Hsw.
    injection Hsw as Hlow Hhigh; rewrite Hlow, Hhigh in Hfails.
    apply no_second_switch in Hfails; congruence.
Qed.

Lemma unwind_loop_switches (n : nat) (w : World) (l : Unwind.Locals) :
  (switches (Unwind.events (Unwind.loop n target record w l)) <= 1)%nat.
Proof.
  revert w l; induction n as [ | n IH]; intros w l; simpl; [ auto | ].
  destruct (Unwind.iteration target record w l) as [evs w' l' | evs w' l' e] eqn:Hit;
    simpl; [ | erewrite unwind_iteration_done; eauto ].
  rewrite switches_app.
  destruct (unwind_iteration_again w l evs w' l' Hit)
    as (Hd & [(Hev & _) | (Hev & _ & _ & Hsw)]); rewrite Hev.
  - apply IH.
  - rewrite unwind_loop_switched by assumption; auto.
Qed.

End UnwindSwitch.

(** C7: within one call of the dispatcher or of the unwind, the stack
    limits are switched to the DPC stack at most once, the external
    routines leaving the top of the processor's DPC stack where it is.
    Once the limits are those of the DPC stack, a frame that fails the
    stack test is never taken for a frame of the DPC stack and takes the
    error path: the dispatcher sets the stack-invalid flag and returns
    false, the unwind raises STATUS_BAD_STACK. *)
Theorem C7_one_switch_to_DpcStack
    (headers : NtHeaders) (externals : Externals) :
  (keeps_DpcStack externals ->
   (forall fuel record context w stack,
      (switches (Dispatch.events (RtlDispatchException fuel record context w stack)) <= 1)%nat)
   /\ (forall fuel target ip record value w a,
         (switches (Unwind.events (RtlUnwind fuel target ip record value w a)) <= 1)%nat))
  /\ (forall n fuel record context w l,
        (Dispatch.LowLimit l, Dispatch.HighLimit l) = DpcStack_limits w ->
        Dispatch.RegistrationPointer l <> EXCEPTION_CHAIN_END ->
        frame_fails (Dispatch.RegistrationPointer l) (Dispatch.LowLimit l)
          (Dispatch.HighLimit l) = true ->
        Dispatch.loop (S n) fuel record context w l
        = {| Dispatch.events := [];
             Dispatch.world := or_ExceptionFlags w record EXCEPTION_STACK_INVALID;
             Dispatch.locals := l;
             Dispatch.exit := Some (Dispatch.Return false) |})
  /\ (forall n target record w l,
        (Unwind.LowLimit l, Unwind.HighLimit l) = DpcStack_limits w ->
        Unwind.RegistrationPointer l <> EXCEPTION_CHAIN_END ->
        Unwind.RegistrationPointer l <> target ->
        (target = 0 \/ Unwind.RegistrationPointer l <= target) ->
        frame_fails (Unwind.RegistrationPointer l) (Unwind.LowLimit l)
          (Unwind.HighLimit l) = true ->
        let fresh := {| ExceptionCode := STATUS_BAD_STACK;
                        ExceptionFlags := EXCEPTION_NONCONTINUABLE;
                        ExceptionRecord := record;
                        ExceptionAddress := ExceptionAddress (Unwind.ExceptionRecord2 l);
                        NumberParameters := 0 |} in
        Unwind.step_events (Unwind.iteration target record w l)
        = [CallRtlRaiseException fresh]
        /\ (RtlRaiseException w fresh = None ->
            Unwind.loop (S n) target record w l
            = {| Unwind.events := [CallRtlRaiseException fresh]; Unwind.world := w;
                 Unwind.locals := Unwind.set_ExceptionRecord2 l fresh;
                 Unwind.exit := Some Unwind.NoReturn |})).
Proof.
  split; [ | split ].
  - intros Hkeeps; split.
    + intros; unfold RtlDispatchException; now apply dispatch_loop_switches.
    + intros; unfold RtlUnwind; now apply unwind_loop_switches.
  - intros n fuel record context w l Hsw Hreg Hfails.
    apply loop_done; unfold Dispatch.iteration.
    apply Z.eqb_neq in Hreg; rewrite Hreg, Hfails.
    injection Hsw as Hlow Hhigh; rewrite Hlow, Hhigh in Hfails.
    apply no_second_switch in Hfails; now rewrite Hfails.
  - intros n target record w l Hsw Hreg Htarget Hbelow Hfails.
    intros fresh.
    assert (Hit : Unwind.iteration target record w l
                  = Unwind.raise [] w l STATUS_BAD_STACK record Unwind.Again).
    { rewrite unwind_iteration_examines by assumption.
      unfold Unwind.examine_frame; rewrite Hfails.
      injection Hsw as Hlow Hhigh; rewrite Hlow, Hhigh in Hfails.
      apply no_second_switch in Hfails; now rewrite Hfails. }
    unfold Unwind.raise, Unwind.fresh_record in Hit; fold fresh in Hit; simpl in Hit.
    split.
    + rewrite Hit; now destruct (RtlRaiseException w fresh) as [[w1 r1] | ].
    + intros Hgone; apply unwind_loop_done.
      now rewrite Hit, Hgone.
Qed.

Lemma scripted_keeps_DpcStack (script : Z -> Verdict) : keeps_DpcStack (scripted script).
Proof.
  repeat split; intros; discriminate.
Qed.

Lemma C7_witness :
  let X := scripted (fun _ => search) in
  let d := @RtlDispatchException i386_headers X 5 0x5000 0x6000 dpc_world sample_stack in
  let u := @RtlUnwind i386_headers X 5 0 0 0 77 dpc_world sample_activation in
  (Dispatch.events d
   = [SwitchToDpcStack 0x80001000 0x80004000; ExecuteHandlerForException 0x80003000 0x401000]
   /\ Dispatch.exit d = Some (Dispatch.Return false)
   /\ flag_set (get_ExceptionFlags (Dispatch.world d) 0x5000) 0x8 = true
   /\ (switches (Dispatch.events d) <= 1)%nat)
  /\ (Unwind.events u
      = [SwitchToDpcStack 0x80001000 0x80004000;
         ExecuteHandlerForUnwind 0x80003000 0x401000; UnlinkHandler 0x80003000;
         CallRtlRaiseException
           {| ExceptionCode := 0xC0000028; ExceptionFlags := 0x1;
              ExceptionRecord := 0x0000EF00; ExceptionAddress := 0;
              NumberParameters := 0 |}]
      /\ Unwind.exit u = Some Unwind.NoReturn
      /\ (switches (Unwind.events u) <= 1)%nat).
Proof.
  intros X d u.
  destruct (proj1 (C7_one_switch_to_DpcStack i386_headers X)
              (scripted_keeps_DpcStack (fun _ => search)))
    as (Hdispatch & Hunwind).
  split.
  - split; [ reflexivity | split; [ reflexivity | split; [ reflexivity | ] ] ].
    apply Hdispatch.
  - split; [ reflexivity | split; [ reflexivity | ] ].
    apply Hunwind.
Defined.

(** C8, as amended: a frame that fails the stack test while the interrupt
    level is at or above DISPATCH_LEVEL, a DPC routine is active and the
    frame lies within KERNEL_STACK_SIZE below the top of the DPC stack
    makes the pass install the limits of the DPC stack and go back to the
    loop test with the registration pointer where it was, provided the
    frame is 4-byte aligned.  A frame that is not 4-byte aligned is never
    taken for a frame of the DPC stack: the dispatcher sets the
    stack-invalid flag and returns false, the unwind raises
    STATUS_BAD_STACK. *)
Theorem C8_aligned_frame_on_DpcStack_restarts
    (headers : NtHeaders) (externals : Externals) (w : World) (reg : Z) :
  let Top := DpcStack (KeGetCurrentPrcb w) in
  let region := (Top - KERNEL_STACK_SIZE, Top) in
  0 <= sizeof_EXCEPTION_REGISTRATION_RECORD ->
  0 <= KERNEL_STACK_SIZE <= Top -> Top < 2 ^ 32 ->
  DISPATCH_LEVEL <= KeGetCurrentIrql w ->
  DpcRoutineActive (KeGetCurrentPrcb w) = true ->
  Top - KERNEL_STACK_SIZE <= reg ->
  reg + sizeof_EXCEPTION_REGISTRATION_RECORD <= Top ->
  reg <> EXCEPTION_CHAIN_END ->
  (Z.land reg 3 = 0 ->
   (forall fuel record context l,
      Dispatch.RegistrationPointer l = reg ->
      frame_fails reg (Dispatch.LowLimit l) (Dispatch.HighLimit l) = true ->
      Dispatch.iteration fuel record context w l
      = Some (Dispatch.Again [SwitchToDpcStack (fst region) (snd region)] w
                (Dispatch.set_limits l region)))
   /\ (forall target record l,
         Unwind.RegistrationPointer l = reg ->
         reg <> target -> (target = 0 \/ reg <= target) ->
         frame_fails reg (Unwind.LowLimit l) (Unwind.HighLimit l) = true ->
         Unwind.iteration target record w l
         = Unwind.Again [SwitchToDpcStack (fst region) (snd region)] w
             (Unwind.set_limits l region)))
  /\ (Z.land reg 3 <> 0 ->
      (forall fuel record context l,
         Dispatch.RegistrationPointer l = reg ->
         Dispatch.iteration fuel record context w l
         = Some (Dispatch.Done []
                   (or_ExceptionFlags w record EXCEPTION_STACK_INVALID) l
                   (Dispatch.Return false)))
      /\ (forall target record l,
            Unwind.RegistrationPointer l = reg ->
            reg <> target -> (target = 0 \/ reg <= target) ->
            Unwind.iteration target record w l
            = Unwind.raise [] w l STATUS_BAD_STACK record Unwind.Again)).
Proof.
  intros Top region Hsize Hkss Htop Hirql Hactive Hlow Hhigh Hend.
  assert (Hlimits : DpcStack_limits w = region).
  { unfold DpcStack_limits, region; fold Top; f_equal.
    unfold ULONG; apply Z.mod_small; lia. }
  assert (Hbelow : forall target, reg <> target -> target = 0 \/ reg <= target ->
            negb (target =? 0) && (target <? reg) = false).
  { intros target _ [-> | Hle]; [ reflexivity | ].
    apply andb_false_iff; right; now apply Z.ltb_ge. }
  apply Z.eqb_neq in Hend.
  split.
  - intros Haligned.
    assert (Hon : on_DpcStack w reg = true).
    { unfold on_DpcStack; fold Top.
      apply Z.eqb_eq in Haligned; rewrite Haligned, Hactive.
      apply Z.geb_le in Hirql; rewrite Hirql; simpl.
      assert (ULONG (reg + sizeof_EXCEPTION_REGISTRATION_RECORD)
              = reg + sizeof_EXCEPTION_REGISTRATION_RECORD) as ->
        by (unfold ULONG; apply Z.mod_small; lia).
      assert (ULONG (Top - KERNEL_STACK_SIZE) = Top - KERNEL_STACK_SIZE) as ->
        by (unfold ULONG; apply Z.mod_small; lia).
      apply andb_true_iff; split; [ now apply Z.leb_le | now apply Z.geb_le ]. }
    split.
    + intros fuel record context l Hreg Hfails.
      unfold Dispatch.iteration; rewrite Hreg, Hend, Hfails, Hon, Hlimits.
      reflexivity.
    + intros target record l Hreg Htarget Hle Hfails.
      unfold Unwind.iteration, Unwind.examine_frame.
      rewrite Hreg, Hend, Hfails, Hon, Hlimits.
      apply Z.eqb_neq in Htarget as Htarget'; rewrite Htarget'.
      now rewrite Hbelow.
  - intros Hunaligned.
    assert (Hfails : forall low high, frame_fails reg low high = true).
    { intros low high; unfold frame_fails.
      apply Z.eqb_neq in Hunaligned; rewrite Hunaligned.
      now rewrite orb_true_r. }
    assert (Hon : on_DpcStack w reg = false).
    { unfold on_DpcStack.
      apply Z.eqb_neq in Hunaligned; now rewrite Hunaligned. }
    split.
    + intros fuel record context l Hreg.
      unfold Dispatch.iteration; now rewrite Hreg, Hend, Hfails, Hon.
    + intros target record l Hreg Htarget Hle.
      unfold Unwind.iteration, Unwind.examine_frame.
      rewrite Hreg, Hend, Hfails, Hon.
      apply Z.eqb_neq in Htarget as Htarget'; rewrite Htarget'.
      now rewrite Hbelow.
Qed.

Lemma C8_witness :
  @Dispatch.iteration i386_headers (scripted (fun _ => search)) 5 0x5000 0x6000
    dpc_world (@Dispatch.entry dpc_world sample_stack)
  = Some (Dispatch.Again [SwitchToDpcStack 0x80001000 0x80004000] dpc_world
            (Dispatch.set_limits (@Dispatch.entry dpc_world sample_stack)
               (0x80001000, 0x80004000))).
Proof.
  refine (proj1 (proj1
            (C8_aligned_frame_on_DpcStack_restarts i386_headers
               (scripted (fun _ => search)) dpc_world 0x80003000
               _ _ _ _ _ _ _ _) _) 5%nat 0x5000 0x6000
            (@Dispatch.entry dpc_world sample_stack) _ _);
    simpl; try reflexivity; try discriminate; lia.
Defined.

(** C8, as stated, fails.  The run starts with the limits of the thread's
    stack and has switched nothing.  The head of the chain fails the stack
    test, at DISPATCH_LEVEL with a DPC routine active and within
    KERNEL_STACK_SIZE below the top of the DPC stack, but it is not 4-byte
    aligned: the limits are not switched and the pass does not go back to the
    loop test.  The dispatcher returns false with the stack-invalid flag
    set, the unwind raises STATUS_BAD_STACK; both still have the limits of
    the thread's stack. *)
Lemma C8_counterexample :
  let X := scripted (fun _ => search) in
  let w := unaligned_head_dpc_world in
  let l := @Dispatch.entry w sample_stack in
  let reg := Dispatch.RegistrationPointer l in
  let Low := Dispatch.LowLimit l in
  let High := Dispatch.HighLimit l in
  let Top := DpcStack (KeGetCurrentPrcb w) in
  let d := @RtlDispatchException i386_headers X 5 0x5000 0x6000 w sample_stack in
  let u := @RtlUnwind i386_headers X 5 0 0 0 77 w sample_activation in
  (reg = 0x80003002 /\ Low = 0x2000 /\ High = 0x10000)
  /\ (@frame_fails i386_headers reg Low High = true /\ Z.land reg 3 = 2)
  /\ (2 <= KeGetCurrentIrql w
      /\ DpcRoutineActive (KeGetCurrentPrcb w) = true
      /\ Top - 12288 <= reg
      /\ reg + 8 <= Top)
  /\ (Dispatch.events d = []
      /\ Dispatch.exit d = Some (Dispatch.Return false)
      /\ flag_set (get_ExceptionFlags (Dispatch.world d) 0x5000) 0x8 = true
      /\ Dispatch.RegistrationPointer (Dispatch.locals d) = 0x80003002
      /\ Dispatch.LowLimit (Dispatch.locals d) = 0x2000
      /\ Dispatch.HighLimit (Dispatch.locals d) = 0x10000)
  /\ (Unwind.events u
      = [CallRtlRaiseException
           {| ExceptionCode := 0xC0000028; ExceptionFlags := 0x1;
              ExceptionRecord := 0x0000EF00; ExceptionAddress := 0;
              NumberParameters := 0 |}]
      /\ Unwind.exit u = Some Unwind.NoReturn
      /\ Unwind.RegistrationPointer (Unwind.locals u) = 0x80003002
      /\ Unwind.LowLimit (Unwind.locals u) = 0x2000
      /\ Unwind.HighLimit (Unwind.locals u) = 0x10000).
Proof.
  intros X w l reg Low High Top d u.
  split; [ repeat split | ].
  split; [ repeat split | ].
  split; [ vm_compute; repeat split; discriminate | ].
  split; repeat split.
Qed.

(** ** The validator *)

Lemma LONG_small (z : Z) : - 2 ^ 31 <= z < 2 ^ 31 -> LONG z = z.
Proof.
  intros Hz; unfold LONG.
  rewrite Z.mod_small; lia.
Qed.

Lemma Middle_is_half (Low High : Z) :
  0 <= Low + High < 2 ^ 31 ->
  Z.shiftr (LONG (Low + High)) 1 = (Low + High) / 2.
Proof.
  intros Hsum.
  rewrite LONG_small by lia.
  now rewrite Z.shiftr_div_pow2 by lia.
Qed.

Section BinarySearch.
Variables (w : World) (FunctionTable n h : Z).
Hypothesis Hlength : 0 < n < 2 ^ 30.
Hypothesis Hsorted : ascending w FunctionTable n.

Local Abbreviation A := (FunctionTable_at w FunctionTable).

(** The search for a handler that is not above every entry: it reads
    entries of the table only, and finds the handler exactly when it is an
    entry. *)
Lemma loop_within_table (fuel : nat) :
  forall Low High,
    0 <= Low -> High <= n -> Low <= High + 1 ->
    (forall i, 0 <= i < Low -> A i < h) ->
    (forall i, High < i < n -> h < A i) ->
    (exists k, Low <= k < n /\ h <= A k) ->
    (Z.to_nat (High - Low + 1) < fuel)%nat ->
    exists reads b,
      RtlIsValidHandler_loop fuel w FunctionTable h Low High = Some (reads, b)
      /\ (forall m, In m reads -> 0 <= m < n)
      /\ (b = true <-> entry_of w FunctionTable n h).
Proof.
  induction fuel as [ | fuel IH]; intros Low High HLow HHigh Hle Hlower Hupper Hk Hfuel;
    [ lia | ].
  destruct Hk as (k & Hk & Hhk).
  simpl.
  destruct (Z.geb_spec High Low) as [Hge | Hlt].
  - rewrite Middle_is_half by lia.
    set (Middle := (Low + High) / 2).
    assert (HMiddle : Low <= Middle <= High /\ Middle < n).
    { subst Middle; split; [ split | ].
      - apply Z.div_le_lower_bound; lia.
      - apply Z.div_le_upper_bound; lia.
      - apply Z.div_lt_upper_bound; lia. }
    fold (A Middle).
    destruct (Z.ltb_spec h (A Middle)) as [Hbelow | Hnot_below].
    + rewrite LONG_small by lia.
      destruct (IH Low (Middle - 1)) as (reads & b & -> & Hreads & Hb); try lia; auto.
      * intros i Hi.
        apply Z.lt_le_trans with (A Middle); [ assumption | ].
        apply Hsorted; lia.
      * exists k; split; [ lia | assumption ].
      * exists (Middle :: reads), b; simpl; split; [ reflexivity | split; [ | assumption ] ].
        intros m [<- | Hm]; [ lia | now apply Hreads ].
    + destruct (Z.gtb_spec h (A Middle)) as [Habove | Hnot_above].
      * rewrite LONG_small by lia.
        assert (Hk' : Middle < k).
        { destruct (Z.lt_ge_cases Middle k) as [ | Hkm]; [ assumption | ].
          assert (A k <= A Middle) by (apply Hsorted; lia). lia. }
        destruct (IH (Middle + 1) High) as (reads & b & -> & Hreads & Hb); try lia; auto.
        -- intros i Hi.
           apply Z.le_lt_trans with (A Middle); [ | lia ].
           apply Hsorted; lia.
        -- exists k; split; [ lia | assumption ].
        -- exists (Middle :: reads), b; simpl; split; [ reflexivity | split; [ | assumption ] ].
           intros m [<- | Hm]; [ lia | now apply Hreads ].
      * exists [Middle], true; split; [ reflexivity | split ].
        -- intros m [<- | []]; lia.
        -- split; [ intros _ | reflexivity ].
           exists Middle; split; [ lia | lia ].
  - exists [], false; split; [ reflexivity | split; [ intros m [] | ] ].
    split; [ discriminate | ].
    intros (i & Hi & Hhit); exfalso.
    destruct (Z.lt_ge_cases i Low) as [Hil | Hil].
    + specialize (Hlower i); lia.
    + specialize (Hupper i); lia.
Qed.

(** The search for a handler above every entry: it ends up reading
    [FunctionTable[n]], the ULONG that follows the table, and returns
    whether that ULONG is the handler. *)
Lemma loop_past_table (fuel : nat) :
  above_table w FunctionTable n h ->
  forall Low,
    0 <= Low <= n ->
    (Z.to_nat (n - Low + 1) < fuel)%nat ->
    exists reads,
      RtlIsValidHandler_loop fuel w FunctionTable h Low n = Some (reads, h =? A n)
      /\ In n reads
      /\ (forall m, In m reads -> 0 <= m <= n).
Proof.
  intros Habove.
  induction fuel as [ | fuel IH]; intros Low HLow Hfuel; [ lia | ].
  simpl.
  destruct (Z.geb_spec n Low) as [Hge | Hlt]; [ | lia ].
  rewrite Middle_is_half by lia.
  set (Middle := (Low + n) / 2).
  assert (HMiddle : Low <= Middle <= n).
  { subst Middle; split.
    - apply Z.div_le_lower_bound; lia.
    - apply Z.div_le_upper_bound; lia. }
  fold (A Middle).
  destruct (Z.eq_dec Middle n) as [Hlast | Hinside].
  - assert (HLown : Low = n) by (subst Middle; Z.div_mod_to_equations; lia).
    rewrite Hlast.
    destruct fuel as [ | fuel]; [ lia | ].
    destruct (Z.ltb_spec h (A n)) as [Hbelow | Hnot_below].
    + rewrite LONG_small by lia; simpl.
      destruct (Z.geb_spec (n - 1) Low) as [ | _]; [ lia | ].
      exists [n]; simpl; split; [ | split; [ now left | intros m [<- | []]; lia ] ].
      destruct (Z.eqb_spec h (A n)); [ lia | reflexivity ].
    + destruct (Z.gtb_spec h (A n)) as [Habove_n | Hnot_above].
      * rewrite LONG_small by lia; simpl.
        destruct (Z.geb_spec n (n + 1)) as [ | _]; [ lia | ].
        exists [n]; simpl; split; [ | split; [ now left | intros m [<- | []]; lia ] ].
        destruct (Z.eqb_spec h (A n)); [ lia | reflexivity ].
      * exists [n]; split; [ | split; [ now left | intros m [<- | []]; lia ] ].
        destruct (Z.eqb_spec h (A n)); [ reflexivity | lia ].
  - assert (Hentry : A Middle < h) by (apply Habove; lia).
    destruct (Z.ltb_spec h (A Middle)) as [ | _]; [ lia | ].
    destruct (Z.gtb_spec h (A Middle)) as [_ | ]; [ | lia ].
    rewrite LONG_small by lia.
    destruct (IH (Middle + 1)) as (reads & -> & Hin & Hreads); try lia.
    exists (Middle :: reads); simpl; split; [ reflexivity | split; [ now right | ] ].
    intros m [<- | Hm]; [ lia | now apply Hreads ].
Qed.

End BinarySearch.

(** The validator on a handler whose image has a registered table of [n]
    entries sorted ascending, [h] being the handler biased by the image
    base.  An entry is found valid; a value below the first entry or
    strictly between two adjacent entries is found invalid; in these cases
    only entries of the table are read.  A value above the last entry makes
    the search read [FunctionTable[n]], which is not an entry of the table,
    and the validator returns whether that ULONG equals [h]. *)
Theorem RtlIsValidHandler_table_search
    (w : World) (fuel : nat) (Handler FunctionTable Base n : Z) :
  RtlLookupFunctionTable w Handler = (FunctionTable, Base, n) ->
  FunctionTable <> 0 ->
  0 < n < 2 ^ 30 ->
  ascending w FunctionTable n ->
  (Z.to_nat (n + 1) < fuel)%nat ->
  let h := ULONG (Handler - Base) in
  let A i := FunctionTable_at w FunctionTable i in
  (entry_of w FunctionTable n h ->
   exists reads, RtlIsValidHandler_reads fuel w Handler = Some (reads, true)
                 /\ forall m, In m reads -> 0 <= m < n)
  /\ (h < A 0 ->
      exists reads, RtlIsValidHandler_reads fuel w Handler = Some (reads, false)
                    /\ forall m, In m reads -> 0 <= m < n)
  /\ (forall i, 0 <= i -> i + 1 < n -> A i < h < A (i + 1) ->
      exists reads, RtlIsValidHandler_reads fuel w Handler = Some (reads, false)
                    /\ forall m, In m reads -> 0 <= m < n)
  /\ (A (n - 1) < h ->
      exists reads, RtlIsValidHandler_reads fuel w Handler = Some (reads, h =? A n)
                    /\ In n reads).
Proof.
  intros Hlookup Htable Hn Hsorted Hfuel h A.
  assert (Hshape : RtlIsValidHandler_reads fuel w Handler
                   = RtlIsValidHandler_loop fuel w FunctionTable h 0 n).
  { unfold RtlIsValidHandler_reads; rewrite Hlookup.
    apply Z.eqb_neq in Htable; rewrite Htable.
    assert ((n =? 0) = false) as -> by (apply Z.eqb_neq; lia).
    assert ((n =? ALL_ONES) = false) as ->.
    { apply Z.eqb_neq; unfold ALL_ONES, ULONG.
      change ((-1) mod 2 ^ 32) with (2 ^ 32 - 1); lia. }
    rewrite andb_false_r; simpl.
    rewrite LONG_small by lia; fold h.
    destruct (RtlIsValidHandler_loop fuel w FunctionTable h 0 n) as [[reads [ | ]] | ];
      reflexivity. }
  assert (Hwithin : forall k, 0 <= k < n -> h <= A k ->
            exists reads b, RtlIsValidHandler_reads fuel w Handler = Some (reads, b)
                            /\ (forall m, In m reads -> 0 <= m < n)
                            /\ (b = true <-> entry_of w FunctionTable n h)).
  { intros k Hk Hhk; rewrite Hshape.
    apply (loop_within_table w FunctionTable n h Hn Hsorted fuel 0 n);
      [ lia | lia | lia | intros i Hi; lia | intros i Hi; lia | now exists k | ].
    replace (n - 0 + 1) with (n + 1) by lia; assumption. }
  split; [ | split; [ | split ] ].
  - intros (k & Hk & Hhit).
    destruct (Hwithin k Hk) as (reads & b & Hrun & Hreads & Hb); [ subst A; simpl; lia | ].
    exists reads; split; [ | assumption ].
    rewrite Hrun; f_equal; f_equal; apply Hb; now exists k.
  - intros Hbelow.
    destruct (Hwithin 0) as (reads & b & Hrun & Hreads & Hb); [ lia | lia | ].
    exists reads; split; [ | assumption ].
    rewrite Hrun; f_equal; f_equal.
    destruct b; [ | reflexivity ].
    destruct (proj1 Hb eq_refl) as (j & Hj & Hhit).
    assert (A 0 <= A j) by (apply Hsorted; lia).
    subst A; simpl in *; lia.
  - intros i Hi Hi1 Hbetween.
    destruct (Hwithin (i + 1)) as (reads & b & Hrun & Hreads & Hb); [ lia | lia | ].
    exists reads; split; [ | assumption ].
    rewrite Hrun; f_equal; f_equal.
    destruct b; [ | reflexivity ].
    destruct (proj1 Hb eq_refl) as (j & Hj & Hhit).
    destruct (Z.le_gt_cases j i) as [Hji | Hji].
    + assert (A j <= A i) by (apply Hsorted; lia).
      subst A; simpl in *; lia.
    + assert (A (i + 1) <= A j) by (apply Hsorted; lia).
      subst A; simpl in *; lia.
  - intros Habove.
    rewrite Hshape.
    destruct (loop_past_table w FunctionTable n h Hn fuel) with (Low := 0)
      as (reads & Hrun & Hin & _).
    + intros i Hi.
      apply Z.le_lt_trans with (A (n - 1)); [ apply Hsorted; lia | assumption ].
    + lia.
    + replace (n - 0 + 1) with (n + 1) by lia; assumption.
    + exists reads; split; assumption.
Qed.

Lemma three_entries_ascending : ascending three_entries_world 0x7000 3.
Proof.
  intros i j Hi Hij Hj.
  assert (Hi' : i = 0 \/ i = 1 \/ i = 2) by lia.
  assert (Hj' : j = 0 \/ j = 1 \/ j = 2) by lia.
  destruct Hi' as [-> | [-> | ->]], Hj' as [-> | [-> | ->]];
    try lia; vm_compute; discriminate.
Qed.

Lemma RtlIsValidHandler_table_search_witness :
  (exists reads,
     RtlIsValidHandler_reads 5 three_entries_world 0x402000 = Some (reads, true)
     /\ forall m, In m reads -> 0 <= m < 3)
  /\ (exists reads,
        RtlIsValidHandler_reads 5 three_entries_world 0x402800 = Some (reads, false)
        /\ forall m, In m reads -> 0 <= m < 3).
Proof.
  split.
  - refine (proj1 (RtlIsValidHandler_table_search three_entries_world 5 0x402000
                     0x7000 0x400000 3 eq_refl _ _ three_entries_ascending _) _).
    + discriminate.
    + lia.
    + simpl; lia.
    + exists 1; split; [ lia | reflexivity ].
  - refine (proj1 (proj2 (proj2
              (RtlIsValidHandler_table_search three_entries_world 5 0x402800
                 0x7000 0x400000 3 eq_refl _ _ three_entries_ascending _))) 1 _ _ _).
    + discriminate.
    + lia.
    + simpl; lia.
    + lia.
    + lia.
    + vm_compute; split; reflexivity.
Defined.

(** C2, the code at the failing input: the registered table has the single
    entry 0x1000; for the handler 0x402000, biased to 0x2000 and above that
    entry, the search reads index 0 and then index 1, which is no entry of
    the table, and the validator answers with what that ULONG holds: valid
    when it holds 0x2000, invalid when it holds 0. *)
Theorem C2_search_reads_past_the_table :
  RtlLookupFunctionTable past_table_world 0x402000 = (0x7000, 0x400000, 1)
  /\ FunctionTable_at past_table_world 0x7000 0 = 0x1000
  /\ RtlIsValidHandler_reads 5 past_table_world 0x402000 = Some ([0; 1], true)
  /\ RtlIsValidHandler 5 past_table_world 0x402000 = Some true
  /\ RtlIsValidHandler_reads 5 past_table_world_zero 0x402000 = Some ([0; 1], false).
Proof.
  repeat split.
Qed.

(** ** End-to-end runs *)

(** A chain [H1; H2] and a continuable record: H1 continues the search, H2
    continues execution.  Both handlers are called in order, the dispatcher
    returns true, and the exception flags are as they were. *)
Example dispatch_second_handler_resumes :
  let r := @RtlDispatchException i386_headers (scripted search_then_resume) 5
             0x5000 0x6000 two_handlers_world sample_stack in
  Dispatch.events r
    = [ExecuteHandlerForException 0x3000 0x401000;
       ExecuteHandlerForException 0x3010 0x402000]
  /\ Dispatch.exit r = Some (Dispatch.Return true)
  /\ get_ExceptionFlags (Dispatch.world r) 0x5000
     = get_ExceptionFlags two_handlers_world 0x5000.
Proof.
  repeat split.
Qed.

(** An unwind to H2 on the chain [H1; H2] with no exception record
    supplied: the handler of H1 is called once and H1 is unlinked, then
    ZwContinue is called on the adjusted context and does not come back; the
    handler of H2 is not called.  The record built for the unwind has the code STATUS_UNWIND
    and the unwinding flag. *)
Example unwind_to_second_frame :
  let r := @RtlUnwind i386_headers (scripted (fun _ => search)) 5
             0x3010 0 0 77 two_handlers_world sample_activation in
  Unwind.events r
    = [ExecuteHandlerForUnwind 0x3000 0x401000; UnlinkHandler 0x3000;
       CallZwContinue
         {| ContextFlags := 0x00010007; Esp := 0x0000F010; Eax := 77;
            Registers := fun _ => 0 |} false]
  /\ Unwind.exit r = Some Unwind.NoReturn
  /\ ExceptionRecords (Unwind.world r) 0x0000EF00
     = {| ExceptionCode := 0xC0000027; ExceptionFlags := 0x2; ExceptionRecord := 0;
          ExceptionAddress := 0x00402000; NumberParameters := 0 |}
  /\ RtlpGetRegistrationHead (Unwind.world r) = 0x3010.
Proof.
  repeat split.
Qed.

(** Calls that come back.  In the dispatcher, the case
    ExceptionContinueExecution has no [break] after its raise: when H1
    continues execution on a record that is not continuable and the raise of
    STATUS_NONCONTINUABLE_EXCEPTION comes back, the search goes on with H2,
    and the dispatcher returns false at the end of the chain.  In the unwind,
    when the system call after the loop comes back, the routine returns by
    its last line. *)
Example calls_that_come_back :
  let d := @RtlDispatchException i386_headers (returning resume_then_search) 5
             0x5000 0x6000 two_handlers_noncontinuable_world sample_stack in
  let u := @RtlUnwind i386_headers (returning (fun _ => search)) 5
             0xFFFFFFFF 0 0 77 empty_chain_world sample_activation in
  (Dispatch.events d
   = [ExecuteHandlerForException 0x3000 0x401000;
      CallRtlRaiseException
        {| ExceptionCode := 0xC0000025; ExceptionFlags := 0x1;
           ExceptionRecord := 0x5000; ExceptionAddress := 0;
           NumberParameters := 0 |};
      ExecuteHandlerForException 0x3010 0x402000]
   /\ Dispatch.exit d = Some (Dispatch.Return false)
   /\ Dispatch.RegistrationPointer (Dispatch.locals d) = 0xFFFFFFFF)
  /\ Unwind.events u
     = [CallZwContinue
          {| ContextFlags := 0x00010007; Esp := 0x0000F010; Eax := 77;
             Registers := fun _ => 0 |} false]
  /\ Unwind.exit u = Some Unwind.Return.
Proof.
  repeat split.
Qed.

(** ** The validator, whatever the table holds *)

(** No table is registered for the image of the handler, or the table is
    registered with length zero: the validator cannot verify and answers
    valid.  The lookup answers the pair (-1, -1), for an image that should
    have no handlers: the validator answers invalid.  In both cases no
    memory is read. *)
Theorem RtlIsValidHandler_without_search
    (fuel : nat) (w : World) (Handler FunctionTable Base n : Z) :
  RtlLookupFunctionTable w Handler = (FunctionTable, Base, n) ->
  (FunctionTable = 0 \/ n = 0 ->
   RtlIsValidHandler_reads fuel w Handler = Some ([], true))
  /\ (FunctionTable = ALL_ONES -> n = ALL_ONES ->
      RtlIsValidHandler_reads fuel w Handler = Some ([], false)).
Proof.
  intros Hlookup; unfold RtlIsValidHandler_reads; rewrite Hlookup; split.
  - intros [-> | ->]; [ reflexivity | ].
    now rewrite Z.eqb_refl, andb_false_r.
  - intros -> ->; reflexivity.
Qed.

Lemma RtlIsValidHandler_without_search_witness :
  RtlIsValidHandler_reads 0 (one_handler_world 0) 0x401000 = Some ([], true)
  /\ RtlIsValidHandler_reads 0 no_handlers_world 0x401000 = Some ([], false).
Proof.
  split.
  - apply (proj1 (RtlIsValidHandler_without_search 0 (one_handler_world 0) 0x401000
                    0 0 0 eq_refl)).
    now left.
  - apply (proj2 (RtlIsValidHandler_without_search 0 no_handlers_world 0x401000
                    0xFFFFFFFF 0x400000 0xFFFFFFFF eq_refl)); reflexivity.
Defined.

(** [High] is a LONG: a table registered with a length of 2^31 or more
    starts the search with [High] negative, so the loop is not entered and
    every handler of the image is found invalid, entries of the table
    included, without a read. *)
Theorem RtlIsValidHandler_length_is_signed
    (fuel : nat) (w : World) (Handler FunctionTable Base n : Z) :
  RtlLookupFunctionTable w Handler = (FunctionTable, Base, n) ->
  FunctionTable <> 0 ->
  2 ^ 31 <= n < 2 ^ 32 ->
  RtlIsValidHandler_reads (S fuel) w Handler = Some ([], false).
Proof.
  intros Hlookup Htable Hn; unfold RtlIsValidHandler_reads; rewrite Hlookup.
  apply Z.eqb_neq in Htable; rewrite Htable.
  assert ((n =? 0) = false) as -> by (apply Z.eqb_neq; lia).
  simpl negb; simpl andb.
  destruct ((FunctionTable =? ALL_ONES) && (n =? ALL_ONES)); [ reflexivity | ].
  assert (HHigh : LONG n = n - 2 ^ 32).
  { unfold LONG.
    replace (n + 2 ^ 31) with ((n - 2 ^ 31) + 1 * 2 ^ 32) by lia.
    rewrite Z.mod_add by lia.
    rewrite Z.mod_small; lia. }
  rewrite HHigh; cbn [RtlIsValidHandler_loop].
  assert ((n - 2 ^ 32 >=? 0) = false) as ->; [ | reflexivity ].
  destruct (Z.geb_spec (n - 2 ^ 32) 0); [ lia | reflexivity ].
Qed.

Lemma RtlIsValidHandler_length_is_signed_witness :
  FunctionTable_at signed_length_world 0x7000 0 = ULONG (0x401000 - 0x400000)
  /\ RtlIsValidHandler_reads 5 signed_length_world 0x401000 = Some ([], false).
Proof.
  split; [ reflexivity | ].
  apply (RtlIsValidHandler_length_is_signed 4 signed_length_world 0x401000
           0x7000 0x400000 0x80000001 eq_refl); [ discriminate | lia ].
Defined.

(** More fuel does not change the result of a search that ended. *)
Lemma RtlIsValidHandler_loop_more_fuel (w : World) (FunctionTable h : Z) (fuel : nat) :
  forall (more : nat) Low High r,
    RtlIsValidHandler_loop fuel w FunctionTable h Low High = Some r ->
    RtlIsValidHandler_loop (fuel + more) w FunctionTable h Low High = Some r.
Proof.
  induction fuel as [ | fuel IH]; intros more Low High r; [ discriminate | ].
  cbn [RtlIsValidHandler_loop Nat.add].
  destruct (High >=? Low); [ | auto ].
  destruct (h <? _).
  { destruct (RtlIsValidHandler_loop fuel _ _ _ _ _) as [r0 | ] eqn:Hrun; [ | discriminate ].
    now rewrite (IH more _ _ _ Hrun). }
  destruct (h >? _); [ | auto ].
  destruct (RtlIsValidHandler_loop fuel _ _ _ _ _) as [r0 | ] eqn:Hrun; [ | discriminate ].
  now rewrite (IH more _ _ _ Hrun).
Qed.

Section SearchBound.
Variables (w : World) (FunctionTable n h : Z).
Hypothesis Hlength : 0 <= n < 2 ^ 30.

Local Abbreviation A := (FunctionTable_at w FunctionTable).

(** Every probe halves the interval: an interval of fewer than 2^k indices
    is searched in at most k probes, all inside the interval, and the answer
    is valid exactly when the last probe held the handler. *)
Lemma loop_halves (k : nat) :
  forall Low High,
    0 <= Low -> High <= n ->
    High - Low + 1 < 2 ^ Z.of_nat k ->
    exists reads b,
      RtlIsValidHandler_loop (S k) w FunctionTable h Low High = Some (reads, b)
      /\ (length reads <= k)%nat
      /\ (forall m, In m reads -> Low <= m <= High)
      /\ (b = true -> exists m, In m reads /\ A m = h)
      /\ (b = false -> forall m, In m reads -> A m <> h).
Proof.
  induction k as [ | k IH]; intros Low High HLow HHigh Hsize.
  - cbn [RtlIsValidHandler_loop].
    destruct (Z.geb_spec High Low) as [Hge | Hlt]; [ simpl in Hsize; lia | ].
    exists [], false; split; [ reflexivity | split; [ auto | ] ].
    split; [ intros m [] | split; [ discriminate | intros _ m [] ] ].
  - rewrite Nat2Z.inj_succ, Z.pow_succ_r in Hsize by lia.
    cbn [RtlIsValidHandler_loop].
    destruct (Z.geb_spec High Low) as [Hge | Hlt].
    2:{ exists [], false; split; [ reflexivity | split; [ simpl; lia | ] ].
        split; [ intros m [] | split; [ discriminate | intros _ m [] ] ]. }
    rewrite Middle_is_half by lia.
    set (Middle := (Low + High) / 2).
    assert (HMiddle : Low + High = 2 * Middle + (Low + High) mod 2
                      /\ 0 <= (Low + High) mod 2 < 2).
    { split; [ apply Z.div_mod; lia | apply Z.mod_pos_bound; lia ]. }
    fold (A Middle).
    destruct (Z.ltb_spec h (A Middle)) as [Hbelow | Hnot_below].
    + rewrite LONG_small by lia.
      destruct (IH Low (Middle - 1)) as (reads & b & Hrun & Hlen & Hreads & Hyes & Hno);
        try lia.
      cbn [RtlIsValidHandler_loop] in Hrun; rewrite Hrun.
      exists (Middle :: reads), b; simpl; split; [ reflexivity | ].
      split; [ lia | split; [ | split ] ].
      * intros m [<- | Hm]; [ lia | specialize (Hreads m Hm); lia ].
      * intros Hb; destruct (Hyes Hb) as (m & Hm & Hhit); eauto.
      * intros Hb m [<- | Hm]; [ lia | now apply Hno ].
    + destruct (Z.gtb_spec h (A Middle)) as [Habove | Hnot_above].
      * rewrite LONG_small by lia.
        destruct (IH (Middle + 1) High) as (reads & b & Hrun & Hlen & Hreads & Hyes & Hno);
          try lia.
        cbn [RtlIsValidHandler_loop] in Hrun; rewrite Hrun.
        exists (Middle :: reads), b; simpl; split; [ reflexivity | ].
        split; [ lia | split; [ | split ] ].
        -- intros m [<- | Hm]; [ lia | specialize (Hreads m Hm); lia ].
        -- intros Hb; destruct (Hyes Hb) as (m & Hm & Hhit); eauto.
        -- intros Hb m [<- | Hm]; [ lia | now apply Hno ].
      * exists [Middle], true; simpl; split; [ reflexivity | ].
        split; [ lia | split; [ | split ] ].
        -- intros m [<- | []]; lia.
        -- intros _; exists Middle; split; [ now left | lia ].
        -- discriminate.
Qed.

End SearchBound.

(** The search ends, sorted table or not: for a registered table of [n]
    entries, 0 < n < 2^30, the validator answers after at most 31 probes,
    each at an index between 0 and [n]; it answers valid only when the last
    ULONG it probed is the handler biased by the image base, and invalid
    only when none of the ULONGs it probed is. *)
Theorem RtlIsValidHandler_search_is_bounded
    (w : World) (fuel : nat) (Handler FunctionTable Base n : Z) :
  RtlLookupFunctionTable w Handler = (FunctionTable, Base, n) ->
  FunctionTable <> 0 ->
  0 < n < 2 ^ 30 ->
  (32 <= fuel)%nat ->
  let h := ULONG (Handler - Base) in
  exists reads b,
    RtlIsValidHandler_reads fuel w Handler = Some (reads, b)
    /\ (length reads <= 31)%nat
    /\ (forall m, In m reads -> 0 <= m <= n)
    /\ (b = true -> exists m, In m reads /\ FunctionTable_at w FunctionTable m = h)
    /\ (b = false -> forall m, In m reads -> FunctionTable_at w FunctionTable m <> h).
Proof.
  intros Hlookup Htable Hn Hfuel h.
  assert (Hshape : RtlIsValidHandler_reads fuel w Handler
                   = RtlIsValidHandler_loop fuel w FunctionTable h 0 n).
  { unfold RtlIsValidHandler_reads; rewrite Hlookup.
    apply Z.eqb_neq in Htable; rewrite Htable.
    assert ((n =? 0) = false) as -> by (apply Z.eqb_neq; lia).
    assert ((n =? ALL_ONES) = false) as ->.
    { apply Z.eqb_neq; unfold ALL_ONES, ULONG.
      change ((-1) mod 2 ^ 32) with (2 ^ 32 - 1); lia. }
    rewrite andb_false_r; simpl.
    rewrite LONG_small by lia; fold h.
    destruct (RtlIsValidHandler_loop fuel w FunctionTable h 0 n) as [[reads [ | ]] | ];
      reflexivity. }
  destruct (loop_halves w FunctionTable n h ltac:(lia) 31 0 n)
    as (reads & b & Hrun & Hrest); [ lia | lia | simpl; lia | ].
  exists reads, b; split; [ | exact Hrest ].
  rewrite Hshape.
  replace fuel with (32 + (fuel - 32))%nat by lia.
  now apply RtlIsValidHandler_loop_more_fuel.
Qed.

Lemma RtlIsValidHandler_search_is_bounded_witness :
  exists reads b,
    RtlIsValidHandler_reads 32 three_entries_world 0x402800 = Some (reads, b)
    /\ (length reads <= 31)%nat
    /\ (forall m, In m reads -> 0 <= m <= 3)
    /\ (b = true ->
        exists m, In m reads
                  /\ FunctionTable_at three_entries_world 0x7000 m
                     = ULONG (0x402800 - 0x400000))
    /\ (b = false ->
        forall m, In m reads ->
                  FunctionTable_at three_entries_world 0x7000 m
                  <> ULONG (0x402800 - 0x400000)).
Proof.
  apply (RtlIsValidHandler_search_is_bounded three_entries_world 32 0x402800
           0x7000 0x400000 3 eq_refl); [ discriminate | lia | lia ].
Defined.

(** ** The dispatcher: the other exits and dispositions *)

Section DispatchReturns.
Context {headers : NtHeaders} {externals : Externals}.
Variables (fuel : nat) (record context : Z).

(** The switch leaves the loop with [Completion] true in one place only. *)
Lemma dispose_return_true (evs : list Event) (w : World) (l : Dispatch.Locals)
    (d : EXCEPTION_DISPOSITION) (evs' : list Event) (w' : World) (l' : Dispatch.Locals) :
  Dispatch.dispose record evs w l d = Dispatch.Done evs' w' l' (Dispatch.Return true) ->
  d = ExceptionContinueExecution /\ evs' = evs /\ w' = w /\ l' = l
  /\ flag_set (get_ExceptionFlags w record) EXCEPTION_NONCONTINUABLE = false.
Proof.
  unfold Dispatch.dispose, Dispatch.raise, Dispatch.continue_search, Dispatch.advance.
  destruct d; repeat first [ case_raise | case_flag ]; try discriminate;
    intros [= <- <- <-]; auto.
Qed.

Lemma iteration_return_true (w : World) (l : Dispatch.Locals)
    (evs : list Event) (w' : World) (l' : Dispatch.Locals) :
  Dispatch.iteration fuel record context w l
    = Some (Dispatch.Done evs w' l' (Dispatch.Return true)) ->
  (exists h, evs = [ExecuteHandlerForException (Dispatch.RegistrationPointer l') h])
  /\ flag_set (get_ExceptionFlags w' record) EXCEPTION_NONCONTINUABLE = false.
Proof.
  unfold Dispatch.iteration.
  destruct (_ =? EXCEPTION_CHAIN_END); [ discriminate | ].
  destruct (frame_fails _ _ _).
  { destruct (on_DpcStack _ _); discriminate. }
  destruct (RtlIsValidHandler _ _ _) as [[ | ] | ]; try discriminate.
  pose proof (call_handler_locals record context w l) as Hc.
  destruct (Dispatch.call_handler _ _ _ _) as [[[routine d] w1] l1].
  pose proof (leave_nested_locals record w1 l1) as Hn.
  destruct (Dispatch.leave_nested _ _ _) as [w2 l2].
  simpl in Hc, Hn; destruct Hc as (Hc & _), Hn as (Hn & _).
  intros [= Hstep].
  apply dispose_return_true in Hstep as (_ & -> & -> & -> & Hflag).
  split; [ exists routine; congruence | assumption ].
Qed.

End DispatchReturns.

(** RtlDispatchException returns true only from the call of a handler: the
    last thing the run did is call the handler of the frame the
    registration pointer stands at, and the noncontinuable flag is clear in
    the exception record at the return. *)
Theorem RtlDispatchException_true_return
    (headers : NtHeaders) (externals : Externals)
    (fuel : nat) (record context : Z) (w : World) (stack : Dispatch.Locals) :
  Dispatch.exit (RtlDispatchException fuel record context w stack)
    = Some (Dispatch.Return true) ->
  (exists before h,
     Dispatch.events (RtlDispatchException fuel record context w stack)
     = before ++ [ExecuteHandlerForException
                    (Dispatch.RegistrationPointer
                       (Dispatch.locals (RtlDispatchException fuel record context w stack)))
                    h])
  /\ flag_set (get_ExceptionFlags
                 (Dispatch.world (RtlDispatchException fuel record context w stack)) record)
       EXCEPTION_NONCONTINUABLE = false.
Proof.
  unfold RtlDispatchException.
  generalize (Dispatch.entry w stack) as l; generalize w as w0.
  generalize fuel at 1 3 5 7 as n.
  induction n as [ | n IH]; intros w0 l; simpl; [ discriminate | ].
  destruct (Dispatch.iteration fuel record context w0 l)
    as [[evs w' l' | evs w' l' e] | ] eqn:Hit; simpl; [ | | discriminate ].
  - intros Hexit; destruct (IH w' l' Hexit) as ((before & h & Hev) & Hflag).
    split; [ | assumption ].
    exists (evs ++ before), h; now rewrite Hev, app_assoc.
  - intros [= ->].
    apply iteration_return_true in Hit as ((h & ->) & Hflag).
    split; [ now exists [], h | assumption ].
Qed.

Lemma RtlDispatchException_true_return_witness :
  let r := @RtlDispatchException i386_headers (scripted search_then_resume) 5
             0x5000 0x6000 two_handlers_world sample_stack in
  (exists before h,
     Dispatch.events r
     = before ++ [ExecuteHandlerForException
                    (Dispatch.RegistrationPointer (Dispatch.locals r)) h])
  /\ flag_set (get_ExceptionFlags (Dispatch.world r) 0x5000) 0x1 = false.
Proof.
  apply (RtlDispatchException_true_return i386_headers (scripted search_then_resume) 5
           0x5000 0x6000 two_handlers_world sample_stack).
  reflexivity.
Defined.

(** The call of the handler and the test that follows it leave the local
    record of the raises and the registration pointer as they were. *)
Lemma dispatch_pass_locals `{NtHeaders} `{Externals} (record context : Z) (w : World)
    (l : Dispatch.Locals) (routine : Z) (d : EXCEPTION_DISPOSITION) (w1 : World)
    (l1 : Dispatch.Locals) :
  Dispatch.call_handler record context w l = (routine, d, w1, l1) ->
  let l2 := snd (Dispatch.leave_nested record w1 l1) in
  Dispatch.ExceptionRecord1 l2 = Dispatch.ExceptionRecord1 l
  /\ Dispatch.RegistrationPointer l2 = Dispatch.RegistrationPointer l.
Proof.
  intros Hcall l2.
  assert (Hl1 : Dispatch.ExceptionRecord1 l1 = Dispatch.ExceptionRecord1 l
                /\ Dispatch.RegistrationPointer l1 = Dispatch.RegistrationPointer l).
  { revert Hcall; unfold Dispatch.call_handler.
    destruct (if flag_set _ _ then _ else _) as [i wa].
    destruct (RtlpExecuteHandlerForException _ _ _ _ _ _) as [[d0 wb] dc].
    intros [= _ _ _ <-]; split; reflexivity. }
  subst l2; unfold Dispatch.leave_nested.
  destruct (_ =? _); simpl; exact Hl1.
Qed.

(** In the dispatcher a disposition that is none of ExceptionContinueExecution,
    ExceptionContinueSearch and ExceptionNestedException, ExceptionCollidedUnwind
    included, takes the default case: right after the handler call the
    dispatcher calls RtlRaiseException on a record with code
    STATUS_INVALID_DISPOSITION, flags EXCEPTION_NONCONTINUABLE, no
    parameters and the exception record as its inner record.  The run ends
    in that call when it does not come back; when it comes back, the search
    goes on with the next frame. *)
Theorem dispatch_invalid_disposition
    (headers : NtHeaders) (externals : Externals)
    (n fuel : nat) (record context : Z) (w : World) (l : Dispatch.Locals)
    (routine : Z) (d : EXCEPTION_DISPOSITION) (w1 : World) (l1 : Dispatch.Locals) :
  Dispatch.RegistrationPointer l <> EXCEPTION_CHAIN_END ->
  frame_fails (Dispatch.RegistrationPointer l) (Dispatch.LowLimit l) (Dispatch.HighLimit l)
    = false ->
  RtlIsValidHandler fuel w (Handler (RegistrationRecords w (Dispatch.RegistrationPointer l)))
    = Some true ->
  Dispatch.call_handler record context w l = (routine, d, w1, l1) ->
  d = ExceptionCollidedUnwind \/ d = ExceptionOtherDisposition ->
  let called := ExecuteHandlerForException (Dispatch.RegistrationPointer l) routine in
  let w2 := fst (Dispatch.leave_nested record w1 l1) in
  let l2 := snd (Dispatch.leave_nested record w1 l1) in
  let fresh := {| ExceptionCode := STATUS_INVALID_DISPOSITION;
                  ExceptionFlags := EXCEPTION_NONCONTINUABLE;
                  ExceptionRecord := record;
                  ExceptionAddress := ExceptionAddress (Dispatch.ExceptionRecord1 l);
                  NumberParameters := 0 |} in
  (RtlRaiseException w2 fresh = None ->
   Dispatch.loop (S n) fuel record context w l
   = {| Dispatch.events := [called; CallRtlRaiseException fresh];
        Dispatch.world := w2;
        Dispatch.locals := Dispatch.set_ExceptionRecord1 l2 fresh;
        Dispatch.exit := Some Dispatch.NoReturn |})
  /\ (forall w3 r3,
        RtlRaiseException w2 fresh = Some (w3, r3) ->
        Dispatch.iteration fuel record context w l
        = Some (Dispatch.Again [called; CallRtlRaiseException fresh] w3
                  (Dispatch.set_RegistrationPointer (Dispatch.set_ExceptionRecord1 l2 r3)
                     (Next (RegistrationRecords w3 (Dispatch.RegistrationPointer l)))))).
Proof.
  intros Hreg Hframe Hvalid Hcall Hd called w2 l2 fresh.
  pose proof (iteration_calls_handler fuel record context w l routine _ w1 l1
                Hreg Hframe Hvalid Hcall) as Hit.
  destruct (dispatch_pass_locals record context w l routine d w1 l1 Hcall) as (Hrec & Hptr).
  fold w2 l2 called in Hit; fold l2 in Hrec, Hptr.
  assert (Hstep : Dispatch.dispose record [called] w2 l2 d
                  = match RtlRaiseException w2 fresh with
                    | None => Dispatch.Done [called; CallRtlRaiseException fresh] w2
                                (Dispatch.set_ExceptionRecord1 l2 fresh) Dispatch.NoReturn
                    | Some (w3, r3) =>
                        Dispatch.Again [called; CallRtlRaiseException fresh] w3
                          (Dispatch.set_RegistrationPointer
                             (Dispatch.set_ExceptionRecord1 l2 r3)
                             (Next (RegistrationRecords w3 (Dispatch.RegistrationPointer l))))
                    end).
  { unfold Dispatch.dispose, Dispatch.raise, Dispatch.fresh_record, Dispatch.advance.
    rewrite Hrec; fold fresh; simpl; rewrite Hptr.
    destruct Hd as [-> | ->]; reflexivity. }
  rewrite Hstep in Hit; split.
  - intros Hgone; rewrite Hgone in Hit; now apply loop_done.
  - intros w3 r3 Hback; now rewrite Hback in Hit.
Qed.

Lemma dispatch_invalid_disposition_witness :
  let r := @RtlDispatchException i386_headers (scripted collided_script) 5
             0x5000 0x6000 three_handlers_world sample_stack in
  Dispatch.events r
  = [ExecuteHandlerForException 0x3000 0x401000;
     CallRtlRaiseException
       {| ExceptionCode := 0xC0000026; ExceptionFlags := 0x1;
          ExceptionRecord := 0x5000; ExceptionAddress := 0;
          NumberParameters := 0 |}]
  /\ Dispatch.exit r = Some Dispatch.NoReturn.
Proof.
  edestruct (dispatch_invalid_disposition i386_headers (scripted collided_script) 4 5
               0x5000 0x6000 three_handlers_world
               (@Dispatch.entry three_handlers_world sample_stack) 0x401000
               ExceptionCollidedUnwind)
    as [Hgone _].
  - discriminate.
  - reflexivity.
  - reflexivity.
  - reflexivity.
  - now left.
  - specialize (Hgone eq_refl).
    split; [ exact (f_equal Dispatch.events Hgone) | exact (f_equal Dispatch.exit Hgone) ].
Defined.

(** In the dispatcher, when the handler of a frame returns
    ExceptionContinueSearch: if the stack-invalid flag is set in the
    exception record after the call, the dispatcher returns false at once,
    with no further handler called; otherwise the search goes on with the
    frame's [Next] link, under the same limits. *)
Theorem dispatch_continue_search
    (headers : NtHeaders) (externals : Externals)
    (n fuel : nat) (record context : Z) (w : World) (l : Dispatch.Locals)
    (routine : Z) (w1 : World) (l1 : Dispatch.Locals) :
  Dispatch.RegistrationPointer l <> EXCEPTION_CHAIN_END ->
  frame_fails (Dispatch.RegistrationPointer l) (Dispatch.LowLimit l) (Dispatch.HighLimit l)
    = false ->
  RtlIsValidHandler fuel w (Handler (RegistrationRecords w (Dispatch.RegistrationPointer l)))
    = Some true ->
  Dispatch.call_handler record context w l
    = (routine, ExceptionContinueSearch, w1, l1) ->
  let called := ExecuteHandlerForException (Dispatch.RegistrationPointer l) routine in
  let w2 := fst (Dispatch.leave_nested record w1 l1) in
  let l2 := snd (Dispatch.leave_nested record w1 l1) in
  (flag_set (get_ExceptionFlags w2 record) EXCEPTION_STACK_INVALID = true ->
   Dispatch.loop (S n) fuel record context w l
   = {| Dispatch.events := [called]; Dispatch.world := w2; Dispatch.locals := l2;
        Dispatch.exit := Some (Dispatch.Return false) |})
  /\ (flag_set (get_ExceptionFlags w2 record) EXCEPTION_STACK_INVALID = false ->
      Dispatch.iteration fuel record context w l
      = Some (Dispatch.Again [called] w2
                (Dispatch.set_RegistrationPointer l2
                   (Next (RegistrationRecords w2 (Dispatch.RegistrationPointer l)))))
      /\ Dispatch.LowLimit l2 = Dispatch.LowLimit l
      /\ Dispatch.HighLimit l2 = Dispatch.HighLimit l).
Proof.
  intros Hreg Hframe Hvalid Hcall called w2 l2.
  pose proof (iteration_calls_handler fuel record context w l routine _ w1 l1
                Hreg Hframe Hvalid Hcall) as Hit.
  destruct (dispatch_pass_locals record context w l routine _ w1 l1 Hcall) as (_ & Hptr).
  pose proof (call_handler_locals record context w l) as Hc.
  pose proof (leave_nested_locals record w1 l1) as Hn.
  rewrite Hcall in Hc; simpl in Hc, Hn.
  fold w2 l2 called in Hit; fold l2 in Hptr, Hn.
  unfold Dispatch.dispose, Dispatch.continue_search, Dispatch.advance in Hit.
  rewrite Hptr in Hit.
  split; intros Hflag; rewrite Hflag in Hit.
  - now apply loop_done.
  - split; [ assumption | ].
    destruct Hc as (_ & _ & Hc1 & Hc2), Hn as (_ & Hn1 & Hn2 & _).
    split; congruence.
Qed.

Lemma dispatch_continue_search_witness :
  let suspect := {| disposition := ExceptionContinueSearch; names := None; raises := 0x8 |} in
  let r := @RtlDispatchException i386_headers (scripted (fun _ => suspect)) 5
             0x5000 0x6000 two_handlers_world sample_stack in
  Dispatch.events r = [ExecuteHandlerForException 0x3000 0x401000]
  /\ Dispatch.exit r = Some (Dispatch.Return false)
  /\ Dispatch.RegistrationPointer (Dispatch.locals r) = 0x3000.
Proof.
  intros suspect r.
  edestruct (dispatch_continue_search i386_headers (scripted (fun _ => suspect)) 4 5
               0x5000 0x6000 two_handlers_world
               (@Dispatch.entry two_handlers_world sample_stack) 0x401000)
    as [Hsuspect _].
  - discriminate.
  - reflexivity.
  - reflexivity.
  - reflexivity.
  - specialize (Hsuspect eq_refl).
    split; [ exact (f_equal Dispatch.events Hsuspect) | ].
    split; [ exact (f_equal Dispatch.exit Hsuspect) | ].
    exact (f_equal (fun r => Dispatch.RegistrationPointer (Dispatch.locals r)) Hsuspect).
Defined.

(** The case ExceptionContinueExecution of the dispatcher has no [break]
    after its raise.  When the handler of a frame continues execution on a
    record that is not continuable and the call of RtlRaiseException comes
    back, control falls into the case ExceptionContinueSearch: the dispatcher
    returns false at once if the stack-invalid flag is set in the state the
    call left, and otherwise goes on with the frame's [Next] link; it does
    not return true. *)
Theorem dispatch_raise_comes_back
    (headers : NtHeaders) (externals : Externals)
    (n fuel : nat) (record context : Z) (w : World) (l : Dispatch.Locals)
    (routine : Z) (w1 : World) (l1 : Dispatch.Locals) (w3 : World) (r3 : EXCEPTION_RECORD) :
  Dispatch.RegistrationPointer l <> EXCEPTION_CHAIN_END ->
  frame_fails (Dispatch.RegistrationPointer l) (Dispatch.LowLimit l) (Dispatch.HighLimit l)
    = false ->
  RtlIsValidHandler fuel w (Handler (RegistrationRecords w (Dispatch.RegistrationPointer l)))
    = Some true ->
  Dispatch.call_handler record context w l
    = (routine, ExceptionContinueExecution, w1, l1) ->
  let called := ExecuteHandlerForException (Dispatch.RegistrationPointer l) routine in
  let w2 := fst (Dispatch.leave_nested record w1 l1) in
  let l2 := snd (Dispatch.leave_nested record w1 l1) in
  let fresh := {| ExceptionCode := STATUS_NONCONTINUABLE_EXCEPTION;
                  ExceptionFlags := EXCEPTION_NONCONTINUABLE;
                  ExceptionRecord := record;
                  ExceptionAddress := ExceptionAddress (Dispatch.ExceptionRecord1 l);
                  NumberParameters := 0 |} in
  let l3 := Dispatch.set_ExceptionRecord1 l2 r3 in
  flag_set (get_ExceptionFlags w2 record) EXCEPTION_NONCONTINUABLE = true ->
  RtlRaiseException w2 fresh = Some (w3, r3) ->
  (flag_set (get_ExceptionFlags w3 record) EXCEPTION_STACK_INVALID = true ->
   Dispatch.loop (S n) fuel record context w l
   = {| Dispatch.events := [called; CallRtlRaiseException fresh];
        Dispatch.world := w3; Dispatch.locals := l3;
        Dispatch.exit := Some (Dispatch.Return false) |})
  /\ (flag_set (get_ExceptionFlags w3 record) EXCEPTION_STACK_INVALID = false ->
      Dispatch.iteration fuel record context w l
      = Some (Dispatch.Again [called; CallRtlRaiseException fresh] w3
                (Dispatch.set_RegistrationPointer l3
                   (Next (RegistrationRecords w3 (Dispatch.RegistrationPointer l)))))).
Proof.
  intros Hreg Hframe Hvalid Hcall called w2 l2 fresh l3 Hset Hback.
  pose proof (iteration_calls_handler fuel record context w l routine _ w1 l1
                Hreg Hframe Hvalid Hcall) as Hit.
  destruct (dispatch_pass_locals record context w l routine _ w1 l1 Hcall) as (Hrec & Hptr).
  fold w2 l2 called in Hit; fold l2 in Hrec, Hptr.
  unfold Dispatch.dispose, Dispatch.raise, Dispatch.fresh_record in Hit.
  rewrite Hset, Hrec in Hit; fold fresh in Hit; rewrite Hback in Hit.
  unfold Dispatch.continue_search, Dispatch.advance in Hit; simpl in Hit.
  rewrite Hptr in Hit; fold l3 in Hit.
  split; intros Hflag; rewrite Hflag in Hit.
  - now apply loop_done.
  - assumption.
Qed.

Lemma dispatch_raise_comes_back_witness :
  let X := returning resume_then_search in
  let w := two_handlers_noncontinuable_world in
  @Dispatch.iteration i386_headers X 5 0x5000 0x6000 w (@Dispatch.entry w sample_stack)
  = Some (Dispatch.Again
            [ExecuteHandlerForException 0x3000 0x401000;
             CallRtlRaiseException
               {| ExceptionCode := 0xC0000025; ExceptionFlags := 0x1;
                  ExceptionRecord := 0x5000; ExceptionAddress := 0;
                  NumberParameters := 0 |}]
            (or_ExceptionFlags w 0x5000 0)
            (Dispatch.set_RegistrationPointer
               (Dispatch.set_ExceptionRecord1
                  (snd (@Dispatch.leave_nested i386_headers 0x5000
                          (or_ExceptionFlags w 0x5000 0)
                          (Dispatch.set_call (@Dispatch.entry w sample_stack)
                             {| DISPATCHER_CONTEXT.RegistrationPointer := 0 |} 0)))
                  {| ExceptionCode := 0xC0000025; ExceptionFlags := 0x1;
                     ExceptionRecord := 0x5000; ExceptionAddress := 0;
                     NumberParameters := 0 |})
               0x3010)).
Proof.
  intros X w.
  refine (proj2 (dispatch_raise_comes_back i386_headers X 0 5 0x5000 0x6000 w
                   (@Dispatch.entry w sample_stack) 0x401000 _ _ _ _ _ _ _ _ _ _) _);
    try reflexivity; discriminate.
Defined.

(** ** The frames whose handlers are called *)

(** A frame that passes the stack test is aligned and within the limits. *)
Lemma frame_passes `{NtHeaders} (f Low High : Z) :
  frame_fails f Low High = false ->
  Z.land f 3 = 0 /\ in_limits f (Low, High).
Proof.
  unfold frame_fails, in_limits; simpl; intros Hpass.
  apply orb_false_iff in Hpass as (Hpass & Haligned).
  apply orb_false_iff in Hpass as (Hlow & Hhigh).
  apply negb_false_iff, Z.eqb_eq in Haligned.
  apply Z.ltb_ge in Hlow.
  destruct (Z.gtb_spec (ULONG (f + sizeof_EXCEPTION_REGISTRATION_RECORD)) High);
    [ discriminate | auto ].
Qed.

Section CalledFrames.
Context {headers : NtHeaders} {externals : Externals}.

(** The switch of the dispatcher adds at most a raise to the events. *)
Lemma dispatch_dispose_events (record : Z) (evs : list Event) (w : World)
    (l : Dispatch.Locals) (d : EXCEPTION_DISPOSITION) :
  Dispatch.step_events (Dispatch.dispose record evs w l d) = evs
  \/ exists r, Dispatch.step_events (Dispatch.dispose record evs w l d)
               = evs ++ [CallRtlRaiseException r].
Proof.
  unfold Dispatch.dispose, Dispatch.raise, Dispatch.continue_search, Dispatch.advance.
  destruct d; repeat first [ case_raise | case_flag ]; simpl; eauto.
Qed.

(** A pass of the dispatcher calls the handler of the frame the
    registration pointer stands at, if it calls one, and only when the frame
    passed the stack test and the validator. *)
Lemma dispatch_iteration_called (fuel : nat) (record context : Z) (w : World)
    (l : Dispatch.Locals) (s : Dispatch.Step) (f h : Z) :
  Dispatch.iteration fuel record context w l = Some s ->
  In (ExecuteHandlerForException f h) (Dispatch.step_events s) ->
  f = Dispatch.RegistrationPointer l
  /\ f <> EXCEPTION_CHAIN_END
  /\ frame_fails f (Dispatch.LowLimit l) (Dispatch.HighLimit l) = false
  /\ RtlIsValidHandler fuel w (Handler (RegistrationRecords w f)) = Some true
  /\ (flag_set (NtGlobalFlag w) FLG_ENABLE_EXCEPTION_LOGGING = false ->
      h = Handler (RegistrationRecords w f)).
Proof.
  unfold Dispatch.iteration.
  destruct (Z.eqb_spec (Dispatch.RegistrationPointer l) EXCEPTION_CHAIN_END) as [ | Hreg];
    [ intros [= <-] [] | ].
  destruct (frame_fails _ _ _) eqn:Hframe.
  { destruct (on_DpcStack _ _); intros [= <-]; simpl; [ intros [ | []] | intros [] ].
    discriminate. }
  destruct (RtlIsValidHandler _ _ _) as [[ | ] | ] eqn:Hvalid;
    [ | intros [= <-] [] | discriminate ].
  assert (Hroutine : flag_set (NtGlobalFlag w) FLG_ENABLE_EXCEPTION_LOGGING = false ->
            fst (fst (fst (Dispatch.call_handler record context w l)))
            = Handler (RegistrationRecords w (Dispatch.RegistrationPointer l))).
  { intros Hoff; unfold Dispatch.call_handler; rewrite Hoff.
    now destruct (RtlpExecuteHandlerForException _ _ _ _ _ _) as [[d0 wb] dc]. }
  destruct (Dispatch.call_handler _ _ _ _) as [[[routine d] w1] l1].
  destruct (Dispatch.leave_nested _ _ _) as [w2 l2].
  simpl in Hroutine.
  intros [= <-] Hin.
  assert (Hcalled : ExecuteHandlerForException f h
                    = ExecuteHandlerForException (Dispatch.RegistrationPointer l) routine).
  { destruct (dispatch_dispose_events record
                [ExecuteHandlerForException (Dispatch.RegistrationPointer l) routine]
                w2 l2 d) as [Hev | (r & Hev)]; rewrite Hev in Hin.
    - destruct Hin as [Hin | []]; now symmetry.
    - destruct Hin as [Hin | [Hin | []]]; [ now symmetry | discriminate ]. }
  injection Hcalled as -> ->.
  repeat split; auto.
Qed.

(** Every frame whose handler a run of the dispatcher calls is aligned and
    lies within the limits the run had or within the DPC stack. *)
Lemma dispatch_loop_called (fuel : nat) (record context : Z) (f h : Z) (n : nat) :
  forall (w : World) (l : Dispatch.Locals),
    In (ExecuteHandlerForException f h)
       (Dispatch.events (Dispatch.loop n fuel record context w l)) ->
    Z.land f 3 = 0 /\ f <> EXCEPTION_CHAIN_END
    /\ (keeps_DpcStack externals ->
        in_limits f (Dispatch.LowLimit l, Dispatch.HighLimit l)
        \/ in_limits f (DpcStack_limits w)).
Proof.
  induction n as [ | n IH]; intros w l; simpl; [ intros [] | ].
  destruct (Dispatch.iteration fuel record context w l)
    as [[evs w' l' | evs w' l' e] | ] eqn:Hit; simpl; [ | | intros [] ].
  - intros Hin; apply in_app_or in Hin as [Hin | Hin].
    + destruct (dispatch_iteration_called fuel record context w l _ f h Hit Hin)
        as (-> & Hend & Hpass & _).
      apply frame_passes in Hpass as (Haligned & Hlimits); auto.
    + destruct (IH w' l' Hin) as (Haligned & Hend & Hlimits).
      split; [ assumption | split; [ assumption | ] ].
      intros Hkeeps; specialize (Hlimits Hkeeps).
      destruct (dispatch_iteration_again fuel record context Hkeeps w l evs w' l' Hit)
        as (Hd & [(_ & Hlow & Hhigh) | (_ & _ & _ & Hsw)]).
      * rewrite Hlow, Hhigh, (DpcStack_limits_eq w w' Hd) in Hlimits; assumption.
      * unfold dispatch_switched in Hsw.
        rewrite Hsw, (DpcStack_limits_eq w w' Hd) in Hlimits.
        right; now destruct Hlimits.
  - intros Hin.
    destruct (dispatch_iteration_called fuel record context w l _ f h Hit Hin)
      as (-> & Hend & Hpass & _).
    apply frame_passes in Hpass as (Haligned & Hlimits); auto.
Qed.

(** The switch of the unwind keeps the events it is given in front. *)
Lemma examine_frame_called (record : Z) (front : list Event) (w : World)
    (l : Unwind.Locals) (f h : Z) :
  In (ExecuteHandlerForUnwind f h)
     (Unwind.step_events (Unwind.examine_frame record front w l)) ->
  In (ExecuteHandlerForUnwind f h) front
  \/ (f = Unwind.RegistrationPointer l
      /\ frame_fails f (Unwind.LowLimit l) (Unwind.HighLimit l) = false
      /\ h = Handler (RegistrationRecords w f)).
Proof.
  unfold Unwind.examine_frame.
  destruct (frame_fails _ _ _) eqn:Hframe.
  { destruct (on_DpcStack _ _).
    - simpl; intros Hin; apply in_app_or in Hin as [Hin | [Hin | []]];
        [ now left | discriminate ].
    - unfold Unwind.raise; case_raise; simpl; intros Hin;
        apply in_app_or in Hin as [Hin | [Hin | []]]; auto; discriminate. }
  pose proof (unwind_call_handler_routine record w l) as Hroutine.
  destruct (Unwind.call_handler _ _ _) as [[[routine d] w1] l1]; simpl in Hroutine.
  unfold Unwind.dispose, Unwind.raise, Unwind.next_record.
  destruct d; try case_raise; simpl; rewrite <- ?app_assoc; simpl; intros Hin;
    apply in_app_or in Hin as [Hin | Hin]; auto;
    repeat (destruct Hin as [Hin | Hin]; try discriminate);
    try contradiction;
    injection Hin as <- <-; right; auto.
Qed.

(** A pass of the unwind calls the handler of the frame the registration
    pointer stands at, if it calls one, and only when the frame passed the
    stack test. *)
Lemma unwind_iteration_called (target record : Z) (w : World) (l : Unwind.Locals)
    (f h : Z) :
  In (ExecuteHandlerForUnwind f h)
     (Unwind.step_events (Unwind.iteration target record w l)) ->
  f = Unwind.RegistrationPointer l
  /\ f <> EXCEPTION_CHAIN_END
  /\ frame_fails f (Unwind.LowLimit l) (Unwind.HighLimit l) = false.
Proof.
  unfold Unwind.iteration.
  destruct (Z.eqb_spec (Unwind.RegistrationPointer l) EXCEPTION_CHAIN_END) as [ | Hreg].
  { unfold Unwind.after_loop, Unwind.continue.
    destruct (_ =? _);
      [ destruct (ZwContinue _ _ _) as [[w1 c1] | ]
      | destruct (ZwRaiseException _ _ _ _) as [[w1 c1] | ] ];
      simpl; intros [Hin | []]; discriminate. }
  assert (Hfrom : forall front w0 l0,
            (forall e, In e front -> e <> ExecuteHandlerForUnwind f h) ->
            Unwind.RegistrationPointer l0 = Unwind.RegistrationPointer l ->
            Unwind.LowLimit l0 = Unwind.LowLimit l ->
            Unwind.HighLimit l0 = Unwind.HighLimit l ->
            In (ExecuteHandlerForUnwind f h)
               (Unwind.step_events (Unwind.examine_frame record front w0 l0)) ->
            f = Unwind.RegistrationPointer l
            /\ f <> EXCEPTION_CHAIN_END
            /\ frame_fails f (Unwind.LowLimit l) (Unwind.HighLimit l) = false).
  { intros front w0 l0 Hfront Hptr Hlow Hhigh Hin.
    apply examine_frame_called in Hin as [Hin | (Hf & Hpass & _)].
    - now apply Hfront in Hin.
    - rewrite Hptr in Hf; rewrite Hlow, Hhigh in Hpass; subst f; auto. }
  destruct (_ =? target).
  { unfold Unwind.continue.
    destruct (ZwContinue _ _ _) as [[w1 c1] | ].
    - apply Hfrom; try reflexivity.
      intros e [<- | []]; discriminate.
    - simpl; intros [Hin | []]; discriminate. }
  destruct (negb _ && _).
  { unfold Unwind.raise; case_raise.
    - apply Hfrom; try reflexivity.
      intros e0 [<- | []]; discriminate.
    - simpl; intros [Hin | []]; discriminate. }
  apply Hfrom; try reflexivity.
  intros e [].
Qed.

Lemma unwind_loop_called (target record : Z) (f h : Z) (n : nat) :
  forall (w : World) (l : Unwind.Locals),
    In (ExecuteHandlerForUnwind f h)
       (Unwind.events (Unwind.loop n target record w l)) ->
    Z.land f 3 = 0 /\ f <> EXCEPTION_CHAIN_END
    /\ (keeps_DpcStack externals ->
        in_limits f (Unwind.LowLimit l, Unwind.HighLimit l)
        \/ in_limits f (DpcStack_limits w)).
Proof.
  induction n as [ | n IH]; intros w l; simpl; [ intros [] | ].
  destruct (Unwind.iteration target record w l) as [evs w' l' | evs w' l' e] eqn:Hit;
    simpl.
  - intros Hin; apply in_app_or in Hin as [Hin | Hin].
    + pose proof (unwind_iteration_called target record w l f h) as Hcalled.
      rewrite Hit in Hcalled; destruct (Hcalled Hin) as (-> & Hend & Hpass).
      apply frame_passes in Hpass as (Haligned & Hlimits); auto.
    + destruct (IH w' l' Hin) as (Haligned & Hend & Hlimits).
      split; [ assumption | split; [ assumption | ] ].
      intros Hkeeps; specialize (Hlimits Hkeeps).
      destruct (unwind_iteration_again target record Hkeeps w l evs w' l' Hit)
        as (Hd & [(_ & Hlow & Hhigh) | (_ & _ & _ & Hsw)]).
      * rewrite Hlow, Hhigh, (DpcStack_limits_eq w w' Hd) in Hlimits; assumption.
      * unfold unwind_switched in Hsw.
        rewrite Hsw, (DpcStack_limits_eq w w' Hd) in Hlimits.
        right; now destruct Hlimits.
  - intros Hin.
    pose proof (unwind_iteration_called target record w l f h) as Hcalled.
    rewrite Hit in Hcalled; destruct (Hcalled Hin) as (-> & Hend & Hpass).
    apply frame_passes in Hpass as (Haligned & Hlimits); auto.
Qed.

End CalledFrames.

Lemma setup_world_prcb `{NtHeaders} (TargetFrame ExceptionRecord : Z) (w : World)
    (a : Unwind.Activation) :
  KeGetCurrentPrcb (Unwind.setup_world TargetFrame ExceptionRecord w a)
  = KeGetCurrentPrcb w.
Proof.
  unfold Unwind.setup_world.
  destruct (ExceptionRecord =? 0), (negb (TargetFrame =? 0)); reflexivity.
Qed.

(** Neither routine calls the handler of a frame that is not 4-byte
    aligned, nor a handler at EXCEPTION_CHAIN_END; and, the external routines
    leaving the top of the processor's DPC stack where it is, every frame
    whose handler a run of RtlDispatchException or of RtlUnwind calls lies
    within the stack limits the run started with or within the
    KERNEL_STACK_SIZE region below the top of the DPC stack. *)
Theorem handlers_are_called_on_checked_frames
    (headers : NtHeaders) (externals : Externals) :
  (forall fuel record context w stack f h,
     In (ExecuteHandlerForException f h)
        (Dispatch.events (RtlDispatchException fuel record context w stack)) ->
     Z.land f 3 = 0 /\ f <> EXCEPTION_CHAIN_END
     /\ (keeps_DpcStack externals ->
         in_limits f (RtlpGetStackLimits w) \/ in_limits f (DpcStack_limits w)))
  /\ (forall fuel target ip record value w a f h,
        In (ExecuteHandlerForUnwind f h)
           (Unwind.events (RtlUnwind fuel target ip record value w a)) ->
        Z.land f 3 = 0 /\ f <> EXCEPTION_CHAIN_END
        /\ (keeps_DpcStack externals ->
            in_limits f (RtlpGetStackLimits w) \/ in_limits f (DpcStack_limits w))).
Proof.
  split.
  - intros fuel record context w stack f h Hin.
    unfold RtlDispatchException in Hin.
    apply dispatch_loop_called in Hin as (Haligned & Hend & Hlimits).
    auto.
  - intros fuel target ip record value w a f h Hin.
    unfold RtlUnwind in Hin.
    apply unwind_loop_called in Hin as (Haligned & Hend & Hlimits).
    split; [ assumption | split; [ assumption | ] ].
    intros Hkeeps; specialize (Hlimits Hkeeps).
    rewrite (DpcStack_limits_eq w (Unwind.setup_world target record w a)) in Hlimits
      by (now rewrite setup_world_prcb).
    exact Hlimits.
Qed.

Lemma handlers_are_called_on_checked_frames_witness :
  In (ExecuteHandlerForException 0x80003000 0x401000)
     (Dispatch.events
        (@RtlDispatchException i386_headers (scripted (fun _ => search)) 5
           0x5000 0x6000 dpc_world sample_stack))
  /\ Z.land 0x80003000 3 = 0
  /\ (@in_limits i386_headers 0x80003000 (0x2000, 0x10000)
      \/ @in_limits i386_headers 0x80003000 (0x80001000, 0x80004000)).
Proof.
  assert (Hin : In (ExecuteHandlerForException 0x80003000 0x401000)
                   (Dispatch.events
                      (@RtlDispatchException i386_headers (scripted (fun _ => search)) 5
                         0x5000 0x6000 dpc_world sample_stack)))
    by (right; left; reflexivity).
  split; [ exact Hin | ].
  destruct (proj1 (handlers_are_called_on_checked_frames i386_headers
                     (scripted (fun _ => search)))
              5%nat 0x5000 0x6000 dpc_world sample_stack 0x80003000 0x401000 Hin)
    as (Haligned & _ & Hlimits).
  split; [ exact Haligned | ].
  exact (Hlimits (scripted_keeps_DpcStack (fun _ => search))).
Defined.

(** ** When the limits are switched *)

Lemma on_DpcStack_true `{NtHeaders} (w : World) (reg : Z) :
  on_DpcStack w reg = true ->
  let Top := DpcStack (KeGetCurrentPrcb w) in
  Z.land reg 3 = 0
  /\ DISPATCH_LEVEL <= KeGetCurrentIrql w
  /\ DpcRoutineActive (KeGetCurrentPrcb w) = true
  /\ ULONG (Top - KERNEL_STACK_SIZE) <= reg
  /\ ULONG (reg + sizeof_EXCEPTION_REGISTRATION_RECORD) <= Top.
Proof.
  intros Hon Top; unfold on_DpcStack in Hon; fold Top in Hon.
  destruct (Z.eqb_spec (Z.land reg 3) 0) as [Haligned | ]; [ | discriminate ].
  destruct (Z.geb_spec (KeGetCurrentIrql w) DISPATCH_LEVEL) as [Hirql | ];
    [ | discriminate ].
  simpl in Hon.
  apply andb_true_iff in Hon as (Hon & Hlow).
  apply andb_true_iff in Hon as (Hactive & Hhigh).
  apply Z.leb_le in Hhigh; apply Z.geb_le in Hlow.
  repeat split; auto.
Qed.

Lemma examine_frame_switch (headers : NtHeaders) (externals : Externals)
    (record : Z) (front : list Event) (w : World) (l : Unwind.Locals) (lo hi : Z) :
  ~ In (SwitchToDpcStack lo hi) front ->
  In (SwitchToDpcStack lo hi)
     (Unwind.step_events (Unwind.examine_frame record front w l)) ->
  Unwind.examine_frame record front w l
  = Unwind.Again (front ++ [SwitchToDpcStack lo hi]) w (Unwind.set_limits l (lo, hi))
  /\ (lo, hi) = DpcStack_limits w
  /\ frame_fails (Unwind.RegistrationPointer l) (Unwind.LowLimit l) (Unwind.HighLimit l)
     = true
  /\ on_DpcStack w (Unwind.RegistrationPointer l) = true.
Proof.
  intros Hfront; unfold Unwind.examine_frame.
  destruct (frame_fails _ _ _).
  { destruct (on_DpcStack _ _).
    - simpl; intros Hin; apply in_app_or in Hin as [Hin | [[= <- <-] | []]];
        [ contradiction | ].
      repeat split; reflexivity.
    - unfold Unwind.raise; case_raise; simpl; intros Hin;
        apply in_app_or in Hin as [Hin | [Hin | []]]; try contradiction; discriminate. }
  destruct (Unwind.call_handler _ _ _) as [[[routine d] w1] l1].
  unfold Unwind.dispose, Unwind.raise, Unwind.next_record.
  destruct d; try case_raise; simpl; rewrite <- ?app_assoc; simpl; intros Hin;
    apply in_app_or in Hin as [Hin | Hin]; try contradiction;
    repeat (destruct Hin as [Hin | Hin]; try discriminate); contradiction.
Qed.

(** The limits are switched only for a frame of the DPC stack.  A pass of
    either loop that switches the limits calls no handler, unlinks nothing
    and leaves the registration pointer where it was; the limits it installs
    are the KERNEL_STACK_SIZE region below the top of the processor's DPC
    stack, and the frame had failed the stack test, is 4-byte aligned and
    lies within that region, at DISPATCH_LEVEL or above with a DPC routine
    active.  In the dispatcher the switch is all the pass does.  In the
    unwind the switch is all the pass does unless one of the target tests
    made its call and the call came back: then that call comes first, and
    the frame is tested in the state the call left. *)
Theorem limits_are_switched_only_on_DpcStack
    (headers : NtHeaders) (externals : Externals) (w : World) (lo hi : Z) :
  let on_DPC (w0 : World) (reg : Z) :=
    hi = DpcStack (KeGetCurrentPrcb w0)
    /\ lo = ULONG (DpcStack (KeGetCurrentPrcb w0) - KERNEL_STACK_SIZE)
    /\ Z.land reg 3 = 0
    /\ DISPATCH_LEVEL <= KeGetCurrentIrql w0
    /\ DpcRoutineActive (KeGetCurrentPrcb w0) = true
    /\ lo <= reg
    /\ ULONG (reg + sizeof_EXCEPTION_REGISTRATION_RECORD) <= hi in
  (forall fuel record context l s,
     Dispatch.iteration fuel record context w l = Some s ->
     In (SwitchToDpcStack lo hi) (Dispatch.step_events s) ->
     s = Dispatch.Again [SwitchToDpcStack lo hi] w (Dispatch.set_limits l (lo, hi))
     /\ frame_fails (Dispatch.RegistrationPointer l) (Dispatch.LowLimit l)
          (Dispatch.HighLimit l) = true
     /\ on_DPC w (Dispatch.RegistrationPointer l))
  /\ (forall target record l,
        In (SwitchToDpcStack lo hi)
           (Unwind.step_events (Unwind.iteration target record w l)) ->
        exists front w0 l0,
          Unwind.iteration target record w l
          = Unwind.Again (front ++ [SwitchToDpcStack lo hi]) w0
              (Unwind.set_limits l0 (lo, hi))
          /\ ((front = [] /\ w0 = w /\ l0 = l)
              \/ (Unwind.RegistrationPointer l = target
                  /\ front = [CallZwContinue (Unwind.ContextRecord1 l) false]
                  /\ exists c,
                       ZwContinue w (Unwind.ContextRecord1 l) false = Some (w0, c)
                       /\ l0 = Unwind.set_call l c (Unwind.DispatcherContext l))
              \/ (target <> 0 /\ target < Unwind.RegistrationPointer l
                  /\ exists raised r,
                       front = [CallRtlRaiseException raised]
                       /\ ExceptionCode raised = STATUS_INVALID_UNWIND_TARGET
                       /\ RtlRaiseException w raised = Some (w0, r)
                       /\ l0 = Unwind.set_ExceptionRecord2 l r))
          /\ Unwind.RegistrationPointer l0 = Unwind.RegistrationPointer l
          /\ frame_fails (Unwind.RegistrationPointer l) (Unwind.LowLimit l)
               (Unwind.HighLimit l) = true
          /\ on_DPC w0 (Unwind.RegistrationPointer l))
  /\ (forall target record l,
        Unwind.RegistrationPointer l <> target ->
        target = 0 \/ Unwind.RegistrationPointer l <= target ->
        In (SwitchToDpcStack lo hi)
           (Unwind.step_events (Unwind.iteration target record w l)) ->
        Unwind.iteration target record w l
        = Unwind.Again [SwitchToDpcStack lo hi] w (Unwind.set_limits l (lo, hi))).
Proof.
  intros on_DPC.
  assert (Hfacts : forall w0 reg, (lo, hi) = DpcStack_limits w0 ->
            on_DpcStack w0 reg = true -> on_DPC w0 reg).
  { intros w0 reg [= -> ->] Hon.
    destruct (on_DpcStack_true w0 reg Hon) as (Haligned & Hirql & Hactive & Hlow & Hhigh).
    unfold on_DPC; repeat split; auto. }
  assert (Hunwind : forall target record l,
            In (SwitchToDpcStack lo hi)
               (Unwind.step_events (Unwind.iteration target record w l)) ->
            exists front w0 l0,
              Unwind.iteration target record w l
              = Unwind.Again (front ++ [SwitchToDpcStack lo hi]) w0
                  (Unwind.set_limits l0 (lo, hi))
              /\ ((front = [] /\ w0 = w /\ l0 = l)
                  \/ (Unwind.RegistrationPointer l = target
                      /\ front = [CallZwContinue (Unwind.ContextRecord1 l) false]
                      /\ exists c,
                           ZwContinue w (Unwind.ContextRecord1 l) false = Some (w0, c)
                           /\ l0 = Unwind.set_call l c (Unwind.DispatcherContext l))
                  \/ (target <> 0 /\ target < Unwind.RegistrationPointer l
                      /\ exists raised r,
                           front = [CallRtlRaiseException raised]
                           /\ ExceptionCode raised = STATUS_INVALID_UNWIND_TARGET
                           /\ RtlRaiseException w raised = Some (w0, r)
                           /\ l0 = Unwind.set_ExceptionRecord2 l r))
              /\ Unwind.RegistrationPointer l0 = Unwind.RegistrationPointer l
              /\ frame_fails (Unwind.RegistrationPointer l) (Unwind.LowLimit l)
                   (Unwind.HighLimit l) = true
              /\ on_DPC w0 (Unwind.RegistrationPointer l)).
  { intros target record l; unfold Unwind.iteration.
    destruct (Unwind.RegistrationPointer l =? EXCEPTION_CHAIN_END).
    { unfold Unwind.after_loop, Unwind.continue.
      destruct (target =? EXCEPTION_CHAIN_END);
        [ destruct (ZwContinue _ _ _) as [[w1 c1] | ]
        | destruct (ZwRaiseException _ _ _ _) as [[w1 c1] | ] ];
        simpl; intros [Hin | []]; discriminate. }
    destruct (Z.eqb_spec (Unwind.RegistrationPointer l) target) as [Htarget | Htarget].
    { unfold Unwind.continue.
      destruct (ZwContinue _ _ _) as [[w1 c1] | ] eqn:Hcall;
        [ | simpl; intros [Hin | []]; discriminate ].
      intros Hin; apply examine_frame_switch in Hin as (Hstep & Hlimits & Hfails & Hon);
        [ | intros [Hfront | []]; discriminate ].
      exists [CallZwContinue (Unwind.ContextRecord1 l) false], w1,
        (Unwind.set_call l c1 (Unwind.DispatcherContext l)).
      split; [ exact Hstep | split; [ right; left; eauto | ] ].
      split; [ reflexivity | split; [ exact Hfails | ] ].
      now apply Hfacts. }
    destruct (negb (target =? 0) && (target <? Unwind.RegistrationPointer l)) eqn:Hbelow.
    { apply andb_true_iff in Hbelow as (Hsupplied & Hbelow).
      apply negb_true_iff, Z.eqb_neq in Hsupplied; apply Z.ltb_lt in Hbelow.
      unfold Unwind.raise; case_raise;
        [ | simpl; intros [Hin | []]; discriminate ].
      intros Hin; apply examine_frame_switch in Hin as (Hstep & Hlimits & Hfails & Hon);
        [ | intros [Hfront | []]; discriminate ].
      eexists; eexists; eexists.
      split; [ exact Hstep | split ].
      - right; right; split; [ assumption | split; [ assumption | ] ].
        eexists; eexists; split; [ reflexivity | split; [ reflexivity | eauto ] ].
      - split; [ reflexivity | split; [ exact Hfails | now apply Hfacts ] ]. }
    intros Hin; apply examine_frame_switch in Hin as (Hstep & Hlimits & Hfails & Hon);
      [ | intros [] ].
    exists [], w, l.
    split; [ exact Hstep | split; [ now left | ] ].
    split; [ reflexivity | split; [ exact Hfails | now apply Hfacts ] ]. }
  split; [ | split; [ exact Hunwind | ] ].
  - intros fuel record context l s; unfold Dispatch.iteration.
    destruct (_ =? EXCEPTION_CHAIN_END); [ intros [= <-] [] | ].
    destruct (frame_fails _ _ _).
    { destruct (on_DpcStack _ _) eqn:Hon; intros [= <-]; simpl; [ | intros [] ].
      intros [[= <- <-] | []].
      split; [ reflexivity | split; [ reflexivity | ] ].
      apply Hfacts; [ reflexivity | assumption ]. }
    destruct (RtlIsValidHandler _ _ _) as [[ | ] | ];
      [ | intros [= <-] [] | discriminate ].
    destruct (Dispatch.call_handler _ _ _ _) as [[[routine d] w1] l1].
    destruct (Dispatch.leave_nested _ _ _) as [w2 l2].
    intros [= <-] Hin; exfalso.
    destruct (dispatch_dispose_events record
                [ExecuteHandlerForException (Dispatch.RegistrationPointer l) routine]
                w2 l2 d) as [Hev | (r & Hev)]; rewrite Hev in Hin.
    + destruct Hin as [Hin | []]; discriminate.
    + destruct Hin as [Hin | [Hin | []]]; discriminate.
  - intros target record l Htarget Hbelow Hin.
    destruct (Hunwind target record l Hin)
      as (front & w0 & l0 & Hstep & [(-> & -> & ->) | [(Heq & _) | (Hsupplied & Hlt & _)]] & _).
    + exact Hstep.
    + contradiction.
    + destruct Hbelow as [-> | Hle]; [ contradiction | lia ].
Qed.

Lemma limits_are_switched_only_on_DpcStack_witness :
  let X := returning (fun _ => search) in
  let w := @Unwind.setup_world i386_headers 0x80003000 0 dpc_world sample_activation in
  let l := @Unwind.entry i386_headers X 0x80003000 0 77 dpc_world sample_activation in
  exists w0 l0,
    @Unwind.iteration i386_headers X 0x80003000 (Unwind.working_record 0 sample_activation)
      w l
    = Unwind.Again
        [CallZwContinue (Unwind.ContextRecord1 l) false;
         SwitchToDpcStack 0x80001000 0x80004000] w0
        (Unwind.set_limits l0 (0x80001000, 0x80004000))
    /\ 2 <= KeGetCurrentIrql w0
    /\ 0x80001000 <= 0x80003000.
Proof.
  intros X w l.
  destruct (proj1 (proj2 (limits_are_switched_only_on_DpcStack i386_headers X w
                            0x80001000 0x80004000))
              0x80003000 (Unwind.working_record 0 sample_activation) l)
    as (front & w0 & l0 & Hstep & Hfront & _ & _ & _ & _ & _ & Hirql & _ & Hlow & _).
  - right; left; reflexivity.
  - exists w0, l0; split; [ | split; [ exact Hirql | exact Hlow ] ].
    rewrite Hstep; f_equal.
    destruct Hfront as [(Habs & _) | [(_ & -> & _) | (_ & Habs & _)]].
    + exfalso; rewrite Habs in Hstep; discriminate.
    + reflexivity.
    + exfalso; vm_compute in Habs; discriminate.
Defined.

(** ** The unwind: the setup, the other dispositions and the return *)

Lemma flag_set_lor_more (f b c : Z) :
  flag_set b c = true -> flag_set (Z.lor f b) c = true.
Proof.
  unfold flag_set; intros Hb.
  apply negb_true_iff, Z.eqb_neq in Hb.
  apply negb_true_iff, Z.eqb_neq.
  rewrite Z.land_lor_distr_l; intros Hzero.
  apply Z.lor_eq_0_iff in Hzero; tauto.
Qed.

Lemma flag_set_lor_other (f b c : Z) :
  Z.land b c = 0 -> flag_set (Z.lor f b) c = flag_set f c.
Proof.
  unfold flag_set; intros Hdisj.
  now rewrite Z.land_lor_distr_l, Hdisj, Z.lor_0_r.
Qed.

(** The working exception record after the setup: the record supplied, or
    the local one, with the unwind flags ORed into its flags. *)
Lemma setup_world_record `{NtHeaders} (TargetFrame record : Z) (w : World)
    (a : Unwind.Activation) :
  let r0 := if record =? 0
            then {| ExceptionCode := STATUS_UNWIND; ExceptionFlags := 0;
                    ExceptionRecord := 0;
                    ExceptionAddress := Unwind.ReturnAddress a;
                    NumberParameters := 0 |}
            else ExceptionRecords w record in
  ExceptionRecords (Unwind.setup_world TargetFrame record w a)
    (Unwind.working_record record a)
  = {| ExceptionCode := ExceptionCode r0;
       ExceptionFlags :=
         Z.lor (ExceptionFlags r0)
           (if negb (TargetFrame =? 0) then EXCEPTION_UNWINDING
            else Z.lor EXCEPTION_UNWINDING EXCEPTION_EXIT_UNWIND);
       ExceptionRecord := ExceptionRecord r0;
       ExceptionAddress := ExceptionAddress r0;
       NumberParameters := NumberParameters r0 |}.
Proof.
  unfold Unwind.setup_world, Unwind.working_record.
  destruct (record =? 0), (negb (TargetFrame =? 0));
    unfold or_ExceptionFlags, set_ExceptionFlags, store_ExceptionRecord, get_ExceptionFlags;
    cbn -[Z.lor]; rewrite ?Z.eqb_refl; reflexivity.
Qed.

(** The exception record the handlers of an unwind are given.  The
    unwinding flag is set in it, and the exit-unwind flag too when no target
    frame is supplied; the flags are ORed in, so a flag the caller's record
    had stays set.  When the caller supplies no record, the record is the
    local one, built with code STATUS_UNWIND, no inner record, no parameters
    and the return address of RtlUnwind as its address; when the caller
    supplies one, its other fields are left as they are.  No other exception
    record and nothing of the chain is written. *)
Theorem RtlUnwind_setup_record
    (headers : NtHeaders) (TargetFrame record : Z) (w : World) (a : Unwind.Activation) :
  EXCEPTION_UNWINDING <> 0 ->
  EXCEPTION_EXIT_UNWIND <> 0 ->
  let p := Unwind.working_record record a in
  let w' := Unwind.setup_world TargetFrame record w a in
  let r := ExceptionRecords w' p in
  flag_set (ExceptionFlags r) EXCEPTION_UNWINDING = true
  /\ (TargetFrame = 0 -> flag_set (ExceptionFlags r) EXCEPTION_EXIT_UNWIND = true)
  /\ (record = 0 ->
      p = Unwind.ExceptionRecord1_address a
      /\ ExceptionCode r = STATUS_UNWIND
      /\ ExceptionRecord r = 0
      /\ ExceptionAddress r = Unwind.ReturnAddress a
      /\ NumberParameters r = 0
      /\ (TargetFrame <> 0 -> ExceptionFlags r = EXCEPTION_UNWINDING))
  /\ (record <> 0 ->
      p = record
      /\ ExceptionCode r = ExceptionCode (ExceptionRecords w record)
      /\ ExceptionRecord r = ExceptionRecord (ExceptionRecords w record)
      /\ ExceptionAddress r = ExceptionAddress (ExceptionRecords w record)
      /\ NumberParameters r = NumberParameters (ExceptionRecords w record)
      /\ (forall bit,
            flag_set (ExceptionFlags (ExceptionRecords w record)) bit = true ->
            flag_set (ExceptionFlags r) bit = true)
      /\ (TargetFrame <> 0 ->
          Z.land EXCEPTION_UNWINDING EXCEPTION_EXIT_UNWIND = 0 ->
          flag_set (ExceptionFlags r) EXCEPTION_EXIT_UNWIND
          = flag_set (ExceptionFlags (ExceptionRecords w record)) EXCEPTION_EXIT_UNWIND))
  /\ (forall q, q <> p -> ExceptionRecords w' q = ExceptionRecords w q)
  /\ RegistrationRecords w' = RegistrationRecords w
  /\ RtlpGetRegistrationHead w' = RtlpGetRegistrationHead w.
Proof.
  intros Hunwinding Hexit p w' r.
  pose proof (setup_world_record TargetFrame record w a) as Hr.
  fold p w' r in Hr; cbv zeta in Hr.
  assert (Hflags : ExceptionFlags r
                   = Z.lor (ExceptionFlags
                              (if record =? 0
                               then {| ExceptionCode := STATUS_UNWIND; ExceptionFlags := 0;
                                       ExceptionRecord := 0;
                                       ExceptionAddress := Unwind.ReturnAddress a;
                                       NumberParameters := 0 |}
                               else ExceptionRecords w record))
                       (if negb (TargetFrame =? 0) then EXCEPTION_UNWINDING
                        else Z.lor EXCEPTION_UNWINDING EXCEPTION_EXIT_UNWIND))
    by (rewrite Hr; reflexivity).
  assert (Hboth : flag_set (Z.lor EXCEPTION_UNWINDING EXCEPTION_EXIT_UNWIND)
                    EXCEPTION_UNWINDING = true
                  /\ flag_set (Z.lor EXCEPTION_UNWINDING EXCEPTION_EXIT_UNWIND)
                       EXCEPTION_EXIT_UNWIND = true).
  { split; [ rewrite Z.lor_comm | ]; now apply flag_set_lor. }
  split; [ | split; [ | split; [ | split; [ | split; [ | split ] ] ] ] ].
  - rewrite Hflags; apply flag_set_lor_more.
    destruct (negb (TargetFrame =? 0)); [ | apply Hboth ].
    unfold flag_set; rewrite Z.land_diag.
    now apply negb_true_iff, Z.eqb_neq.
  - intros ->; rewrite Hflags; apply flag_set_lor_more; apply Hboth.
  - intros ->; rewrite Hflags, Hr; simpl.
    repeat split; try reflexivity.
    intros Htarget; apply Z.eqb_neq in Htarget; now rewrite Htarget.
  - intros Hrecord; apply Z.eqb_neq in Hrecord.
    rewrite Hflags, Hr; subst p; unfold Unwind.working_record; rewrite Hrecord.
    cbn [ExceptionCode ExceptionRecord ExceptionAddress NumberParameters].
    repeat split; try reflexivity.
    + intros bit Hbit; rewrite Z.lor_comm; now apply flag_set_lor_more.
    + intros Htarget Hdisj; apply Z.eqb_neq in Htarget; rewrite Htarget.
      now apply flag_set_lor_other.
  - intros q Hq; subst w' p; unfold Unwind.setup_world, Unwind.working_record in *.
    apply Z.eqb_neq in Hq.
    destruct (record =? 0), (negb (TargetFrame =? 0));
      unfold or_ExceptionFlags, set_ExceptionFlags, store_ExceptionRecord; simpl;
      now rewrite ?Hq.
  - subst w'; unfold Unwind.setup_world.
    destruct (record =? 0), (negb (TargetFrame =? 0)); reflexivity.
  - apply setup_world_head.
Qed.

Lemma RtlUnwind_setup_record_witness :
  let r := ExceptionRecords
             (@Unwind.setup_world i386_headers 0x3010 0 two_handlers_world sample_activation)
             0x0000EF00 in
  flag_set (ExceptionFlags r) 0x2 = true
  /\ ExceptionCode r = 0xC0000027
  /\ ExceptionAddress r = 0x00402000
  /\ ExceptionFlags r = 0x2.
Proof.
  destruct (RtlUnwind_setup_record i386_headers 0x3010 0 two_handlers_world
              sample_activation)
    as (Hflag & _ & Hlocal & _); [ discriminate | discriminate | ].
  destruct (Hlocal eq_refl) as (_ & Hcode & _ & Haddress & _ & Hflags).
  split; [ exact Hflag | split; [ exact Hcode | split; [ exact Haddress | ] ] ].
  apply Hflags; discriminate.
Defined.

(** In the unwind a disposition that is neither ExceptionContinueSearch nor
    ExceptionCollidedUnwind (ExceptionContinueExecution and
    ExceptionNestedException included) takes the default case: right after
    the handler call the unwind calls RtlRaiseException on a record with
    code STATUS_INVALID_DISPOSITION, flags EXCEPTION_NONCONTINUABLE, no
    parameters and the working exception record as its inner record.  The
    run ends in that call when it does not come back, the frame still
    linked; when it comes back, the frame is unlinked and the unwind goes on
    with its [Next] link. *)
Theorem unwind_invalid_disposition
    (headers : NtHeaders) (externals : Externals)
    (n : nat) (target record : Z) (w : World) (l : Unwind.Locals)
    (routine : Z) (d : EXCEPTION_DISPOSITION) (w1 : World) (l1 : Unwind.Locals) :
  Unwind.RegistrationPointer l <> EXCEPTION_CHAIN_END ->
  Unwind.RegistrationPointer l <> target ->
  (target = 0 \/ Unwind.RegistrationPointer l <= target) ->
  frame_fails (Unwind.RegistrationPointer l) (Unwind.LowLimit l) (Unwind.HighLimit l)
    = false ->
  Unwind.call_handler record w l = (routine, d, w1, l1) ->
  d = ExceptionContinueExecution \/ d = ExceptionNestedException
  \/ d = ExceptionOtherDisposition ->
  let frame := Unwind.RegistrationPointer l in
  let called := ExecuteHandlerForUnwind frame routine in
  let fresh := {| ExceptionCode := STATUS_INVALID_DISPOSITION;
                  ExceptionFlags := EXCEPTION_NONCONTINUABLE;
                  ExceptionRecord := record;
                  ExceptionAddress := ExceptionAddress (Unwind.ExceptionRecord2 l);
                  NumberParameters := 0 |} in
  (RtlRaiseException w1 fresh = None ->
   Unwind.loop (S n) target record w l
   = {| Unwind.events := [called; CallRtlRaiseException fresh];
        Unwind.world := w1;
        Unwind.locals := Unwind.set_ExceptionRecord2 l1 fresh;
        Unwind.exit := Some Unwind.NoReturn |})
  /\ (forall w3 r3,
        RtlRaiseException w1 fresh = Some (w3, r3) ->
        Unwind.iteration target record w l
        = Unwind.Again [called; CallRtlRaiseException fresh; UnlinkHandler frame]
            (RtlpUnlinkHandler w3 frame)
            (Unwind.set_RegistrationPointer (Unwind.set_ExceptionRecord2 l1 r3)
               (Next (RegistrationRecords w3 frame)))).
Proof.
  intros Hreg Htarget Hbelow Hframe Hcall Hd frame called fresh.
  pose proof (unwind_iteration_calls_handler target record w l routine d w1 l1
                Hreg Htarget Hbelow Hframe Hcall) as Hit.
  pose proof (unwind_call_handler_locals record w l) as Hc.
  rewrite Hcall in Hc; simpl in Hc; destruct Hc as (Hptr & _ & _ & Hrec).
  fold frame called in Hit; fold frame in Hptr.
  assert (Hstep : Unwind.dispose record [called] w1 l1 d
                  = match RtlRaiseException w1 fresh with
                    | None => Unwind.Done [called; CallRtlRaiseException fresh] w1
                                (Unwind.set_ExceptionRecord2 l1 fresh) Unwind.NoReturn
                    | Some (w3, r3) =>
                        Unwind.Again
                          [called; CallRtlRaiseException fresh; UnlinkHandler frame]
                          (RtlpUnlinkHandler w3 frame)
                          (Unwind.set_RegistrationPointer
                             (Unwind.set_ExceptionRecord2 l1 r3)
                             (Next (RegistrationRecords w3 frame)))
                    end).
  { unfold Unwind.dispose, Unwind.raise, Unwind.fresh_record, Unwind.next_record.
    rewrite Hrec; fold fresh; simpl; rewrite Hptr.
    destruct Hd as [-> | [-> | ->]]; reflexivity. }
  rewrite Hstep in Hit; split.
  - intros Hgone; rewrite Hgone in Hit; now apply unwind_loop_done.
  - intros w3 r3 Hback; now rewrite Hback in Hit.
Qed.

Lemma unwind_invalid_disposition_witness :
  let r := @RtlUnwind i386_headers (scripted (fun _ => resume)) 5 0 0 0 77
             two_handlers_world sample_activation in
  Unwind.events r
  = [ExecuteHandlerForUnwind 0x3000 0x401000;
     CallRtlRaiseException
       {| ExceptionCode := 0xC0000026; ExceptionFlags := 0x1;
          ExceptionRecord := 0x0000EF00; ExceptionAddress := 0;
          NumberParameters := 0 |}]
  /\ Unwind.exit r = Some Unwind.NoReturn
  /\ RtlpGetRegistrationHead (Unwind.world r) = 0x3000.
Proof.
  edestruct (unwind_invalid_disposition i386_headers (scripted (fun _ => resume)) 4 0
               (Unwind.working_record 0 sample_activation)
               (@Unwind.setup_world i386_headers 0 0 two_handlers_world sample_activation)
               (@Unwind.entry i386_headers (scripted (fun _ => resume)) 0 0 77
                  two_handlers_world sample_activation)
               0x401000 ExceptionContinueExecution)
    as [Hgone _].
  - discriminate.
  - discriminate.
  - now left.
  - reflexivity.
  - reflexivity.
  - now left.
  - specialize (Hgone eq_refl).
    split; [ exact (f_equal Unwind.events Hgone) | ].
    split; [ exact (f_equal Unwind.exit Hgone) | ].
    exact (f_equal (fun r => RtlpGetRegistrationHead (Unwind.world r)) Hgone).
Defined.

Section UnwindReturns.
Context {headers : NtHeaders} {externals : Externals}.
Variables (target record : Z).

(** The system call after the loop, as an event, and whether it came back. *)
Local Abbreviation last_call c :=
  (if target =? EXCEPTION_CHAIN_END then CallZwContinue c false
   else CallZwRaiseException record c false).

Local Abbreviation came_back w c :=
  (if target =? EXCEPTION_CHAIN_END then ZwContinue w c false <> None
   else ZwRaiseException w record c false <> None).

Lemma unwind_iteration_return (w : World) (l : Unwind.Locals)
    (evs : list Event) (w' : World) (l' : Unwind.Locals) :
  Unwind.iteration target record w l = Unwind.Done evs w' l' Unwind.Return ->
  Unwind.RegistrationPointer l' = EXCEPTION_CHAIN_END
  /\ evs = [last_call (Unwind.ContextRecord1 l)]
  /\ came_back w (Unwind.ContextRecord1 l).
Proof.
  unfold Unwind.iteration.
  destruct (Z.eqb_spec (Unwind.RegistrationPointer l) EXCEPTION_CHAIN_END) as [Hend | Hreg].
  { unfold Unwind.after_loop, Unwind.continue.
    destruct (target =? EXCEPTION_CHAIN_END).
    - destruct (ZwContinue _ _ _) as [[w1 c1] | ]; [ | discriminate ].
      intros [= <- _ <-]; repeat split; auto; discriminate.
    - destruct (ZwRaiseException _ _ _ _) as [[w1 c1] | ]; [ | discriminate ].
      intros [= <- _ <-]; repeat split; auto; discriminate. }
  destruct (_ =? target).
  { unfold Unwind.continue.
    destruct (ZwContinue _ _ _) as [[w1 c1] | ]; [ | discriminate ].
    intros Hit; apply examine_frame_done in Hit as (Hno & _); discriminate. }
  destruct (negb _ && _).
  { unfold Unwind.raise; case_raise; [ | discriminate ].
    intros Hit; apply examine_frame_done in Hit as (Hno & _); discriminate. }
  intros Hit; apply examine_frame_done in Hit as (Hno & _); discriminate.
Qed.

Lemma unwind_loop_return (n : nat) :
  forall (w : World) (l : Unwind.Locals),
    Unwind.exit (Unwind.loop n target record w l) = Some Unwind.Return ->
    Unwind.RegistrationPointer (Unwind.locals (Unwind.loop n target record w l))
      = EXCEPTION_CHAIN_END
    /\ exists before w0 c,
         Unwind.events (Unwind.loop n target record w l) = before ++ [last_call c]
         /\ came_back w0 c.
Proof.
  induction n as [ | n IH]; intros w l; simpl; [ discriminate | ].
  destruct (Unwind.iteration target record w l) as [evs w' l' | evs w' l' e] eqn:Hit;
    simpl.
  - intros Hexit; destruct (IH w' l' Hexit) as (Hend & before & w0 & c & Hev & Hback).
    split; [ assumption | ].
    exists (evs ++ before), w0, c; split; [ now rewrite Hev, app_assoc | assumption ].
  - intros [= ->].
    apply unwind_iteration_return in Hit as (Hend & -> & Hback).
    split; [ assumption | ].
    now exists [], w, (Unwind.ContextRecord1 l).
Qed.

End UnwindReturns.

(** RtlUnwind returns to its caller in one case only: the chain was walked
    to EXCEPTION_CHAIN_END and the system call made after the loop,
    ZwContinue if the target frame is EXCEPTION_CHAIN_END and ZwRaiseException
    on the working record otherwise, came back.  That call is the last thing
    the run did. *)
Theorem RtlUnwind_returns_only_after_the_last_call
    (headers : NtHeaders) (externals : Externals)
    (fuel : nat) (target ip record value : Z) (w : World) (a : Unwind.Activation) :
  Unwind.exit (RtlUnwind fuel target ip record value w a) = Some Unwind.Return ->
  Unwind.RegistrationPointer (Unwind.locals (RtlUnwind fuel target ip record value w a))
    = EXCEPTION_CHAIN_END
  /\ exists before w0 c,
       Unwind.events (RtlUnwind fuel target ip record value w a)
       = before ++ [if target =? EXCEPTION_CHAIN_END then CallZwContinue c false
                    else CallZwRaiseException (Unwind.working_record record a) c false]
       /\ (if target =? EXCEPTION_CHAIN_END then ZwContinue w0 c false <> None
           else ZwRaiseException w0 (Unwind.working_record record a) c false <> None).
Proof.
  unfold RtlUnwind; apply unwind_loop_return.
Qed.

Lemma RtlUnwind_returns_only_after_the_last_call_witness :
  let r := @RtlUnwind i386_headers (returning (fun _ => search)) 5 0 0 0 77
             two_handlers_world sample_activation in
  Unwind.exit r = Some Unwind.Return
  /\ Unwind.RegistrationPointer (Unwind.locals r) = 0xFFFFFFFF.
Proof.
  split; [ reflexivity | ].
  apply (RtlUnwind_returns_only_after_the_last_call i386_headers
           (returning (fun _ => search)) 5 0 0 0 77 two_handlers_world sample_activation).
  reflexivity.
Defined.

(** The test on the target frame has no [return] after its call.  When the
    registration pointer is the target frame and ZwContinue comes back, the
    pass goes on as for any other frame: the frame passing the stack test,
    the handler of the target frame itself is called, and if it continues
    the search the target frame is unlinked and the unwind moves past it. *)
Theorem unwind_continue_comes_back
    (headers : NtHeaders) (externals : Externals)
    (target record : Z) (w : World) (l : Unwind.Locals)
    (w1 : World) (c1 : CONTEXT) (routine : Z) (w2 : World) (l2 : Unwind.Locals) :
  Unwind.RegistrationPointer l <> EXCEPTION_CHAIN_END ->
  Unwind.RegistrationPointer l = target ->
  ZwContinue w (Unwind.ContextRecord1 l) false = Some (w1, c1) ->
  frame_fails target (Unwind.LowLimit l) (Unwind.HighLimit l) = false ->
  Unwind.call_handler record w1 (Unwind.set_call l c1 (Unwind.DispatcherContext l))
    = (routine, ExceptionContinueSearch, w2, l2) ->
  Unwind.iteration target record w l
  = Unwind.Again
      [CallZwContinue (Unwind.ContextRecord1 l) false;
       ExecuteHandlerForUnwind target routine; UnlinkHandler target]
      (RtlpUnlinkHandler w2 target)
      (Unwind.set_RegistrationPointer l2 (Next (RegistrationRecords w2 target))).
Proof.
  intros Hreg Htarget Hback Hframe Hcall.
  pose proof (unwind_call_handler_locals record w1
                (Unwind.set_call l c1 (Unwind.DispatcherContext l))) as Hc.
  rewrite Hcall in Hc; simpl in Hc; destruct Hc as (Hptr & _).
  unfold Unwind.iteration, Unwind.continue.
  apply Z.eqb_neq in Hreg; rewrite Hreg.
  rewrite Htarget, Z.eqb_refl, <- Htarget, Hback.
  unfold Unwind.examine_frame; simpl.
  rewrite Htarget, Hframe, <- Htarget, Hcall; simpl.
  unfold Unwind.next_record; simpl; now rewrite Hptr.
Qed.

Lemma unwind_continue_comes_back_witness :
  let X := returning (fun _ => search) in
  let w := @Unwind.setup_world i386_headers 0x3000 0 two_handlers_world sample_activation in
  Unwind.step_events
    (@Unwind.iteration i386_headers X 0x3000 (Unwind.working_record 0 sample_activation) w
       (@Unwind.entry i386_headers X 0x3000 0 77 two_handlers_world sample_activation))
  = [CallZwContinue
       {| ContextFlags := 0x00010007; Esp := 0x0000F010; Eax := 77;
          Registers := fun _ => 0 |} false;
     ExecuteHandlerForUnwind 0x3000 0x401000; UnlinkHandler 0x3000].
Proof.
  intros X w.
  rewrite (unwind_continue_comes_back i386_headers X 0x3000
             (Unwind.working_record 0 sample_activation) w
             (@Unwind.entry i386_headers X 0x3000 0 77 two_handlers_world sample_activation)
             w _ 0x401000 _ _ ltac:(discriminate) eq_refl eq_refl eq_refl eq_refl).
  reflexivity.
Defined.

(** The raise of STATUS_BAD_STACK has no [break] after it and the
    registration pointer is not moved.  When a frame fails the stack test,
    is not taken for a frame of the DPC stack, and RtlRaiseException comes
    back leaving the state as it was, every pass raises the same record
    again: the loop never ends, no handler is called and nothing is
    unlinked. *)
Theorem unwind_bad_stack_repeats
    (headers : NtHeaders) (externals : Externals)
    (target record : Z) (w : World) (l : Unwind.Locals) :
  Unwind.RegistrationPointer l <> EXCEPTION_CHAIN_END ->
  Unwind.RegistrationPointer l <> target ->
  (target = 0 \/ Unwind.RegistrationPointer l <= target) ->
  frame_fails (Unwind.RegistrationPointer l) (Unwind.LowLimit l) (Unwind.HighLimit l)
    = true ->
  on_DpcStack w (Unwind.RegistrationPointer l) = false ->
  (forall r, RtlRaiseException w r = Some (w, r)) ->
  let fresh := {| ExceptionCode := STATUS_BAD_STACK;
                  ExceptionFlags := EXCEPTION_NONCONTINUABLE;
                  ExceptionRecord := record;
                  ExceptionAddress := ExceptionAddress (Unwind.ExceptionRecord2 l);
                  NumberParameters := 0 |} in
  forall n,
    Unwind.events (Unwind.loop n target record w l)
    = repeat (CallRtlRaiseException fresh) n
    /\ Unwind.exit (Unwind.loop n target record w l) = None.
Proof.
  intros Hreg Htarget Hbelow Hfails Hon Hback fresh n.
  revert l Hreg Htarget Hbelow Hfails Hon fresh.
  induction n as [ | n IH]; intros l Hreg Htarget Hbelow Hfails Hon fresh;
    [ split; reflexivity | ].
  assert (Hit : Unwind.iteration target record w l
                = Unwind.Again [CallRtlRaiseException fresh] w
                    (Unwind.set_ExceptionRecord2 l fresh)).
  { rewrite unwind_iteration_examines by assumption.
    unfold Unwind.examine_frame; rewrite Hfails, Hon.
    unfold Unwind.raise, Unwind.fresh_record; fold fresh.
    now rewrite Hback. }
  simpl; rewrite Hit; simpl.
  destruct (IH (Unwind.set_ExceptionRecord2 l fresh)) as (Hev & Hexit); auto.
  simpl in Hev; fold fresh in Hev.
  now rewrite Hev, Hexit.
Qed.

Lemma unwind_bad_stack_repeats_witness :
  let X := returning (fun _ => search) in
  let r := @RtlUnwind i386_headers X 3 0 0 0 77 bad_head_world sample_activation in
  Unwind.events r
  = repeat (CallRtlRaiseException
              {| ExceptionCode := 0xC0000028; ExceptionFlags := 0x1;
                 ExceptionRecord := 0x0000EF00; ExceptionAddress := 0;
                 NumberParameters := 0 |}) 3
  /\ Unwind.exit r = None.
Proof.
  intros X r.
  apply (unwind_bad_stack_repeats i386_headers X 0
           (Unwind.working_record 0 sample_activation)
           (@Unwind.setup_world i386_headers 0 0 bad_head_world sample_activation)
           (@Unwind.entry i386_headers X 0 0 77 bad_head_world sample_activation));
    try reflexivity; try discriminate; now left.
Defined.

(** ** The dispatcher on a chain that ends *)

(** With 32 units of fuel the validator answers, whatever the memory
    holds, when the table registered for the handler is searchable. *)
Lemma RtlIsValidHandler_answers (fuel : nat) (w : World) (Handler : Z) :
  (32 <= fuel)%nat ->
  (let n := snd (RtlLookupFunctionTable w Handler) in
   0 <= n < 2 ^ 30 \/ 2 ^ 31 <= n < 2 ^ 32) ->
  exists b, RtlIsValidHandler fuel w Handler = Some b.
Proof.
  intros Hfuel Hn; unfold RtlIsValidHandler, RtlIsValidHandler_reads.
  destruct (RtlLookupFunctionTable w Handler) as [[FunctionTable Base] n]; simpl in Hn.
  destruct (negb (FunctionTable =? 0) && negb (n =? 0)) eqn:Htable; [ | now exists true ].
  destruct ((FunctionTable =? ALL_ONES) && (n =? ALL_ONES)); [ now exists false | ].
  apply andb_true_iff in Htable as (_ & Hlength).
  apply negb_true_iff, Z.eqb_neq in Hlength.
  set (h := ULONG (Handler - Base)).
  assert (Hrun : exists reads b,
            RtlIsValidHandler_loop fuel w FunctionTable h 0 (LONG n) = Some (reads, b)).
  { destruct Hn as [Hsmall | Hlarge].
    - rewrite LONG_small by lia.
      destruct (loop_halves w FunctionTable n h ltac:(lia) 31 0 n)
        as (reads & b & Hrun & _); [ lia | lia | simpl; lia | ].
      exists reads, b.
      replace fuel with (32 + (fuel - 32))%nat by lia.
      now apply RtlIsValidHandler_loop_more_fuel.
    - assert (HHigh : LONG n = n - 2 ^ 32).
      { unfold LONG.
        replace (n + 2 ^ 31) with ((n - 2 ^ 31) + 1 * 2 ^ 32) by lia.
        rewrite Z.mod_add by lia.
        rewrite Z.mod_small; lia. }
      rewrite HHigh.
      destruct fuel as [ | fuel]; [ lia | ].
      cbn [RtlIsValidHandler_loop].
      destruct (Z.geb_spec (n - 2 ^ 32) 0); [ lia | ].
      now exists [], false. }
  destruct Hrun as (reads & b & ->).
  exists b; now destruct b.
Qed.

Lemma called_frames_app (a b : list Event) :
  called_frames (a ++ b) = called_frames a ++ called_frames b.
Proof.
  induction a as [ | e a IH]; [ reflexivity | ].
  destruct e; simpl; now rewrite IH.
Qed.

Lemma agree_on_refl (frames : list Z) (w : World) : agree_on frames w w.
Proof.
  intros a _; reflexivity.
Qed.

Lemma agree_on_trans (frames : list Z) (w1 w2 w3 : World) :
  agree_on frames w1 w2 -> agree_on frames w2 w3 -> agree_on frames w1 w3.
Proof.
  intros H12 H23 a Ha; rewrite (H12 a Ha); now apply H23.
Qed.

(** The chain from [f] is the same in two states that agree on its frames. *)
Lemma chain_agrees `{NtHeaders} (frames : list Z) (w' w : World) (k : nat) :
  forall f,
    agree_on frames w' w ->
    incl (chain_frames (RegistrationRecords w) k f) frames ->
    links_to_end (RegistrationRecords w) k f ->
    links_to_end (RegistrationRecords w') k f
    /\ chain_frames (RegistrationRecords w') k f = chain_frames (RegistrationRecords w) k f.
Proof.
  induction k as [ | k IH]; intros f Hagree Hincl Hlinks; simpl in *; [ auto | ].
  destruct Hlinks as (Hreg & Hlinks).
  assert (Hf : RegistrationRecords w' f = RegistrationRecords w f)
    by (apply Hagree, Hincl; now left).
  rewrite Hf.
  destruct (IH (Next (RegistrationRecords w f)) Hagree) as (Hlinks' & Hframes); auto.
  { intros a Ha; apply Hincl; now right. }
  split; [ auto | now rewrite Hframes ].
Qed.

Section DispatchPasses.
Context {headers : NtHeaders} {externals : Externals}.
Variables (fuel : nat) (record context : Z).

(** What every routine the dispatcher calls keeps, and the dispatcher's
    own writes to the exception flags keep, a pass keeps. *)
Section Kept.
Variable R : World -> World -> Prop.
Hypothesis Rrefl : forall w, R w w.
Hypothesis Rtrans : forall w1 w2 w3, R w1 w2 -> R w2 w3 -> R w1 w3.
Hypothesis Rflags : forall w p v, R (set_ExceptionFlags w p v) w.
Hypothesis Rkept : dispatch_routines_keep externals R.

Lemma dispatch_call_handler_kept (w : World) (l : Dispatch.Locals) :
  R (snd (fst (Dispatch.call_handler record context w l))) w.
Proof.
  destruct Rkept as (Hexc & Hlog & Hlast & _).
  unfold Dispatch.call_handler.
  destruct (flag_set (NtGlobalFlag w) FLG_ENABLE_EXCEPTION_LOGGING).
  - specialize (Hlog w record context 0 (Dispatch.RegistrationPointer l) (4 * sizeof_ULONG)).
    destruct (RtlpLogExceptionHandler _ _ _ _ _ _) as [i w0]; simpl in Hlog.
    specialize (Hexc w0 record (Dispatch.RegistrationPointer l) context
                  (Dispatch.DispatcherContext l)
                  (Handler (RegistrationRecords w0 (Dispatch.RegistrationPointer l)))).
    destruct (RtlpExecuteHandlerForException _ _ _ _ _ _) as [[d w1] dc]; simpl in Hexc.
    destruct (flag_set _ _); simpl; eauto.
  - specialize (Hexc w record (Dispatch.RegistrationPointer l) context
                  (Dispatch.DispatcherContext l)
                  (Handler (RegistrationRecords w (Dispatch.RegistrationPointer l)))).
    destruct (RtlpExecuteHandlerForException _ _ _ _ _ _) as [[d w1] dc]; simpl in Hexc.
    destruct (flag_set _ _); simpl; eauto.
Qed.

Lemma dispatch_dispose_kept (evs : list Event) (w : World) (l : Dispatch.Locals)
    (d : EXCEPTION_DISPOSITION) (evs' : list Event) (w' : World) (l' : Dispatch.Locals) :
  Dispatch.dispose record evs w l d = Dispatch.Again evs' w' l' -> R w' w.
Proof.
  destruct Rkept as (_ & _ & _ & Hraise).
  unfold Dispatch.dispose, Dispatch.raise, Dispatch.continue_search, Dispatch.advance.
  destruct d; repeat first [ case_raise | case_flag ]; try discriminate;
    intros [= _ <- _];
    repeat match goal with
           | H : RtlRaiseException _ _ = Some _ |- _ => apply Hraise in H
           end;
    try assumption; try apply Rrefl; apply Rflags.
Qed.

Lemma dispatch_iteration_kept (w : World) (l : Dispatch.Locals)
    (evs : list Event) (w' : World) (l' : Dispatch.Locals) :
  Dispatch.iteration fuel record context w l = Some (Dispatch.Again evs w' l') ->
  R w' w.
Proof.
  unfold Dispatch.iteration.
  destruct (_ =? EXCEPTION_CHAIN_END); [ discriminate | ].
  destruct (frame_fails _ _ _).
  { destruct (on_DpcStack _ _); [ | discriminate ].
    intros [= _ <- _]; apply Rrefl. }
  destruct (RtlIsValidHandler _ _ _) as [[ | ] | ]; try discriminate.
  pose proof (dispatch_call_handler_kept w l) as Hs.
  destruct (Dispatch.call_handler _ _ _ _) as [[[routine d] w1] l1].
  assert (Hs' : R (fst (Dispatch.leave_nested record w1 l1)) w1).
  { unfold Dispatch.leave_nested.
    destruct (_ =? _); simpl; [ apply Rflags | apply Rrefl ]. }
  destruct (Dispatch.leave_nested _ _ _) as [w2 l2].
  simpl in Hs, Hs'.
  intros [= Hstep]; apply dispatch_dispose_kept in Hstep; eauto.
Qed.

End Kept.

(** A pass calls no handler and keeps the registration pointer, or calls
    the handler of the frame the pointer stands at; if it then goes back to
    the loop test, the pointer is at the frame's [Next] link. *)
Lemma dispatch_iteration_order (w : World) (l : Dispatch.Locals) (s : Dispatch.Step) :
  Dispatch.iteration fuel record context w l = Some s ->
  (called_frames (Dispatch.step_events s) = []
   /\ forall evs w' l', s = Dispatch.Again evs w' l' ->
        switches evs = 1%nat
        /\ Dispatch.RegistrationPointer l' = Dispatch.RegistrationPointer l)
  \/ (called_frames (Dispatch.step_events s) = [Dispatch.RegistrationPointer l]
      /\ Dispatch.RegistrationPointer l <> EXCEPTION_CHAIN_END
      /\ forall evs w' l', s = Dispatch.Again evs w' l' ->
           switches evs = 0%nat
           /\ Dispatch.RegistrationPointer l'
              = Next (RegistrationRecords w' (Dispatch.RegistrationPointer l))).
Proof.
  unfold Dispatch.iteration.
  destruct (Z.eqb_spec (Dispatch.RegistrationPointer l) EXCEPTION_CHAIN_END) as [ | Hreg].
  { intros [= <-]; left; split; [ reflexivity | discriminate ]. }
  destruct (frame_fails _ _ _).
  { destruct (on_DpcStack _ _); intros [= <-]; left; (split; [ reflexivity | ]);
      [ | discriminate ].
    intros evs w' l' [= <- _ <-]; split; reflexivity. }
  destruct (RtlIsValidHandler _ _ _) as [[ | ] | ];
    [ | intros [= <-]; left; split; [ reflexivity | discriminate ] | discriminate ].
  pose proof (call_handler_locals record context w l) as Hc.
  destruct (Dispatch.call_handler _ _ _ _) as [[[routine d] w1] l1].
  pose proof (leave_nested_locals record w1 l1) as Hn.
  destruct (Dispatch.leave_nested _ _ _) as [w2 l2].
  simpl in Hc, Hn; destruct Hc as (Hc & _), Hn as (Hn & _).
  intros [= <-]; right.
  split; [ | split; [ assumption | ] ].
  - destruct (dispatch_dispose_events record
                [ExecuteHandlerForException (Dispatch.RegistrationPointer l) routine]
                w2 l2 d) as [-> | (r & ->)]; reflexivity.
  - intros evs w' l' Hstep.
    pose proof (dispatch_dispose_switches record
                  [ExecuteHandlerForException (Dispatch.RegistrationPointer l) routine]
                  w2 l2 d) as Hcount.
    rewrite Hstep in Hcount; simpl in Hcount.
    pose proof (dispose_again record _ _ _ _ _ _ _ Hstep) as (Hnext & _).
    split; [ exact Hcount | ].
    rewrite Hnext; congruence.
Qed.

Section OnChain.
Variable frames : list Z.
Hypothesis Hframes : keeps_frames externals frames.

Lemma dispatch_iteration_agrees (w : World) (l : Dispatch.Locals)
    (evs : list Event) (w' : World) (l' : Dispatch.Locals) :
  Dispatch.iteration fuel record context w l = Some (Dispatch.Again evs w' l') ->
  agree_on frames w' w.
Proof.
  apply (dispatch_iteration_kept (agree_on frames)); auto.
  - apply agree_on_refl.
  - apply agree_on_trans.
  - intros w0 p v a _; reflexivity.
Qed.

(** A pass back to the loop test leaves the chain from the pointer as it
    was, or moves the pointer one link down the chain. *)
Lemma dispatch_iteration_chain (w : World) (l : Dispatch.Locals)
    (evs : list Event) (w' : World) (l' : Dispatch.Locals) (k : nat) :
  Dispatch.iteration fuel record context w l = Some (Dispatch.Again evs w' l') ->
  links_to_end (RegistrationRecords w) k (Dispatch.RegistrationPointer l) ->
  incl (chain_frames (RegistrationRecords w) k (Dispatch.RegistrationPointer l)) frames ->
  (switches evs = 1%nat /\ called_frames evs = []
   /\ Dispatch.RegistrationPointer l' = Dispatch.RegistrationPointer l
   /\ links_to_end (RegistrationRecords w') k (Dispatch.RegistrationPointer l')
   /\ chain_frames (RegistrationRecords w') k (Dispatch.RegistrationPointer l')
      = chain_frames (RegistrationRecords w) k (Dispatch.RegistrationPointer l))
  \/ (switches evs = 0%nat
      /\ called_frames evs = [Dispatch.RegistrationPointer l]
      /\ exists k', k = S k'
           /\ links_to_end (RegistrationRecords w') k' (Dispatch.RegistrationPointer l')
           /\ chain_frames (RegistrationRecords w) k (Dispatch.RegistrationPointer l)
              = Dispatch.RegistrationPointer l
                  :: chain_frames (RegistrationRecords w') k'
                       (Dispatch.RegistrationPointer l')).
Proof.
  intros Hit Hlinks Hincl.
  pose proof (dispatch_iteration_agrees w l evs w' l' Hit) as Hagree.
  destruct (chain_agrees frames w' w k _ Hagree Hincl Hlinks) as (Hlinks' & Hsame).
  destruct (dispatch_iteration_order w l _ Hit)
    as [(Hnone & Hagain) | (Hone & Hreg & Hagain)];
    destruct (Hagain evs w' l' eq_refl) as (Hcount & Hptr); simpl in *.
  - left; rewrite Hptr; auto.
  - right; split; [ assumption | split; [ assumption | ] ].
    destruct k as [ | k]; [ simpl in Hlinks; contradiction | ].
    exists k; split; [ reflexivity | ].
    simpl in Hlinks', Hsame; destruct Hlinks' as (_ & Hlinks').
    rewrite Hptr; split; [ assumption | ].
    simpl; symmetry; exact Hsame.
Qed.

Lemma dispatch_loop_order (n : nat) :
  forall (k : nat) (w : World) (l : Dispatch.Locals),
    links_to_end (RegistrationRecords w) k (Dispatch.RegistrationPointer l) ->
    incl (chain_frames (RegistrationRecords w) k (Dispatch.RegistrationPointer l)) frames ->
    exists j,
      (j <= k)%nat
      /\ called_frames (Dispatch.events (Dispatch.loop n fuel record context w l))
         = firstn j (chain_frames (RegistrationRecords w) k (Dispatch.RegistrationPointer l)).
Proof.
  induction n as [ | n IH]; intros k w l Hlinks Hincl; simpl.
  { exists 0%nat; split; [ lia | reflexivity ]. }
  destruct (Dispatch.iteration fuel record context w l) as [[evs w' l' | evs w' l' e] | ]
    eqn:Hit; simpl.
  - destruct (dispatch_iteration_chain w l evs w' l' k Hit Hlinks Hincl)
      as [(_ & Hnone & _ & Hlinks' & Hsame)
         | (_ & Hone & k' & -> & Hlinks' & Hsame)].
    + destruct (IH k w' l' Hlinks') as (j & Hj & Hcalled); [ now rewrite Hsame | ].
      exists j; split; [ assumption | ].
      now rewrite called_frames_app, Hnone, Hcalled, Hsame.
    + destruct (IH k' w' l' Hlinks') as (j & Hj & Hcalled).
      { intros a Ha; apply Hincl; rewrite Hsame; now right. }
      exists (S j); split; [ lia | ].
      now rewrite called_frames_app, Hone, Hcalled, Hsame.
  - destruct (dispatch_iteration_order w l _ Hit) as [(Hnone & _) | (Hone & Hreg & _)];
      simpl in *.
    + exists 0%nat; split; [ lia | now rewrite Hnone ].
    + destruct k as [ | k]; [ simpl in Hlinks; contradiction | ].
      exists 1%nat; split; [ lia | now rewrite Hone ].
  - exists 0%nat; split; [ lia | reflexivity ].
Qed.

Hypothesis Hkeeps : keeps_DpcStack externals.
Hypothesis Hsearch : keeps_searchable externals.

Lemma dispatch_iteration_searchable (w : World) (l : Dispatch.Locals)
    (evs : list Event) (w' : World) (l' : Dispatch.Locals) :
  Dispatch.iteration fuel record context w l = Some (Dispatch.Again evs w' l') ->
  tables_are_searchable w -> tables_are_searchable w'.
Proof.
  apply (dispatch_iteration_kept
           (fun w' w => tables_are_searchable w -> tables_are_searchable w')); auto.
Qed.

(** On a chain of [k] links whose tables are searchable, [k] passes, one
    more for the switch of the limits, if it is still to come, and one for
    the loop test that fails bring the run to an exit. *)
Lemma dispatch_loop_exits (k : nat) :
  forall (n : nat) (w : World) (l : Dispatch.Locals),
    (32 <= fuel)%nat ->
    tables_are_searchable w ->
    links_to_end (RegistrationRecords w) k (Dispatch.RegistrationPointer l) ->
    incl (chain_frames (RegistrationRecords w) k (Dispatch.RegistrationPointer l)) frames ->
    (k + 2 <= n \/ (dispatch_switched w l /\ k + 1 <= n))%nat ->
    exists e, Dispatch.exit (Dispatch.loop n fuel record context w l) = Some e.
Proof.
  assert (Hsome : forall w l, (32 <= fuel)%nat -> tables_are_searchable w ->
            exists s, Dispatch.iteration fuel record context w l = Some s).
  { intros w l Hfuel Htables; unfold Dispatch.iteration.
    destruct (_ =? EXCEPTION_CHAIN_END); [ eauto | ].
    destruct (frame_fails _ _ _); [ destruct (on_DpcStack _ _); eauto | ].
    destruct (RtlIsValidHandler_answers fuel w
                (Handler (RegistrationRecords w (Dispatch.RegistrationPointer l)))
                Hfuel (Htables _)) as (b & ->).
    destruct b; [ | eauto ].
    destruct (Dispatch.call_handler _ _ _ _) as [[[routine d] w1] l1].
    destruct (Dispatch.leave_nested _ _ _) as [w2 l2]; eauto. }
  assert (Hstays : forall w l evs w' l',
            Dispatch.iteration fuel record context w l = Some (Dispatch.Again evs w' l') ->
            switches evs = 0%nat ->
            dispatch_switched w l -> dispatch_switched w' l').
  { intros w l evs w' l' Hit Hcount Hsw.
    destruct (dispatch_iteration_again fuel record context Hkeeps w l evs w' l' Hit)
      as (Hd & [(_ & Hlow & Hhigh) | (Hone & _)]); [ | congruence ].
    unfold dispatch_switched in *.
    rewrite Hlow, Hhigh, Hsw; symmetry; now apply DpcStack_limits_eq. }
  assert (Honce : forall w l evs w' l',
            Dispatch.iteration fuel record context w l = Some (Dispatch.Again evs w' l') ->
            switches evs = 1%nat ->
            ~ dispatch_switched w l /\ dispatch_switched w' l').
  { intros w l evs w' l' Hit Hcount.
    destruct (dispatch_iteration_again fuel record context Hkeeps w l evs w' l' Hit)
      as (Hd & [(Hzero & _) | (_ & Hfails & Hon & Hsw)]); [ congruence | ].
    split; [ | assumption ].
    intros Hwas; unfold dispatch_switched in Hwas.
    injection Hwas as Hlow Hhigh; rewrite Hlow, Hhigh in Hfails.
    apply no_second_switch in Hfails; congruence. }
  induction k as [ | k IH]; intros n w l Hfuel Htables Hlinks Hincl Hn.
  - simpl in Hlinks.
    destruct n as [ | n]; [ lia | ].
    simpl; unfold Dispatch.iteration at 1.
    apply Z.eqb_eq in Hlinks; rewrite Hlinks; simpl; eauto.
  - assert (Hswitched : forall n0 w0 l0,
              tables_are_searchable w0 ->
              links_to_end (RegistrationRecords w0) (S k) (Dispatch.RegistrationPointer l0) ->
              incl (chain_frames (RegistrationRecords w0) (S k)
                      (Dispatch.RegistrationPointer l0)) frames ->
              dispatch_switched w0 l0 -> (S k + 1 <= n0)%nat ->
              exists e, Dispatch.exit (Dispatch.loop n0 fuel record context w0 l0) = Some e).
    { intros n0 w0 l0 Htables0 Hlinks0 Hincl0 Hsw0 Hn0.
      destruct n0 as [ | n0]; [ lia | ].
      simpl.
      destruct (Hsome w0 l0 Hfuel Htables0) as (s & Hit); rewrite Hit.
      destruct s as [evs w' l' | evs w' l' e]; simpl; [ | eauto ].
      pose proof (dispatch_iteration_searchable w0 l0 evs w' l' Hit Htables0) as Htables'.
      destruct (dispatch_iteration_chain w0 l0 evs w' l' (S k) Hit Hlinks0 Hincl0)
        as [(Hone & _) | (Hzero & _ & k' & [= <-] & Hlinks' & Hsame)].
      - destruct (Honce w0 l0 evs w' l' Hit Hone) as (Hnot & _); contradiction.
      - apply IH; auto.
        + intros a Ha; apply Hincl0; rewrite Hsame; now right.
        + right; split; [ eapply Hstays; eauto | lia ]. }
    destruct Hn as [Hn | (Hsw & Hn)]; [ | now apply Hswitched ].
    destruct n as [ | n]; [ lia | ].
    simpl.
    destruct (Hsome w l Hfuel Htables) as (s & Hit); rewrite Hit.
    destruct s as [evs w' l' | evs w' l' e]; simpl; [ | eauto ].
    pose proof (dispatch_iteration_searchable w l evs w' l' Hit Htables) as Htables'.
    destruct (dispatch_iteration_chain w l evs w' l' (S k) Hit Hlinks Hincl)
      as [(Hone & _ & _ & Hlinks' & Hsame)
         | (Hzero & _ & k' & [= <-] & Hlinks' & Hsame)].
    + destruct (Honce w l evs w' l' Hit Hone) as (_ & Hsw').
      apply Hswitched; auto; [ now rewrite Hsame | lia ].
    + apply IH; auto.
      * intros a Ha; apply Hincl; rewrite Hsame; now right.
      * left; lia.
Qed.

End OnChain.

End DispatchPasses.

(** RtlDispatchException comes to an exit on every chain that ends.  The
    chain from the head reaches EXCEPTION_CHAIN_END in [k] links, every
    registered function table has a length below 2^30 or with the top bit
    set, and the routines the dispatcher calls do not write the
    registration records of the frames of the chain (they may write any
    other), leave the registered tables searchable and leave the top of the
    DPC stack as it is: then [k] + 2 passes through the loop (one per frame,
    one for the switch to the DPC stack and one for the loop test that fails)
    with 32 steps for each search of a function table bring the run to its
    exit, whatever the handlers answer. *)
Theorem RtlDispatchException_returns
    (headers : NtHeaders) (externals : Externals)
    (fuel : nat) (record context : Z) (w : World) (stack : Dispatch.Locals) (k : nat) :
  keeps_DpcStack externals ->
  keeps_frames externals
    (chain_frames (RegistrationRecords w) k (RtlpGetRegistrationHead w)) ->
  keeps_searchable externals ->
  tables_are_searchable w ->
  links_to_end (RegistrationRecords w) k (RtlpGetRegistrationHead w) ->
  (32 <= fuel)%nat ->
  (forall n, (k + 2 <= n)%nat ->
     exists e,
       Dispatch.exit (Dispatch.loop n fuel record context w (Dispatch.entry w stack))
       = Some e)
  /\ ((k + 2 <= fuel)%nat ->
      exists e, Dispatch.exit (RtlDispatchException fuel record context w stack) = Some e).
Proof.
  intros Hkeeps Hframes Hsearch Htables Hlinks Hfuel.
  assert (Hloop : forall n, (k + 2 <= n)%nat ->
            exists e,
              Dispatch.exit (Dispatch.loop n fuel record context w (Dispatch.entry w stack))
              = Some e).
  { intros n Hn.
    apply (dispatch_loop_exits fuel record context _ Hframes Hkeeps Hsearch k); auto.
    apply incl_refl. }
  split; [ exact Hloop | ].
  intros Hpasses; unfold RtlDispatchException; now apply Hloop.
Qed.

(** The trampoline writes a registration record, but none of the chain
    [0x3000; 0x3010; 0x3020]. *)
Lemma trampoline_keeps_frames (script : Z -> Verdict) :
  keeps_frames (trampoline script) [0x3000; 0x3010; 0x3020].
Proof.
  repeat split; try (intros; discriminate); try (intros ? ? ? ? ? ? a _; reflexivity);
    try (intros ? ? ? a _; reflexivity).
  intros w r f c dc h a Ha; simpl.
  destruct Ha as [<- | [<- | [<- | []]]]; reflexivity.
Qed.

Lemma trampoline_keeps_DpcStack (script : Z -> Verdict) : keeps_DpcStack (trampoline script).
Proof.
  repeat split; intros; discriminate.
Qed.

Lemma trampoline_keeps_searchable (script : Z -> Verdict) :
  keeps_searchable (trampoline script).
Proof.
  repeat split; try (intros; discriminate); intros; assumption.
Qed.

Lemma RtlDispatchException_returns_witness :
  let r := @RtlDispatchException i386_headers (trampoline (fun _ => search)) 32
             0x5000 0x6000 three_handlers_world sample_stack in
  (exists e, Dispatch.exit r = Some e)
  /\ RegistrationRecords (Dispatch.world r) 0x2F00
     = {| Next := 0x3020; Handler := 0x400500 |}.
Proof.
  split; [ | reflexivity ].
  refine (proj2 (RtlDispatchException_returns i386_headers (trampoline (fun _ => search)) 32
                   0x5000 0x6000 three_handlers_world sample_stack 3 _ _ _ _ _ _) _).
  - apply trampoline_keeps_DpcStack.
  - apply trampoline_keeps_frames.
  - apply trampoline_keeps_searchable.
  - intros h; left; simpl; lia.
  - simpl; repeat split; discriminate.
  - lia.
  - lia.
Defined.

(** RtlDispatchException calls the handlers in chain order, each at most
    once and none skipped: when the chain from the head reaches
    EXCEPTION_CHAIN_END in [k] links and the routines the dispatcher calls
    do not write the registration records of the frames of the chain (they
    may write any other), the frames whose handlers a run calls are, in the
    order of the calls, the first [j] frames of the chain, for some [j] up
    to [k]. *)
Theorem RtlDispatchException_calls_in_chain_order
    (headers : NtHeaders) (externals : Externals)
    (fuel : nat) (record context : Z) (w : World) (stack : Dispatch.Locals) (k : nat) :
  keeps_frames externals
    (chain_frames (RegistrationRecords w) k (RtlpGetRegistrationHead w)) ->
  links_to_end (RegistrationRecords w) k (RtlpGetRegistrationHead w) ->
  exists j,
    (j <= k)%nat
    /\ called_frames (Dispatch.events (RtlDispatchException fuel record context w stack))
       = firstn j (chain_frames (RegistrationRecords w) k (RtlpGetRegistrationHead w)).
Proof.
  intros Hframes Hlinks; unfold RtlDispatchException.
  apply (dispatch_loop_order fuel record context _ Hframes fuel k w (Dispatch.entry w stack));
    [ assumption | apply incl_refl ].
Qed.

Lemma RtlDispatchException_calls_in_chain_order_witness :
  let r := @RtlDispatchException i386_headers (trampoline nested_script) 5
             0x5000 0x6000 three_handlers_world sample_stack in
  (exists j,
     (j <= 3)%nat
     /\ called_frames (Dispatch.events r) = firstn j [0x3000; 0x3010; 0x3020])
  /\ RegistrationRecords (Dispatch.world r) 0x2F00
     = {| Next := 0x3020; Handler := 0x400500 |}.
Proof.
  split; [ | reflexivity ].
  apply (RtlDispatchException_calls_in_chain_order i386_headers (trampoline nested_script) 5
           0x5000 0x6000 three_handlers_world sample_stack 3).
  - apply trampoline_keeps_frames.
  - simpl; repeat split; discriminate.
Defined.
